(** * graphrag-search: context assembly and the tool-orchestration loop

    A shallow embedding of
      - [agents/search_agent.py]        (truncation, history, dispatch, [run]),
      - [query/neo4j_global_context.py] (lexical filter, weights, batch packer),
      - [query/neo4j_local_context.py]  (scoped chunk retrieval, chunk packer),
      - [service/unstructured.py]       ([run_cypher_query]),
      - [utils/functions.py]            ([cosine_similarity], in single precision),
    with the properties of the specification stated over it.

    Conventions.  Python [str] is [string]; a [dict] with string keys is a
    [gmap string _]; Python exceptions are the [Raise] branch of [res];
    external services (language model, embedding, Neo4j driver, pandas,
    tiktoken) are section variables. *)

From Stdlib Require Import String Ascii List ZArith QArith Lia Bool Permutation.
From Stdlib Require Import Sorted.
From Stdlib Require Import Lqa Qpower.
From Stdlib Require Floats.SpecFloat.
From stdpp Require Import gmap strings list.
Import ListNotations.

Close Scope Q_scope.
Open Scope nat_scope.
Open Scope stdpp_scope.

(** ** Python results and exceptions *)

Inductive exn : Type :=
  | ValueError (msg : string)
  | IndexError (msg : string)
  | KeyError (key : string)
  | ExternalError (msg : string).

Inductive res (A : Type) : Type :=
  | Ok (a : A)
  | Raise (e : exn).
Arguments Ok {A} a.
Arguments Raise {A} e.

(** [res] is a monad: [x ← m; k] runs [k] on the value of [m] and lets an
    exception of [m] propagate, as an uncaught Python exception does. *)
#[global] Instance res_ret : MRet res := fun A a => Ok a.
#[global] Instance res_bind : MBind res := fun A B k m =>
  match m with
  | Ok a => k a
  | Raise e => Raise e
  end.

Lemma bind_Ok {A B : Type} (m : res A) (k : A -> res B) (b : B) :
  m ≫= k = Ok b -> exists a, m = Ok a /\ k a = Ok b.
Proof. destruct m as [a|e]; simpl; [eauto | discriminate]. Qed.

(** ** Python string primitives *)

Module Py.

(** The newline character of the source's ["\n"] literals. *)
Definition nl : string := String (ascii_of_nat 10) EmptyString.

(** [str.isspace] on one character, for code points below 256:
    tab .. carriage return, the separators 28 .. 31, space, NEL and NBSP. *)
Definition is_space (c : ascii) : bool :=
  let n := nat_of_ascii c in
  (Nat.leb 9 n && Nat.leb n 13) || (Nat.leb 28 n && Nat.leb n 32)
  || Nat.eqb n 133 || Nat.eqb n 160.

(** [str.lower] on one character, for code points below 256. *)
Definition lower_char (c : ascii) : ascii :=
  let n := nat_of_ascii c in
  if (Nat.leb 65 n && Nat.leb n 90)
     || (Nat.leb 192 n && Nat.leb n 222 && negb (Nat.eqb n 215))
  then ascii_of_nat (n + 32) else c.

Fixpoint lower (s : string) : string :=
  match s with
  | EmptyString => EmptyString
  | String c s' => String (lower_char c) (lower s')
  end.

(** [s.split()]: maximal runs of non-blank characters, in order.
    [cur] is the word being read, reversed. *)
Fixpoint split_go (cur : option string) (s : string) : list string :=
  match s with
  | EmptyString => option_list (String.rev <$> cur)
  | String c s' =>
      if is_space c
      then option_list (String.rev <$> cur) ++ split_go None s'
      else split_go (Some (String c (default EmptyString cur))) s'
  end.
Definition split (s : string) : list string := split_go None s.

(** [bool(s.strip())]: some character of [s] is not blank. *)
Fixpoint has_non_space (s : string) : bool :=
  match s with
  | EmptyString => false
  | String c s' => negb (is_space c) || has_non_space s'
  end.

(** [sep.join(parts)]. *)
Definition join (sep : string) (parts : list string) : string :=
  String.concat sep parts.

(** [needle in hay] for strings. *)
Fixpoint contains (needle hay : string) : bool :=
  String.prefix needle hay
  || match hay with
     | EmptyString => false
     | String _ hay' => contains needle hay'
     end.

(** [bool(s)] for a string. *)
Definition truthy (s : string) : bool :=
  match s with EmptyString => false | _ => true end.

(** [s[:n]]. *)
Definition prefix_slice (n : nat) (s : string) : string :=
  String.substring 0 n s.

Lemma length_app (s t : string) :
  String.length (s +:+ t) = String.length s + String.length t.
Proof. induction s as [|c s IH]; simpl; [reflexivity | now rewrite IH]. Qed.

Lemma length_prefix_slice (n : nat) (s : string) :
  String.length (prefix_slice n s) = Nat.min n (String.length s).
Proof.
  unfold prefix_slice. revert n.
  induction s as [|c s IH]; intros [|n]; simpl; try reflexivity.
  now rewrite IH.
Qed.

Lemma prefix_slice_all (n : nat) (s : string) :
  String.length s <= n -> prefix_slice n s = s.
Proof.
  unfold prefix_slice. revert n.
  induction s as [|c s IH]; intros [|n] H; simpl in *; try reflexivity; try lia.
  f_equal. apply IH. lia.
Qed.

Lemma prefix_spec (s1 : string) : forall s2,
  String.prefix s1 s2 = true <-> exists post, s2 = s1 +:+ post.
Proof.
  induction s1 as [|a s1 IH]; intros s2; simpl.
  - destruct s2; split; eauto.
  - destruct s2 as [|b s2]; simpl.
    + split; [discriminate | intros [post H]; discriminate].
    + destruct (ascii_dec a b) as [->|Hne].
      * rewrite IH. split; intros [post H]; exists post.
        -- now rewrite H.
        -- now injection H.
      * split; [discriminate | intros [post H]; injection H; congruence].
Qed.

(** [contains] decides the substring relation. *)
Lemma contains_spec (needle : string) : forall hay,
  contains needle hay = true <-> exists pre post, hay = pre +:+ needle +:+ post.
Proof.
  induction hay as [|c hay IH].
  - change (contains needle "") with (String.prefix needle "" || false).
    rewrite orb_false_r, prefix_spec. split.
    + intros [post H]. exists "", post. exact H.
    + intros (pre & post & H). destruct pre; [exists post; exact H | discriminate].
  - change (contains needle (String c hay))
      with (String.prefix needle (String c hay) || contains needle hay).
    rewrite orb_true_iff, IH, prefix_spec. split.
    + intros [[post H] | (pre & post & H)].
      * exists "", post. exact H.
      * exists (String c pre), post. simpl. now rewrite H.
    + intros (pre & post & H). destruct pre as [|c' pre]; simpl in H.
      * left. exists post. exact H.
      * right. injection H as _ H. exists pre, post. exact H.
Qed.

End Py.

(** ** The search agent ([agents/search_agent.py]) *)

Module Agent.

(** One entry of [reasoning_model_history]. *)
Record message : Type := Message { role : string; content : string }.

(** [response.output[1]] of the reasoning model: a tool call, a direct
    message, or an output of another type (which [run] ignores). *)
Inductive reasoning_response : Type :=
  | function_call (name arguments : string)
  | message_output (text : string)
  | other_output (type : string).

(** The dictionary returned by [evaluate_sufficiency]. *)
Record evaluation : Type :=
  Evaluation { sufficient : bool; final_answer : option string }.

(** What [call_tool] hands back: a backend's value, the dictionary
    [{"error": "Unknown function: <name>"}], or the string ["No tool call"]. *)
Inductive tool_result (V : Type) : Type :=
  | backend_value (v : V)
  | unknown_function (tool_name : string)
  | no_tool_call.
Arguments backend_value {V} v.
Arguments unknown_function {V} tool_name.
Arguments no_tool_call {V}.

(** The two kinds of value [update_reasoning_model_history] is called with. *)
Inductive py_value (V : Type) : Type :=
  | PyTool (r : tool_result V)
  | PyStr (s : string).
Arguments PyTool {V} r.
Arguments PyStr {V} s.

(** The backends, by the methods the agent calls on them. *)
Record UnstructuredService (V : Type) : Type := {
  global_search : string -> string -> option string -> res V;
  local_search : string -> string -> option string -> res V;
  run_cypher_query : string -> res V
}.
Arguments global_search {V} _ _ _ _.
Arguments local_search {V} _ _ _ _.
Arguments run_cypher_query {V} _ _.

Record StructuredService (V : Type) : Type := {
  list_tables : res V;
  get_table_columns : string -> res V;
  custom_query : string -> res V
}.
Arguments list_tables {V} _.
Arguments get_table_columns {V} _ _.
Arguments custom_query {V} _ _.

(** The fields of [SearchAgent] set by [__init__] and [_load_tools]. *)
Record SearchAgent (V : Type) : Type := {
  unstructured_search_service : UnstructuredService V;
  structured_search_service : StructuredService V;
  user_email : option string;
  query : string;
  tool_classifications : gmap string string
}.
Arguments unstructured_search_service {V} _.
Arguments structured_search_service {V} _.
Arguments user_email {V} _.
Arguments query {V} _.
Arguments tool_classifications {V} _.

Definition max_plans : nat := 10.

Definition truncation_marker : string := "... [truncated]".

Definition default_max_length : nat := 2000.

Definition _truncate_content (content : string) (max_length : nat) : string :=
  if Nat.ltb max_length (String.length content)
  then Py.prefix_slice max_length content +:+ truncation_marker
  else content.

Definition get_reasoning_model_history (history : list message) : string :=
  Py.join Py.nl (map content history).

(** [d[key]] on the decoded tool arguments. *)
Definition getitem (d : gmap string string) (key : string) : res string :=
  match d !! key with
  | Some v => Ok v
  | None => Raise (KeyError key)
  end.

Section Dispatch.
Context {V : Type}.
Variable self : SearchAgent V.

Definition get_tool_type (tool_name : string) : option string :=
  tool_classifications self !! tool_name.

Definition unstructured_search (tool_name : string)
    (tool_call_arguments : gmap string string) : res (tool_result V) :=
  if decide (tool_name = "global_search") then
    q ← getitem tool_call_arguments "query";
    rt ← getitem tool_call_arguments "response_type";
    v ← global_search (unstructured_search_service self) q rt (user_email self);
    Ok (backend_value v)
  else if decide (tool_name = "local_search") then
    q ← getitem tool_call_arguments "query";
    rt ← getitem tool_call_arguments "response_type";
    v ← local_search (unstructured_search_service self) q rt (user_email self);
    Ok (backend_value v)
  else if decide (tool_name = "run_cypher_query") then
    q ← getitem tool_call_arguments "query";
    v ← run_cypher_query (unstructured_search_service self) q;
    Ok (backend_value v)
  else Ok (unknown_function tool_name).

Definition structured_search (tool_name : string)
    (tool_call_arguments : gmap string string) : res (tool_result V) :=
  if decide (tool_name = "get_all_tables") then
    v ← list_tables (structured_search_service self);
    Ok (backend_value v)
  else if decide (tool_name = "get_table_schema") then
    t ← getitem tool_call_arguments "table_name";
    v ← get_table_columns (structured_search_service self) t;
    Ok (backend_value v)
  else if decide (tool_name = "run_sql_query") then
    q ← getitem tool_call_arguments "query";
    v ← custom_query (structured_search_service self) q;
    Ok (backend_value v)
  else Ok (unknown_function tool_name).

Definition call_tool (tool_name : string)
    (tool_call_arguments : gmap string string) : res (tool_result V) :=
  match get_tool_type tool_name with
  | Some tool_type =>
      if decide (tool_type = "structured")
      then structured_search tool_name tool_call_arguments
      else if decide (tool_type = "unstructured")
      then unstructured_search tool_name tool_call_arguments
      else Ok no_tool_call
  | None => Ok no_tool_call
  end.

End Dispatch.

(** How a run ends: [return evaluation["final_answer"]], falling off the
    loop (Python returns [None]), or an uncaught exception. *)
Inductive outcome : Type :=
  | Returned (answer : string)
  | NoAnswer
  | Raised (e : exn).

(** What one run did: the iterations it started, the verdicts the judge gave
    (one per completed iteration, in order) and how it ended. *)
Record run_result : Type := RunResult {
  iterations : nat;
  verdicts : list evaluation;
  result : outcome
}.

(** The test of [run]:
    [evaluation.get("sufficient") and evaluation.get("final_answer")]. *)
Definition accepted (ev : evaluation) : option string :=
  if sufficient ev then
    match final_answer ev with
    | Some a => if Py.truthy a then Some a else None
    | None => None
    end
  else None.

Section Run.
Context {V : Type}.
Variable self : SearchAgent V.

(** The external capabilities.  The language model is not a function of its
    input, so each call also receives the number of the iteration. *)
Variable REASONING_PROMPT : string.
Variable reasoning_model : nat -> list message -> res reasoning_response.
Variable json_loads : string -> res (gmap string string).
Variable json_dumps : py_value V -> res string.
Variable repr_tool : tool_result V -> string.
Variable judge_completion : nat -> string -> string -> res string.
Variable parse_evaluation : string -> res evaluation.

Definition py_str (v : py_value V) : string :=
  match v with
  | PyStr s => s
  | PyTool r => repr_tool r
  end.

Definition initial_history : list message :=
  [Message "system" REASONING_PROMPT; Message "user" (query self)].

Definition update_reasoning_model_history (history : list message)
    (response : py_value V) (response_type : string) : res (list message) :=
  if decide (response_type = "function_call") then
    result_str ← json_dumps response;
    let truncated_result := _truncate_content result_str default_max_length in
    Ok (history ++ [Message "assistant" ("Tool result: " +:+ truncated_result)])
  else if decide (response_type = "message") then
    let response_str := py_str response in
    let truncated_response := _truncate_content response_str default_max_length in
    Ok (history ++ [Message "assistant" truncated_response])
  else Ok history.

(** [evaluate_sufficiency]: only the decoding of the answer is guarded. *)
Definition evaluate_sufficiency (i : nat) (reasoning_model_history : string)
    : res evaluation :=
  answer ← judge_completion i (query self) reasoning_model_history;
  match parse_evaluation answer with
  | Ok ev => Ok ev
  | Raise _ => Ok (Evaluation false None)
  end.

(** The body of the [for] loop of [run], up to the verdict. *)
Definition iteration (i : nat) (history : list message)
    : res (list message * evaluation) :=
  reasoning_response ← reasoning_model i history;
  history' ←
    match reasoning_response with
    | function_call name arguments =>
        args ← json_loads arguments;
        tool_result ← call_tool self name args;
        update_reasoning_model_history history (PyTool tool_result) "function_call"
    | message_output text =>
        update_reasoning_model_history history (PyStr text) "message"
    | other_output _ => Ok history
    end;
  ev ← evaluate_sufficiency i (get_reasoning_model_history history');
  Ok (history', ev).

Fixpoint run_loop (remaining i : nat) (history : list message)
    (seen : list evaluation) : run_result :=
  match remaining with
  | 0 => RunResult i seen NoAnswer
  | S remaining' =>
      match iteration i history with
      | Raise e => RunResult (S i) seen (Raised e)
      | Ok (history', ev) =>
          match accepted ev with
          | Some a => RunResult (S i) (seen ++ [ev]) (Returned a)
          | None => run_loop remaining' (S i) history' (seen ++ [ev])
          end
      end
  end.

Definition run : run_result := run_loop max_plans 0 initial_history [].

(** *** Truncation of history entries *)

Lemma truncate_content_short (content : string) (max_length : nat) :
  String.length content <= max_length ->
  _truncate_content content max_length = content.
Proof.
  intros H. unfold _truncate_content.
  destruct (Nat.ltb_spec max_length (String.length content)); [lia | reflexivity].
Qed.

Lemma truncate_content_long (content : string) (max_length : nat) :
  max_length < String.length content ->
  _truncate_content content max_length
  = Py.prefix_slice max_length content +:+ truncation_marker.
Proof.
  intros H. unfold _truncate_content.
  destruct (Nat.ltb_spec max_length (String.length content)); [reflexivity | lia].
Qed.

Lemma truncate_content_length (content : string) (max_length : nat) :
  String.length (_truncate_content content max_length) <= max_length + 15.
Proof.
  destruct (Nat.le_gt_cases (String.length content) max_length) as [H|H].
  - rewrite truncate_content_short by exact H. lia.
  - rewrite truncate_content_long by exact H.
    rewrite Py.length_app, Py.length_prefix_slice. simpl. lia.
Qed.


Lemma update_history_bounded (history : list message) (response : py_value V)
    (response_type : string) (history' : list message) :
  update_reasoning_model_history history response response_type = Ok history' ->
  history' = history
  \/ exists m, history' = history ++ [m] /\ role m = "assistant"
       /\ String.length (content m) <= 2028.
Proof.
  unfold update_reasoning_model_history, default_max_length. intros H.
  destruct (decide (response_type = "function_call")) as [Hty|Hty].
  - destruct (json_dumps response) as [payload|err]; simpl in H; [|discriminate].
    injection H as <-. right. eexists. split; [reflexivity|]. split; [reflexivity|].
    cbn [content]. rewrite Py.length_app.
    pose proof (truncate_content_length payload 2000). simpl. lia.
  - destruct (decide (response_type = "message")) as [Hm|Hm].
    + injection H as <-. right. eexists. split; [reflexivity|]. split; [reflexivity|].
      cbn [content]. pose proof (truncate_content_length (py_str response) 2000). lia.
    + injection H as <-. left. reflexivity.
Qed.

(** X6.  An iteration that completes leaves the earlier history untouched
    and appends at most one entry, an assistant message of at most 2028
    characters. *)
Lemma iteration_history_bounded (i : nat) (history history' : list message)
    (ev : evaluation) :
  iteration i history = Ok (history', ev) ->
  history' = history
  \/ exists m, history' = history ++ [m] /\ role m = "assistant"
       /\ String.length (content m) <= 2028.
Proof.
  unfold iteration. intros H.
  apply bind_Ok in H as (response & _ & H).
  apply bind_Ok in H as (h & Hh & H).
  apply bind_Ok in H as (v & _ & H).
  assert (h = history') as -> by congruence.
  destruct response as [name arguments|text|ty].
  - apply bind_Ok in Hh as (args & _ & Hh).
    apply bind_Ok in Hh as (tool_result & _ & Hh).
    eapply update_history_bounded. exact Hh.
  - eapply update_history_bounded. exact Hh.
  - left. congruence.
Qed.

(** *** The reasoning loop *)

Definition rejected (ev : evaluation) : Prop := accepted ev = None.

Lemma rejected_lookup (seen : list evaluation) (k : nat) (ev : evaluation)
    (a : string) :
  Forall rejected seen -> seen !! k = Some ev -> accepted ev = Some a -> False.
Proof.
  intros Hrej Hk Ha. apply list_elem_of_lookup_2 in Hk.
  rewrite Forall_forall in Hrej. apply Hrej in Hk.
  unfold rejected in Hk. congruence.
Qed.

Lemma rejected_snoc (seen : list evaluation) (ev : evaluation) (a : string) :
  accepted ev = Some a -> Forall rejected (seen ++ [ev]) -> False.
Proof.
  intros Ha H. apply Forall_app in H as [_ H].
  inversion H as [|? ? Hr _]; subst. unfold rejected in Hr. congruence.
Qed.

Lemma accepted_spec (ev : evaluation) (a : string) :
  accepted ev = Some a
  <-> sufficient ev = true /\ final_answer ev = Some a /\ a <> "".
Proof.
  unfold accepted. destruct ev as [suff answer]. cbn [sufficient final_answer].
  split.
  - destruct suff; [|discriminate].
    destruct answer as [s|]; [|discriminate].
    destruct s as [|c s]; simpl; [discriminate|].
    intros [= <-]. split; [reflexivity|]. split; [reflexivity | discriminate].
  - intros (-> & -> & Ha). destruct a as [|c s]; [congruence | reflexivity].
Qed.

Lemma run_loop_spec (remaining : nat) :
  forall (i : nat) (history : list message) (seen : list evaluation),
    length seen = i -> Forall rejected seen ->
    let r := run_loop remaining i history seen in
    iterations r <= i + remaining
    /\ length (verdicts r) <= iterations r
    /\ (forall k ev a, verdicts r !! k = Some ev -> accepted ev = Some a ->
          iterations r = S k /\ result r = Returned a)
    /\ (Forall rejected (verdicts r) -> (forall e, result r <> Raised e) ->
          iterations r = i + remaining /\ result r = NoAnswer
          /\ length (verdicts r) = i + remaining)
    /\ (forall a, result r = Returned a ->
          exists ev, last (verdicts r) = Some ev /\ accepted ev = Some a).
Proof.
  induction remaining as [|remaining IH]; intros i history seen Hlen Hrej; simpl.
  - split; [lia|]. split; [lia|]. split; [|split].
    + intros k ev a Hk Ha. exfalso. eapply rejected_lookup; eassumption.
    + intros _ _. split; [lia|]. split; [reflexivity | lia].
    + intros a Ha. discriminate Ha.
  - destruct (iteration i history) as [[history' ev]|e] eqn:Hstep; simpl.
    + destruct (accepted ev) as [a|] eqn:Hacc; simpl.
      * split; [lia|]. split; [rewrite length_app; simpl; lia|]. split; [|split].
        -- intros k ev' a' Hk Ha.
           destruct (decide (k = length seen)) as [->|Hne].
           ++ rewrite list_lookup_middle in Hk by reflexivity.
              injection Hk as <-. split; [lia | congruence].
           ++ exfalso. assert (Hlt : k < length seen).
              { apply lookup_lt_Some in Hk. rewrite length_app in Hk. simpl in Hk. lia. }
              rewrite lookup_app_l in Hk by exact Hlt.
              eapply rejected_lookup; eassumption.
        -- intros Hall _. exfalso. eapply rejected_snoc; eassumption.
        -- intros a' [= <-]. exists ev. split; [apply last_snoc | exact Hacc].
      * assert (Hlen' : length (seen ++ [ev]) = S i) by (rewrite length_app; simpl; lia).
        assert (Hrej' : Forall rejected (seen ++ [ev])).
        { apply Forall_app. split; [exact Hrej | constructor; [exact Hacc | constructor]]. }
        destruct (IH (S i) history' (seen ++ [ev]) Hlen' Hrej')
          as (H1 & H2 & H3 & H4 & H5).
        split; [lia|]. split; [exact H2|]. split; [exact H3|]. split; [|exact H5].
        intros Hall Hno. destruct (H4 Hall Hno) as (E1 & E2 & E3).
        split; [lia|]. split; [exact E2 | lia].
    + split; [lia|]. split; [lia|]. split; [|split].
      * intros k ev a Hk Ha. exfalso. eapply rejected_lookup; eassumption.
      * intros _ Hno. exfalso. eapply Hno. reflexivity.
      * intros a Ha. discriminate Ha.
Qed.


End Run.

(** *** Stubs for the scenarios of the specification *)

(** An agent with one structured tool, [get_all_tables]. *)
Definition stub_agent : SearchAgent unit := {|
  unstructured_search_service := {|
    global_search := fun _ _ _ => Ok tt;
    local_search := fun _ _ _ => Ok tt;
    run_cypher_query := fun _ => Ok tt |};
  structured_search_service := {|
    list_tables := Ok tt;
    get_table_columns := fun _ => Ok tt;
    custom_query := fun _ => Ok tt |};
  user_email := Some "alice@example.com";
  query := "which tables exist?";
  tool_classifications := {[ "get_all_tables" := "structured" ]}
|}.

(** Requests the tool in the first iteration, answers directly afterwards. *)
Definition stub_reasoning (i : nat) (_ : list message) : res reasoning_response :=
  if Nat.eqb i 0 then Ok (function_call "get_all_tables" "{}")
  else Ok (message_output "the tables are listed above").

Definition stub_parse (answer : string) : res evaluation :=
  if decide (answer = "sufficient")
  then Ok (Evaluation true (Some "users, orders"))
  else if decide (answer = "insufficient")
  then Ok (Evaluation false None)
  else Raise (ValueError "malformed judge answer").

(** Signals sufficiency in the second iteration. *)
Definition stub_judge_second (i : nat) (_ _ : string) : res string :=
  if Nat.eqb i 1 then Ok "sufficient" else Ok "insufficient".

(** Never signals sufficiency; every other answer is malformed. *)
Definition stub_judge_never (i : nat) (_ _ : string) : res string :=
  if Nat.even i then Ok "insufficient" else Ok "not json".

Definition stub_run (judge : nat -> string -> string -> res string) : run_result :=
  run stub_agent "system prompt" stub_reasoning (fun _ => Ok ∅)
      (fun _ => Ok "[users, orders]") (fun _ => "") judge stub_parse.

Example run_one_tool_call_then_sufficient :
  stub_run stub_judge_second
  = RunResult 2 [Evaluation false None; Evaluation true (Some "users, orders")]
              (Returned "users, orders").
Proof. vm_compute. reflexivity. Qed.

Example run_never_sufficient :
  stub_run stub_judge_never
  = RunResult 10 (replicate 10 (Evaluation false None)) NoAnswer.
Proof. vm_compute. reflexivity. Qed.

Example truncate_content_2001 :
  let payload := String.concat "" (replicate 2001 "a") in
  String.length (_truncate_content payload 2000) = 2015
  /\ _truncate_content (Py.prefix_slice 2000 payload) 2000
     = Py.prefix_slice 2000 payload.
Proof. vm_compute. split; reflexivity. Qed.


End Agent.

(** ** The Neo4j driver, as the context builders use it *)

Module Neo4j.

(** The statements the repository sends.  The three fixed ones stand for
    the Cypher texts of the builders; [raw] is a caller-supplied text. *)
Inductive cypher : Type :=
  | community_reports_scoped
      (* MATCH (c:__Community__ {userEmail: $user_email}) ... *)
  | community_reports_all
      (* MATCH (c:__Community__) ... *)
  | chunks_scoped (doc_type_filter : bool)
      (* MATCH (chunk:__Chunk__ {userEmail: $user_email}) ... *)
  | raw (text : string).

(** One [session.run(statement, **parameters)]. *)
Record call : Type := Call {
  statement : cypher;
  parameters : gmap string (option string)
}.

(** A statement is scoped when its text filters on [$user_email]. *)
Definition scoped (c : call) : bool :=
  match statement c with
  | community_reports_scoped | chunks_scoped _ => true
  | community_reports_all | raw _ => false
  end.

(** A computation that talks to the store: the calls it issued, in order,
    and its result. *)
Definition traced (A : Type) : Type := list call * res A.

Definition fails_before_any_query {A : Type} (t : traced A) : Prop :=
  t.1 = [] /\ exists e, t.2 = Raise e.

End Neo4j.

(** ** Tabular records ([pandas.DataFrame], as far as the builders use it) *)

Record DataFrame : Type := {
  columns : list string;
  rows : list (list string)
}.

Definition empty_frame : DataFrame := {| columns := []; rows := [] |}.

(** [context_chunks] is a list of batches or one string. *)
Inductive context_chunks_t : Type :=
  | batches (texts : list string)
  | single_text (text : string).

Record ContextBuilderResult : Type := {
  context_chunks : context_chunks_t;
  context_records : gmap string DataFrame;
  llm_calls : nat;
  prompt_tokens : nat;
  output_tokens : nat
}.

(** [bool(email)] for the optional scoping key. *)
Definition has_scope_key (user_email : option string) : option string :=
  match user_email with
  | Some e => if Py.truthy e then Some e else None
  | None => None
  end.

(** The prefix that [build_context] puts before every batch. *)
Definition context_prefix (conversation_history_context : string) : string :=
  if Py.truthy conversation_history_context
  then conversation_history_context +:+ Py.nl +:+ Py.nl
  else "".

(** ** The global community context builder
       ([query/neo4j_global_context.py]) *)

Module GlobalContext.

(** A row of the community query.  [attrs] holds the numeric entries that
    the code writes under a caller-chosen key ([report[weight_attribute]]),
    which is taken to differ from the fixed keys.  [id] is [str(report["id"])]. *)
Record report : Type := Report {
  id : string;
  title : string;
  summary : string;
  full_content : string;
  entity_names : list string;
  chunk_texts : list string;
  rank : Q;
  attrs : gmap string Q
}.

Record Neo4jGlobalCommunityContext : Type := {
  user_email : option string;
  random_state : Z
}.

(** *** Weights *)

(** [len(set(l))]. *)
Definition distinct_count (l : list string) : nat :=
  size (list_to_set l : gset string).

(** [entity_count + (chunk_count * 0.1)], over the rationals. *)
Definition occurrence_weight (r : report) : Q :=
  (inject_Z (Z.of_nat (distinct_count (entity_names r)))
   + inject_Z (Z.of_nat (distinct_count (chunk_texts r))) * (1 # 10))%Q.

(** [report[name] = w]. *)
Definition set_attr (name : string) (w : Q) (r : report) : report :=
  {| id := id r; title := title r; summary := summary r;
     full_content := full_content r; entity_names := entity_names r;
     chunk_texts := chunk_texts r; rank := rank r;
     attrs := <[name := w]> (attrs r) |}.

(** [report.get(name, 0)]. *)
Definition get_attr (name : string) (r : report) : Q :=
  default 0%Q (attrs r !! name).

(** [max(x, *xs)]: the first greatest element. *)
Definition py_max (x : Q) (xs : list Q) : Q :=
  fold_left (fun m y => if Qlt_le_dec m y then y else m) xs x.

Definition _compute_community_weights_neo4j (reports : list report)
    (weight_attribute : string) (normalize : bool) : list report :=
  let reports := map (fun r => set_attr weight_attribute (occurrence_weight r) r) reports in
  match normalize, map (get_attr weight_attribute) reports with
  | true, w :: ws =>
      let max_weight := py_max w ws in
      if Qlt_le_dec 0 max_weight
      then map (fun r => set_attr weight_attribute
                           (get_attr weight_attribute r / max_weight)%Q r) reports
      else reports
  | _, _ => reports
  end.

(** [max(l)], when [l] is not empty. *)
Definition list_max (l : list Q) : option Q :=
  match l with
  | [] => None
  | x :: xs => Some (py_max x xs)
  end.

(** The column of weights, in report order. *)
Definition weights (name : string) (reports : list report) : list Q :=
  map (get_attr name) reports.

(** *** Lexical relevance *)

(** [set(query.lower().split())]. *)
Definition query_terms (query : string) : gset string :=
  list_to_set (Py.split (Py.lower query)).

Definition report_text (r : report) : string :=
  Py.lower (title r +:+ " " +:+ summary r +:+ " " +:+ Py.join " " (entity_names r)).

(** [any(term in report_text for term in query_terms if len(term) > 2)]. *)
Definition is_relevant (terms : gset string) (r : report) : bool :=
  existsb (fun term => Py.contains term (report_text r))
          (List.filter (fun term => 2 <? String.length term) (elements terms)).

Definition relevance_filter (query : string) (reports : list report) : list report :=
  let query_terms := query_terms query in
  if bool_decide (query_terms = ∅) then reports
  else
    match List.filter (is_relevant query_terms) reports with
    | [] => reports
    | relevant_reports => relevant_reports
    end.

(** *** Retrieval *)

Section Retrieval.
Variable session_run : Neo4j.call -> res (list report).
Variable self : Neo4jGlobalCommunityContext.

Definition _get_community_reports_from_neo4j (query : string)
    (include_community_rank : bool) (min_community_rank : Q)
    (include_community_weight : bool) (community_weight_name : string)
    (normalize_community_weight : bool) : Neo4j.traced (list report) :=
  let call :=
    match has_scope_key (user_email self) with
    | Some e => Neo4j.Call Neo4j.community_reports_scoped {[ "user_email" := Some e ]}
    | None => Neo4j.Call Neo4j.community_reports_all ∅
    end in
  ([call],
   reports ← session_run call;
   let reports := relevance_filter query reports in
   let reports :=
     if include_community_rank && (if Qlt_le_dec 0 min_community_rank then true else false)
     then List.filter (fun r => Qle_bool min_community_rank (rank r)) reports
     else reports in
   let reports :=
     if include_community_weight
     then _compute_community_weights_neo4j reports community_weight_name
            normalize_community_weight
     else reports in
   Ok reports).

End Retrieval.

(** *** The batch packer *)

(** The variables of the current batch. *)
Record batch : Type := Batch {
  batch_text : string;
  batch_tokens : nat;
  batch_records : list (list string)
}.

(** [all_context_text] and [all_context_records]. *)
Definition outputs : Type := (list string * list DataFrame)%type.

(** [record[0]]. *)
Definition record_id (record : list string) : string := default "" (head record).

(** [df[name].to_list()]. *)
Definition column (name : string) (df : DataFrame) : list string :=
  match list_find (fun c => c = name) (columns df) with
  | Some (i, _) => map (fun row => default "" (row !! i)) (rows df)
  | None => []
  end.

Section Build.
(** External: graphrag's [num_tokens] with the builder's encoder, [str] of a
    number, the seeded [random.shuffle], and pandas ([astype(float)] with
    [sort_values(by, ascending=False)], [to_csv], [concat]). *)
Variable num_tokens : string -> nat.
Variable str_num : Q -> string.
Variable shuffle : Z -> list report -> list report.
Variable sort_values : list string -> DataFrame -> DataFrame.
Variable to_csv : DataFrame -> string -> string.
Variable pd_concat : list DataFrame -> DataFrame.
Variable session_run : Neo4j.call -> res (list report).

Variable self : Neo4jGlobalCommunityContext.

(** The keyword arguments of [build_context]. *)
Variable use_community_summary : bool.
Variable column_delimiter : string.
Variable shuffle_data : bool.
Variable include_community_rank : bool.
Variable min_community_rank : Q.
Variable community_rank_name : string.
Variable include_community_weight : bool.
Variable community_weight_name : string.
Variable normalize_community_weight : bool.
Variable max_context_tokens : Z.
Variable context_name : string.

Definition _rank_report_context (report_df : DataFrame)
    (weight_column rank_column : option string) : DataFrame :=
  let present (c : option string) : list string :=
    match c with
    | Some n => if Py.truthy n && bool_decide (n ∈ columns report_df) then [n] else []
    | None => []
    end in
  match present weight_column ++ present rank_column with
  | [] => report_df
  | rank_attributes => sort_values rank_attributes report_df
  end.

Definition _convert_report_context_to_df (context_records : list (list string))
    (header : list string) (weight_column rank_column : option string) : DataFrame :=
  match context_records with
  | [] => empty_frame
  | _ => _rank_report_context {| columns := header; rows := context_records |}
           weight_column rank_column
  end.

Definition _is_included (r : report) : bool :=
  Py.truthy (summary r) || Py.truthy (full_content r).

Definition _get_header : list string :=
  ["id"; "title"]
  ++ (if include_community_weight then [community_weight_name] else [])
  ++ [if use_community_summary then "summary" else "content"]
  ++ (if include_community_rank then [community_rank_name] else []).

Definition _report_context_text (r : report) : string * list string :=
  let context :=
    [id r; title r]
    ++ (if include_community_weight
        then [match attrs r !! community_weight_name with
              | Some w => str_num w
              | None => "0"
              end]
        else [])
    ++ [if use_community_summary then summary r else full_content r]
    ++ (if include_community_rank then [str_num (rank r)] else []) in
  (Py.join column_delimiter context +:+ Py.nl, context).

Definition banner : string := "-----" +:+ context_name +:+ "-----".

Definition _init_batch : batch :=
  let batch_text := banner +:+ Py.nl +:+ Py.join column_delimiter _get_header +:+ Py.nl in
  Batch batch_text (num_tokens batch_text) [].

Definition _cut_batch (b : batch) (out : outputs) : outputs :=
  let record_df :=
    _convert_report_context_to_df (batch_records b) _get_header
      (if include_community_weight then Some community_weight_name else None)
      (if include_community_rank then Some community_rank_name else None) in
  if Nat.eqb (length (rows record_df)) 0 then out
  else
    let current_context_text := to_csv record_df column_delimiter in
    let current_context_text :=
      match out.1 with
      | [] => banner +:+ Py.nl +:+ current_context_text
      | _ => current_context_text
      end in
    (out.1 ++ [current_context_text], out.2 ++ [record_df]).

(** The [for] loop: reports are added while they fit; the first one that
    does not fit cuts the batch and ends the loop. *)
Fixpoint pack (reports : list report) (b : batch) (out : outputs) : batch * outputs :=
  match reports with
  | [] => (b, out)
  | r :: rest =>
      let '(new_context_text, new_context) := _report_context_text r in
      let new_tokens := num_tokens new_context_text in
      if (max_context_tokens <? Z.of_nat (batch_tokens b + new_tokens))%Z
      then (b, _cut_batch b out)
      else pack rest (Batch (batch_text b +:+ new_context_text)
                            (batch_tokens b + new_tokens)
                            (batch_records b ++ [new_context])) out
  end.

(** The reports the loop runs over. *)
Definition selected_reports (community_reports : list report) : list report :=
  let selected := List.filter _is_included community_reports in
  if shuffle_data then shuffle (random_state self) selected else selected.

(** The batch variables when the loop ends. *)
Definition packed_batch (community_reports : list report) : batch :=
  (pack (selected_reports community_reports) _init_batch ([], [])).1.

(** The end of [_build_community_context]: nothing when no frame was
    collected, else the texts and the frames under the lower-cased name. *)
Definition collected (out : outputs) : list string * gmap string DataFrame :=
  match out.2 with
  | [] => ([], ∅)
  | all_context_records =>
      (out.1, {[ Py.lower context_name := pd_concat all_context_records ]})
  end.

Definition _build_community_context (community_reports : list report)
    : list string * gmap string DataFrame :=
  match List.filter _is_included community_reports with
  | [] => ([], ∅)
  | _ =>
      let '(b, out) := pack (selected_reports community_reports) _init_batch ([], []) in
      let current_batch_ids : gset string := list_to_set (map record_id (batch_records b)) in
      let existing_ids_sets : list (gset string) :=
        map (fun df => list_to_set (column "id" df)) out.2 in
      let out :=
        if bool_decide (current_batch_ids ∈ existing_ids_sets) then out
        else _cut_batch b out in
      collected out
  end.

(** [conversation_history] is [None], or what its own [build_context]
    returned (that class belongs to graphrag). *)
Definition build_context (query : string)
    (conversation_history : option (string * gmap string DataFrame))
    : Neo4j.traced ContextBuilderResult :=
  let '(conversation_history_context, final_context_data) :=
    match conversation_history with
    | Some (text, data) => (text, if Py.truthy text then data else ∅)
    | None => ("", ∅)
    end in
  let '(trace, retrieved) :=
    _get_community_reports_from_neo4j session_run self query include_community_rank
      min_community_rank include_community_weight community_weight_name
      normalize_community_weight in
  (trace,
   community_reports ← retrieved;
   let '(community_context, community_context_data) :=
     _build_community_context community_reports in
   let final_context :=
     map (fun context => context_prefix conversation_history_context +:+ context)
         community_context in
   Ok {| context_chunks := batches final_context;
         context_records := community_context_data ∪ final_context_data;
         llm_calls := 0; prompt_tokens := 0; output_tokens := 0 |}).

(** *** Facts about the batch packer *)

(** The frame that [_cut_batch] builds from a batch. *)
Definition batch_frame (b : batch) : DataFrame :=
  _convert_report_context_to_df (batch_records b) _get_header
    (if include_community_weight then Some community_weight_name else None)
    (if include_community_rank then Some community_rank_name else None).

Definition row_tokens (r : report) : nat := num_tokens (_report_context_text r).1.

Lemma cut_batch_empty (b : batch) (out : outputs) :
  batch_records b = [] -> _cut_batch b out = out.
Proof.
  intros H. unfold _cut_batch, _convert_report_context_to_df. rewrite H. reflexivity.
Qed.

Lemma cut_batch_cases (b : batch) (out : outputs) :
  _cut_batch b out = out
  \/ exists text, _cut_batch b out = (out.1 ++ [text], out.2 ++ [batch_frame b]).
Proof.
  unfold _cut_batch. fold (batch_frame b).
  destruct (Nat.eqb (length (rows (batch_frame b))) 0); [left; reflexivity|].
  right. eexists. reflexivity.
Qed.

(** The loop packs a prefix of its input; it accounts for the tokens of the
    header block and of each packed row, and never lets a row in that would
    take the account over the ceiling. *)
Lemma pack_account (reports : list report) : forall (b : batch) (out : outputs),
  exists packed,
    packed `prefix_of` reports
    /\ batch_records (pack reports b out).1
       = batch_records b ++ map (fun r => (_report_context_text r).2) packed
    /\ batch_tokens (pack reports b out).1
       = batch_tokens b + sum_list (map row_tokens packed)
    /\ (packed <> [] ->
        (Z.of_nat (batch_tokens (pack reports b out).1) <= max_context_tokens)%Z)
    /\ ((pack reports b out).2 = out
        \/ (pack reports b out).2 = _cut_batch (pack reports b out).1 out).
Proof.
  induction reports as [|r rest IH]; intros b out.
  - exists []. simpl. rewrite app_nil_r, Nat.add_0_r.
    split; [reflexivity|]. split; [reflexivity|]. split; [reflexivity|].
    split; [congruence | left; reflexivity].
  - cbn [pack].
    destruct (_report_context_text r) as [new_context_text new_context] eqn:Hr.
    destruct (max_context_tokens <? Z.of_nat (batch_tokens b + num_tokens new_context_text))%Z
      eqn:Hover.
    + exists []. simpl. rewrite app_nil_r, Nat.add_0_r.
      split; [apply prefix_nil|]. split; [reflexivity|]. split; [reflexivity|].
      split; [congruence | right; reflexivity].
    + apply Z.ltb_ge in Hover.
      destruct (IH (Batch (batch_text b +:+ new_context_text)
                          (batch_tokens b + num_tokens new_context_text)
                          (batch_records b ++ [new_context])) out)
        as (packed & Hpre & Hrec & Htok & Hle & Hout).
      exists (r :: packed). cbn [batch_records batch_tokens] in *.
      split; [now apply prefix_cons|].
      split; [rewrite Hrec; cbn [map]; rewrite Hr; cbn [snd]; now rewrite <- app_assoc|].
      split.
      { rewrite Htok. cbn [map sum_list sum_list_with]. unfold Datatypes.id.
        assert (E : row_tokens r = num_tokens new_context_text)
          by (unfold row_tokens; now rewrite Hr).
        lia. }
      split; [|exact Hout].
      intros _. destruct packed as [|r' packed'].
      * rewrite Htok. simpl. rewrite Nat.add_0_r. exact Hover.
      * apply Hle. discriminate.
Qed.

Lemma build_community_context_cases (community_reports : list report) :
  let b := packed_batch community_reports in
  _build_community_context community_reports = ([], ∅)
  \/ batch_records b <> []
     /\ exists texts frames,
          texts <> [] /\ frames <> [] /\ Forall (fun df => df = batch_frame b) frames
          /\ _build_community_context community_reports
             = (texts, {[ Py.lower context_name := pd_concat frames ]}).
Proof.
  intros b. unfold _build_community_context.
  destruct (List.filter _is_included community_reports) as [|r0 rs] eqn:Hsel;
    [left; reflexivity|].
  unfold b, packed_batch.
  destruct (pack_account (selected_reports community_reports) _init_batch ([], []))
    as (packed & _ & Hrec & _ & _ & Hout).
  destruct (pack (selected_reports community_reports) _init_batch ([], []))
    as [b' out] eqn:Hp.
  cbn [fst snd] in *.
  destruct (decide (batch_records b' = [])) as [Hnil|Hne].
  { left. rewrite cut_batch_empty in Hout by exact Hnil.
    assert (out = ([], [])) as -> by (destruct Hout; assumption).
    rewrite cut_batch_empty by exact Hnil. reflexivity. }
  assert (Hout' : out = ([], []) \/ exists text, out = ([text], [batch_frame b'])).
  { destruct Hout as [-> | ->]; [left; reflexivity|].
    destruct (cut_batch_cases b' ([], [])) as [E|[text E]]; rewrite E;
      [left; reflexivity | right; exists text; reflexivity]. }
  assert (Hfinal : forall o : outputs,
    (o = ([], []) \/ exists text, o = ([text], [batch_frame b'])) ->
    o.2 = []
    \/ exists texts frames, texts <> [] /\ frames <> []
         /\ Forall (fun df => df = batch_frame b') frames /\ o = (texts, frames)).
  { intros o [-> | [text ->]]; [left; reflexivity|].
    right. exists [text], [batch_frame b'].
    repeat split; try discriminate. repeat constructor. }
  assert (Hcut : forall o : outputs,
    (o = ([], []) \/ exists text, o = ([text], [batch_frame b'])) ->
    (_cut_batch b' o).2 = []
    \/ exists texts frames, texts <> [] /\ frames <> []
         /\ Forall (fun df => df = batch_frame b') frames
         /\ _cut_batch b' o = (texts, frames)).
  { intros o Ho. destruct (cut_batch_cases b' o) as [E|[text E]]; rewrite E.
    - apply Hfinal. exact Ho.
    - right. destruct Ho as [-> | [t ->]]; simpl.
      + exists [text], [batch_frame b']. repeat split; try discriminate.
        repeat constructor.
      + exists [t; text], [batch_frame b'; batch_frame b'].
        repeat split; try discriminate. repeat constructor. }
  assert (Hres : forall o : outputs,
    (o.2 = []
     \/ exists texts frames, texts <> [] /\ frames <> []
          /\ Forall (fun df => df = batch_frame b') frames /\ o = (texts, frames)) ->
    collected o = ([], ∅)
    \/ batch_records b' <> []
       /\ exists texts frames, texts <> [] /\ frames <> []
            /\ Forall (fun df => df = batch_frame b') frames
            /\ collected o = (texts, {[ Py.lower context_name := pd_concat frames ]})).
  { intros o [E|(texts & frames & Ht & Hf & Hall & ->)]; unfold collected.
    - left. rewrite E. reflexivity.
    - right. split; [exact Hne|]. exists texts, frames.
      repeat split; try assumption.
      cbn [fst snd]. destruct frames; [congruence | reflexivity]. }
  case_bool_decide as Hin; apply Hres; [apply Hfinal | apply Hcut]; exact Hout'.
Qed.

(** When the global packer returns a batch, the records hold one entry,
    under the lower-cased batch name, built from the frame of the packed rows. *)
Lemma community_context_records_entry (community_reports : list report) :
  (_build_community_context community_reports).1 <> [] ->
  exists frames,
    frames <> []
    /\ Forall (fun df => df = batch_frame (packed_batch community_reports)) frames
    /\ (_build_community_context community_reports).2
       = {[ Py.lower context_name := pd_concat frames ]}
    /\ (_build_community_context community_reports).2 !! Py.lower context_name
       = Some (pd_concat frames).
Proof.
  intros Hne.
  destruct (build_community_context_cases community_reports)
    as [E | (_ & texts & frames & _ & Hf & Hall & E)].
  - rewrite E in Hne. simpl in Hne. congruence.
  - exists frames. rewrite E. cbn [snd].
    split; [exact Hf|]. split; [exact Hall|]. split; [reflexivity|].
    apply lookup_singleton_eq.
Qed.

End Build.

(** *** Facts about the weights *)

Lemma py_max_ge_init (xs : list Q) : forall x, (x <= py_max x xs)%Q.
Proof.
  unfold py_max. induction xs as [|y xs IH]; intros x; simpl.
  - apply Qle_refl.
  - destruct (Qlt_le_dec x y) as [Hlt|Hle].
    + eapply Qle_trans; [apply Qlt_le_weak; exact Hlt | apply IH].
    + apply IH.
Qed.

Lemma py_max_ge (xs : list Q) : forall x y, In y xs -> (y <= py_max x xs)%Q.
Proof.
  unfold py_max. induction xs as [|z xs IH]; intros x y Hin; simpl in *.
  - contradiction.
  - destruct Hin as [->|Hin].
    + destruct (Qlt_le_dec x y) as [Hlt|Hle].
      * apply py_max_ge_init.
      * eapply Qle_trans; [exact Hle | apply py_max_ge_init].
    + apply IH. exact Hin.
Qed.

Lemma py_max_in (xs : list Q) : forall x, In (py_max x xs) (x :: xs).
Proof.
  unfold py_max. induction xs as [|y xs IH]; intros x; simpl.
  - left. reflexivity.
  - destruct (Qlt_le_dec x y).
    + right. apply IH.
    + destruct (IH x) as [H|H]; [left; exact H | right; right; exact H].
Qed.

Lemma list_max_in (l : list Q) (m : Q) : list_max l = Some m -> In m l.
Proof.
  destruct l as [|x xs]; simpl; [discriminate|].
  intros [= <-]. apply py_max_in.
Qed.

Lemma list_max_ge (l : list Q) (m : Q) :
  list_max l = Some m -> forall y, In y l -> (y <= m)%Q.
Proof.
  destruct l as [|x xs]; simpl; [discriminate|].
  intros [= <-] y [->|Hin]; [apply py_max_ge_init | apply py_max_ge; exact Hin].
Qed.

Lemma get_set_attr (name : string) (w : Q) (r : report) :
  get_attr name (set_attr name w r) = w.
Proof. unfold get_attr, set_attr. simpl. now rewrite lookup_insert_eq. Qed.

Lemma weights_assigned (name : string) (reports : list report) :
  weights name (map (fun r => set_attr name (occurrence_weight r) r) reports)
  = map occurrence_weight reports.
Proof.
  unfold weights. rewrite map_map. apply map_ext. intros r. apply get_set_attr.
Qed.

Lemma weights_rescaled (name : string) (m : Q) (reports : list report) :
  weights name (map (fun r => set_attr name (get_attr name r / m)%Q r) reports)
  = map (fun w => (w / m)%Q) (weights name reports).
Proof.
  unfold weights. rewrite !map_map. apply map_ext. intros r. apply get_set_attr.
Qed.

Lemma occurrence_weight_nonneg (r : report) : (0 <= occurrence_weight r)%Q.
Proof.
  unfold occurrence_weight.
  assert (H : forall n : nat, (0 <= inject_Z (Z.of_nat n))%Q).
  { intros n. change 0%Q with (inject_Z 0). rewrite <- Zle_Qle. lia. }
  apply Qle_trans with (0 + 0)%Q; [apply Qle_refl|].
  apply Qplus_le_compat; [apply H|].
  apply Qmult_le_0_compat; [apply H | discriminate].
Qed.

(** The weights without normalisation, and what normalisation does to them. *)
Lemma compute_weights_raw (reports : list report) (name : string) :
  weights name (_compute_community_weights_neo4j reports name false)
  = map occurrence_weight reports.
Proof. unfold _compute_community_weights_neo4j. apply weights_assigned. Qed.

Lemma compute_weights_normalized (reports : list report) (name : string) (m : Q) :
  list_max (map occurrence_weight reports) = Some m ->
  weights name (_compute_community_weights_neo4j reports name true)
  = if Qlt_le_dec 0 m
    then map (fun w => (w / m)%Q) (map occurrence_weight reports)
    else map occurrence_weight reports.
Proof.
  intros Hm. unfold _compute_community_weights_neo4j.
  pose proof (weights_assigned name reports) as Hw. unfold weights in Hw.
  rewrite Hw.
  destruct (map occurrence_weight reports) as [|w ws] eqn:E; [discriminate|].
  simpl in Hm. injection Hm as <-.
  destruct (Qlt_le_dec 0 (py_max w ws)).
  - rewrite weights_rescaled. unfold weights. rewrite Hw. reflexivity.
  - exact Hw.
Qed.


(** *** Facts about the lexical filter *)

Lemma is_relevant_spec (query : string) (r : report) :
  is_relevant (query_terms query) r = true
  <-> exists term, In term (Py.split (Py.lower query))
        /\ 2 < String.length term
        /\ exists pre post, report_text r = pre +:+ term +:+ post.
Proof.
  unfold is_relevant, query_terms. rewrite existsb_exists. split.
  - intros (term & Hin & Hc). apply filter_In in Hin as [Hin Hlen].
    exists term. split.
    + apply list_elem_of_In in Hin. apply elem_of_elements in Hin.
      apply elem_of_list_to_set in Hin. now apply list_elem_of_In.
    + split; [now apply Nat.ltb_lt in Hlen | now apply Py.contains_spec].
  - intros (term & Hin & Hlen & Hsub). exists term. split.
    + apply filter_In. split; [|now apply Nat.ltb_lt].
      apply list_elem_of_In, elem_of_elements, elem_of_list_to_set.
      now apply list_elem_of_In.
    + now apply Py.contains_spec.
Qed.

Lemma relevance_filter_cases (query : string) (reports : list report) :
  let relevant := List.filter (is_relevant (query_terms query)) reports in
  relevance_filter query reports = match relevant with [] => reports | _ => relevant end.
Proof.
  simpl. unfold relevance_filter. case_bool_decide as Hterms;
    [|destruct (List.filter _ reports); reflexivity].
  rewrite Hterms.
  assert (H : List.filter (is_relevant ∅) reports = []).
  { induction reports as [|r rs IH]; simpl; [reflexivity|].
    unfold is_relevant at 1. rewrite elements_empty. simpl. exact IH. }
  now rewrite H.
Qed.

(** C5 (as the code has it).  The searchable text of a report is the
    lower-cased concatenation of title, summary and entity names.  A report
    is relevant when some token of the lower-cased query that is longer than
    two characters is a substring of that text.  The filter returns the
    relevant reports when there are any and all candidates otherwise, so a
    non-empty candidate set never yields an empty result. *)
Theorem relevance_filter_spec (query : string) (reports : list report) :
  let relevant := List.filter (is_relevant (query_terms query)) reports in
  (forall r, report_text r
             = Py.lower (title r +:+ " " +:+ summary r +:+ " "
                         +:+ Py.join " " (entity_names r)))
  /\ (forall r, In r relevant
        <-> In r reports
            /\ exists term, In term (Py.split (Py.lower query))
                 /\ 2 < String.length term
                 /\ exists pre post, report_text r = pre +:+ term +:+ post)
  /\ (relevant <> [] -> relevance_filter query reports = relevant)
  /\ (relevant = [] -> relevance_filter query reports = reports)
  /\ (reports <> [] -> relevance_filter query reports <> []).
Proof.
  intros relevant. split; [reflexivity|]. split.
  { intros r. unfold relevant. rewrite filter_In, is_relevant_spec. reflexivity. }
  pose proof (relevance_filter_cases query reports) as Hc. simpl in Hc.
  fold relevant in Hc. rewrite Hc.
  split; [|split].
  - destruct relevant; [congruence | reflexivity].
  - intros ->. reflexivity.
  - intros Hne. destruct relevant; [exact Hne | discriminate].
Qed.

(** The reading of the specification's words: the searchable text is the
    concatenation itself, not lower-cased. *)
Definition spec_report_text (r : report) : string :=
  title r +:+ " " +:+ summary r +:+ " " +:+ Py.join " " (entity_names r).

Definition spec_is_relevant (terms : gset string) (r : report) : bool :=
  existsb (fun term => Py.contains term (spec_report_text r))
          (List.filter (fun term => 2 <? String.length term) (elements terms)).

Definition spec_relevance_filter (query : string) (reports : list report)
    : list report :=
  match List.filter (spec_is_relevant (query_terms query)) reports with
  | [] => reports
  | relevant_reports => relevant_reports
  end.

Definition apple_report : report :=
  Report "1" "Apple Orchards" "Growers of the valley" "" ["Orchard"] [] 0%Q ∅.

Definition banana_report : report :=
  Report "2" "banana trade" "Shipping routes" "" ["Port"] [] 0%Q ∅.

(** C5, refuted as stated.  For the query ["apple"] the raw text of no
    report contains the term, so the specification's words give the full
    candidate set; the code matches the title ["Apple Orchards"] and keeps
    that report only. *)
Lemma relevance_filter_ignores_case :
  spec_relevance_filter "apple" [apple_report; banana_report]
    = [apple_report; banana_report]
  /\ relevance_filter "apple" [apple_report; banana_report] = [apple_report]
  /\ relevance_filter "apple" [apple_report; banana_report]
     <> spec_relevance_filter "apple" [apple_report; banana_report].
Proof.
  assert (H1 : spec_relevance_filter "apple" [apple_report; banana_report]
               = [apple_report; banana_report]) by (vm_compute; reflexivity).
  assert (H2 : relevance_filter "apple" [apple_report; banana_report]
               = [apple_report]) by (vm_compute; reflexivity).
  split; [exact H1|]. split; [exact H2|].
  rewrite H1, H2. discriminate.
Qed.

(** The fallback of the specification: no textual overlap, full set. *)
Example relevance_filter_fallback :
  relevance_filter "xyz-no-match-term" [apple_report; banana_report]
  = [apple_report; banana_report].
Proof. vm_compute. reflexivity. Qed.

End GlobalContext.

(** ** Embedding similarity ([utils/functions.py]) *)

Module Functions.

Section Cosine.
(** Floating-point numbers and the numpy operations on them are kept
    abstract: [F] with its zero, product and quotient, [np.dot] and
    [np.linalg.norm]. *)
Context {F : Type}.
Variable f0 : F.
Variable fmul fdiv : F -> F -> F.
Variable np_dot : list F -> list F -> res F.
Variable np_norm : list F -> F.

(** [a] and [b] are lists, or [None] for a chunk without embedding. *)
Definition cosine_similarity (a b : option (list F)) : res F :=
  match a, b with
  | Some (x :: xs), Some (y :: ys) =>
      d ← np_dot (x :: xs) (y :: ys);
      Ok (fdiv d (fmul (np_norm (x :: xs)) (np_norm (y :: ys))))
  | _, _ => Ok f0
  end.

(** The guard [if not a or not b]: a missing or empty vector gives [0.0]. *)
Lemma cosine_similarity_empty (a b : option (list F)) :
  a = None \/ a = Some [] \/ b = None \/ b = Some [] ->
  cosine_similarity a b = Ok f0.
Proof.
  intros [-> | [-> | [-> | ->]]]; try reflexivity;
    destruct a as [[|x xs]|]; reflexivity.
Qed.

(** Otherwise the result is [dot(a, b) / (norm(a) * norm(b))]. *)
Lemma cosine_similarity_formula (a b : list F) (d : F) :
  a <> [] -> b <> [] -> np_dot a b = Ok d ->
  cosine_similarity (Some a) (Some b) = Ok (fdiv d (fmul (np_norm a) (np_norm b))).
Proof.
  intros Ha Hb Hd. destruct a as [|x xs]; [congruence|].
  destruct b as [|y ys]; [congruence|]. simpl. now rewrite Hd.
Qed.

End Cosine.

End Functions.

(** ** The local chunk context builder ([query/neo4j_local_context.py]) *)

Module LocalContext.

Section Local.
Context {F : Type}.

(** A row of the chunk query. *)
Record chunk : Type := Chunk {
  id : string;
  text : string;
  entity_names : list string;
  entity_descriptions : list string;
  entity_types : list string;
  document_titles : list string;
  embedding : option (list F);
  relevance_score : F
}.

Definition set_relevance_score (c : chunk) (s : F) : chunk :=
  {| id := id c; text := text c; entity_names := entity_names c;
     entity_descriptions := entity_descriptions c; entity_types := entity_types c;
     document_titles := document_titles c; embedding := embedding c;
     relevance_score := s |}.

(** [token_encoder] is the counting function of the encoder, when there is
    one; [has_openai_client] says whether an API key was configured. *)
Record Neo4jLocalContext : Type := {
  user_email : option string;
  token_encoder : option (string -> nat);
  has_openai_client : bool;
  openai_model : string;
  random_state : Z
}.

Variable f0 : F.
Variable fmul fdiv : F -> F -> F.
Variable flt fle : F -> F -> bool.
Variable np_dot : list F -> list F -> res F.
Variable np_norm : list F -> F.
Variable str_num : F -> string.
Variable embed : string -> string -> res (list F).
Variable session_run : Neo4j.call -> res (list chunk).

Variable self : Neo4jLocalContext.

(** *** Retrieval and scoring *)

(** [chunks.sort(key=lambda x: x["relevance_score"], reverse=True)]: stable,
    greatest score first. *)
Fixpoint insert_desc (c : chunk) (sorted : list chunk) : list chunk :=
  match sorted with
  | [] => [c]
  | d :: rest =>
      if flt (relevance_score d) (relevance_score c) then c :: sorted
      else if flt (relevance_score c) (relevance_score d) then d :: insert_desc c rest
      else c :: sorted
  end.

Definition sort_desc (chunks : list chunk) : list chunk :=
  foldr insert_desc [] chunks.

(** The body of the [try] block. *)
Definition score_chunks (query : string) (relevance_score_threshold : F)
    (chunks : list chunk) : res (list chunk) :=
  query_embedding ← embed query (openai_model self);
  similarities ← mapM (fun c => Functions.cosine_similarity f0 fmul fdiv np_dot np_norm
                                  (Some query_embedding) (embedding c)) chunks;
  let chunks := zip_with set_relevance_score chunks similarities in
  let chunks := sort_desc chunks in
  Ok (List.filter (fun c => fle relevance_score_threshold (relevance_score c)) chunks).

Definition get_chunks_from_neo4j (query : string) (relevance_score_threshold : F)
    (document_type : option string) : Neo4j.traced (list chunk) :=
  match has_scope_key (user_email self) with
  | None => ([], Raise (ValueError "User email is required"))
  | Some e =>
      if negb (has_openai_client self)
      then ([], Raise (ValueError "OpenAI API key is required"))
      else
        let doc_type_filter :=
          match document_type with Some t => Py.truthy t | None => false end in
        let call :=
          Neo4j.Call (Neo4j.chunks_scoped doc_type_filter)
            {[ "user_email" := Some e; "document_type" := document_type ]} in
        ([call],
         chunks ← session_run call;
         match chunks with
         | [] => Ok chunks
         | _ =>
             match score_chunks query relevance_score_threshold chunks with
             | Ok scored => Ok scored
             | Raise _ => Ok chunks
             end
         end)
  end.

(** *** The chunk packer *)

(** Of the keyword arguments of [_build_chunks_context] the body reads
    [max_context_tokens] only; [column_delimiter], [shuffle_data] and
    [context_name] are accepted and ignored.  [default_threshold] is the
    [0.3] that [build_context] passes to the retrieval. *)
Variable max_context_tokens : Z.
Variable default_threshold : F.

Definition _is_included (c : chunk) : bool := Py.has_non_space (text c).

Definition _get_header : list string :=
  ["id"; "text"; "entity_names"; "entity_descriptions"; "entity_types";
   "document_titles"; "relevance_score"].

Definition _chunk_context_text (c : chunk) : string * list string :=
  let entity_names_str := Py.join ", " (entity_names c) in
  let entity_descriptions_str := Py.join "; " (entity_descriptions c) in
  let entity_types_str := Py.join ", " (entity_types c) in
  let document_titles_str := Py.join ", " (document_titles c) in
  let context_text :=
    "Chunk ID: " +:+ id c +:+ Py.nl
    +:+ "Text: " +:+ text c +:+ Py.nl
    +:+ "Entities: " +:+ entity_names_str +:+ Py.nl
    +:+ "Entity Descriptions: " +:+ entity_descriptions_str +:+ Py.nl
    +:+ "Entity Types: " +:+ entity_types_str +:+ Py.nl
    +:+ "Documents: " +:+ document_titles_str +:+ Py.nl
    +:+ "Relevance Score: " +:+ str_num (relevance_score c) +:+ Py.nl in
  (context_text,
   [id c; text c; entity_names_str; entity_descriptions_str; entity_types_str;
    document_titles_str; str_num (relevance_score c)]).

(** [num_tokens(text, self.token_encoder) if self.token_encoder
     else len(text.split())]. *)
Definition chunk_token_count (context_text : string) : nat :=
  match token_encoder self with
  | Some count => count context_text
  | None => length (Py.split context_text)
  end.

(** [current_context], [current_records] and [current_tokens]. *)
Record packing : Type := Packing {
  current_context : list string;
  current_records : list (list string);
  current_tokens : nat
}.

Fixpoint pack (chunks : list chunk) (p : packing) : packing :=
  match chunks with
  | [] => p
  | c :: rest =>
      let '(context_text, record) := _chunk_context_text c in
      let chunk_tokens := chunk_token_count context_text in
      if (max_context_tokens <? Z.of_nat (current_tokens p + chunk_tokens))%Z
         && negb (bool_decide (current_context p = []))
      then p
      else pack rest (Packing (current_context p ++ [context_text])
                              (current_records p ++ [record])
                              (current_tokens p + chunk_tokens))
  end.

Definition separator : string := Py.nl +:+ Py.nl +:+ "---" +:+ Py.nl +:+ Py.nl.

Definition _build_chunks_context (chunks_data : list chunk)
    : res (string * gmap string DataFrame) :=
  match chunks_data with
  | [] => Ok ("", ∅)
  | _ =>
      let context_data : gmap string DataFrame := ∅ in
      match List.filter _is_included chunks_data with
      | [] => Raise (IndexError "list index out of range")
      | included_chunks =>
          let p := pack included_chunks (Packing [] [] 0) in
          let final_context :=
            match current_context p with
            | [] => ""
            | texts => Py.join separator texts
            end in
          Ok (final_context, context_data)
      end
  end.

Definition build_context (query : string)
    (conversation_history : option (string * gmap string DataFrame))
    : Neo4j.traced ContextBuilderResult :=
  let '(conversation_history_context, final_context_data) :=
    match conversation_history with
    | Some (text, data) => (text, if Py.truthy text then data else ∅)
    | None => ("", ∅)
    end in
  let '(trace, retrieved) := get_chunks_from_neo4j query default_threshold None in
  (trace,
   chunks_data ← retrieved;
   '(chunks_context, chunks_context_data) ← _build_chunks_context chunks_data;
   let final_context := context_prefix conversation_history_context +:+ chunks_context in
   Ok {| context_chunks := single_text final_context;
         context_records := chunks_context_data ∪ final_context_data;
         llm_calls := 0; prompt_tokens := 0; output_tokens := 0 |}).

(** *** Facts about the chunk packer *)

Definition text_tokens (c : chunk) : nat := chunk_token_count (_chunk_context_text c).1.

(** What the loop guarantees about its account of tokens. *)
Definition within_ceiling (p : packing) : Prop :=
  length (current_context p) <= 1
  \/ (Z.of_nat (current_tokens p) <= max_context_tokens)%Z.

Lemma chunk_pack_account (chunks : list chunk) : forall p : packing,
  exists packed,
    packed `prefix_of` chunks
    /\ current_context (pack chunks p)
       = current_context p ++ map (fun c => (_chunk_context_text c).1) packed
    /\ current_records (pack chunks p)
       = current_records p ++ map (fun c => (_chunk_context_text c).2) packed
    /\ current_tokens (pack chunks p)
       = current_tokens p + sum_list (map text_tokens packed)
    /\ (chunks <> [] -> current_context p = [] -> packed <> [])
    /\ (within_ceiling p -> within_ceiling (pack chunks p)).
Proof.
  induction chunks as [|c rest IH]; intros p.
  - exists []. simpl. rewrite !app_nil_r, Nat.add_0_r.
    split; [reflexivity|]. split; [reflexivity|]. split; [reflexivity|].
    split; [reflexivity|]. split; [congruence | auto].
  - cbn [pack].
    destruct (_chunk_context_text c) as [context_text record] eqn:Hc.
    destruct ((max_context_tokens
               <? Z.of_nat (current_tokens p + chunk_token_count context_text))%Z
              && negb (bool_decide (current_context p = []))) eqn:Hstop.
    + exists []. simpl. rewrite !app_nil_r, Nat.add_0_r.
      apply andb_true_iff in Hstop as [_ Hctx].
      apply negb_true_iff, bool_decide_eq_false in Hctx.
      split; [apply prefix_nil|]. split; [reflexivity|]. split; [reflexivity|].
      split; [reflexivity|]. split; [intros _ E; contradiction | auto].
    + destruct (IH (Packing (current_context p ++ [context_text])
                            (current_records p ++ [record])
                            (current_tokens p + chunk_token_count context_text)))
        as (packed & Hpre & Hctx & Hrec & Htok & _ & Hinv).
      exists (c :: packed). cbn [current_context current_records current_tokens] in *.
      assert (E : text_tokens c = chunk_token_count context_text)
        by (unfold text_tokens; now rewrite Hc).
      split; [now apply prefix_cons|].
      split; [rewrite Hctx; cbn [map]; rewrite Hc; cbn [fst]; now rewrite <- app_assoc|].
      split; [rewrite Hrec; cbn [map]; rewrite Hc; cbn [snd]; now rewrite <- app_assoc|].
      split; [rewrite Htok; cbn [map sum_list sum_list_with]; unfold Datatypes.id; lia|].
      split; [discriminate|].
      intros _. apply Hinv. unfold within_ceiling.
      cbn [current_context current_tokens].
      apply andb_false_iff in Hstop as [Hfit|Hfirst].
      * right. now apply Z.ltb_ge in Hfit.
      * left. apply negb_false_iff, bool_decide_eq_true in Hfirst.
        rewrite Hfirst. simpl. lia.
Qed.

Lemma join_cons_nonempty (sep t : string) (ts : list string) :
  t <> "" -> Py.join sep (t :: ts) <> "".
Proof.
  intros Ht. unfold Py.join. destruct t as [|c t]; [congruence|].
  destruct ts; simpl; discriminate.
Qed.

Lemma chunk_context_text_nonempty (c : chunk) : (_chunk_context_text c).1 <> "".
Proof. unfold _chunk_context_text. cbn [fst]. discriminate. Qed.

(** The three ways [_build_chunks_context] ends. *)
Lemma build_chunks_context_cases (chunks_data : list chunk) :
  (chunks_data = [] /\ _build_chunks_context chunks_data = Ok ("", ∅))
  \/ (chunks_data <> [] /\ List.filter _is_included chunks_data = []
      /\ _build_chunks_context chunks_data
         = Raise (IndexError "list index out of range"))
  \/ (List.filter _is_included chunks_data <> []
      /\ exists final_context, final_context <> ""
           /\ final_context
              = Py.join separator
                  (current_context (pack (List.filter _is_included chunks_data)
                                         (Packing [] [] 0)))
           /\ _build_chunks_context chunks_data = Ok (final_context, ∅)).
Proof.
  unfold _build_chunks_context.
  destruct chunks_data as [|c0 cs]; [left; split; reflexivity|].
  right. destruct (List.filter _is_included (c0 :: cs)) as [|i0 is_] eqn:Hf.
  - left. split; [discriminate|]. split; reflexivity.
  - right. split; [discriminate|].
    destruct (chunk_pack_account (i0 :: is_) (Packing [] [] 0))
      as (packed & _ & Hctx & _ & _ & Hne & _).
    cbn [current_context] in Hctx. simpl app in Hctx.
    specialize (Hne ltac:(discriminate) eq_refl).
    destruct packed as [|k ks]; [congruence|].
    rewrite Hctx. cbn [map].
    eexists. split; [|split; reflexivity].
    apply join_cons_nonempty, chunk_context_text_nonempty.
Qed.

(** C10.  When the input is not empty and the text of every chunk is empty
    or blank, [_build_chunks_context] raises [IndexError] (from
    [included_chunks[0]]); and it returns the empty result [("", {})] for
    the empty input only. *)
Theorem blank_chunks_raise_index_error (chunks_data : list chunk) :
  chunks_data <> [] ->
  Forall (fun c => Py.has_non_space (text c) = false) chunks_data ->
  _build_chunks_context chunks_data = Raise (IndexError "list index out of range")
  /\ (forall other : list chunk,
        _build_chunks_context other = Ok ("", ∅) <-> other = []).
Proof.
  intros Hne Hblank. split.
  - assert (Hf : List.filter _is_included chunks_data = []).
    { clear Hne. induction Hblank as [|c cs Hc _ IH]; [reflexivity|].
      simpl. unfold _is_included at 1. rewrite Hc. exact IH. }
    destruct (build_chunks_context_cases chunks_data)
      as [[E _] | [(_ & _ & E) | [E _]]]; congruence.
  - intros other. split.
    + intros H. destruct (build_chunks_context_cases other)
        as [[E _] | [(_ & _ & E) | (_ & fc & Hfc & _ & E)]]; [exact E | congruence|].
      rewrite E in H. injection H as H. congruence.
    + intros ->. reflexivity.
Qed.


End Local.

Arguments chunk : clear implicits.
Arguments packing : clear implicits.

End LocalContext.

(** ** The raw graph-query passthrough ([service/unstructured.py]) *)

Module Service.

Definition system_email : string := "system@example.com".

Section Unstructured.
Variable V : Type.
Variable session_run : Neo4j.call -> res (list V).

(** [UnstructuredService.run_cypher_query]: the text is sent as it is, with
    a fixed [user_email] parameter; every record of the result is returned. *)
Definition run_cypher_query (query : string) : Neo4j.traced (list V) :=
  let call := Neo4j.Call (Neo4j.raw query) {[ "user_email" := Some system_email ]} in
  ([call], records ← session_run call; Ok records).

(** The agent of one caller over this service; the two searches are given. *)
Definition agent_of (search : string -> string -> option string -> res (list V))
    (structured : Agent.StructuredService (list V))
    (tools : gmap string string) (query : string) (user_email : option string)
    : Agent.SearchAgent (list V) := {|
  Agent.unstructured_search_service := {|
    Agent.global_search := search;
    Agent.local_search := search;
    Agent.run_cypher_query := fun q => (run_cypher_query q).2 |};
  Agent.structured_search_service := structured;
  Agent.user_email := user_email;
  Agent.query := query;
  Agent.tool_classifications := tools
|}.

End Unstructured.

(** *** A two-tenant store *)

(** A stored chunk node with its [userEmail] property. *)
Record node : Type := Node { userEmail : string; node_id : string }.

Definition two_tenant_store : list node :=
  [Node "alice@example.com" "chunk-a"; Node "bob@example.com" "chunk-b"].

Definition all_chunks_query : string := "MATCH (c:__Chunk__) RETURN c".

(** The driver over [two_tenant_store], for the statements used below: the
    scoped chunk statement selects on [$user_email], the raw text
    [all_chunks_query] selects every chunk. *)
Definition two_tenant_run (c : Neo4j.call) : res (list node) :=
  match Neo4j.statement c with
  | Neo4j.chunks_scoped _ =>
      Ok (List.filter
            (fun n => bool_decide (Neo4j.parameters c !! "user_email" = Some (Some (userEmail n))))
            two_tenant_store)
  | Neo4j.raw text =>
      if decide (text = all_chunks_query) then Ok two_tenant_store else Ok []
  | _ => Ok []
  end.

Definition no_structured : Agent.StructuredService (list node) := {|
  Agent.list_tables := Ok [];
  Agent.get_table_columns := fun _ => Ok [];
  Agent.custom_query := fun _ => Ok []
|}.

(** A search that is scoped as the builders scope theirs. *)
Definition scoped_search (_ _ : string) (user_email : option string)
    : res (list node) :=
  two_tenant_run (Neo4j.Call (Neo4j.chunks_scoped false) {[ "user_email" := user_email ]}).

Definition tenant_agent (user_email : string) : Agent.SearchAgent (list node) :=
  agent_of node two_tenant_run scoped_search no_structured
    {[ "run_cypher_query" := "unstructured"; "local_search" := "unstructured" ]}
    "list the chunks" (Some user_email).

(** The passthrough sends the same call for every caller. *)
Lemma run_cypher_query_call (V : Type) (session_run : Neo4j.call -> res (list V))
    (query : string) :
  (run_cypher_query V session_run query).1
  = [Neo4j.Call (Neo4j.raw query) {[ "user_email" := Some "system@example.com" ]}]
  /\ Forall (fun c => Neo4j.scoped c = false) (run_cypher_query V session_run query).1.
Proof. split; [reflexivity | repeat constructor]. Qed.

(** C3 (what the code does).  The result of the [run_cypher_query] tool does
    not depend on the caller: two agents over the same store that differ
    only in their [user_email] receive the same records. *)
Theorem cypher_passthrough_ignores_caller (V : Type)
    (session_run : Neo4j.call -> res (list V))
    (search : string -> string -> option string -> res (list V))
    (structured : Agent.StructuredService (list V)) (tools : gmap string string)
    (query : string) (email1 email2 : option string)
    (tool_call_arguments : gmap string string) :
  Agent.call_tool (agent_of V session_run search structured tools query email1)
                  "run_cypher_query" tool_call_arguments
  = Agent.call_tool (agent_of V session_run search structured tools query email2)
                    "run_cypher_query" tool_call_arguments.
Proof.
  unfold Agent.call_tool, Agent.get_tool_type. simpl.
  destruct (tools !! "run_cypher_query") as [ty|]; [|reflexivity].
  destruct (decide (ty = "structured")); [reflexivity|].
  destruct (decide (ty = "unstructured")); reflexivity.
Qed.

(** On the two-tenant store, Alice's agent receives Bob's chunk through the
    passthrough, while the scoped search returns her chunk only. *)
Example cypher_passthrough_leaks :
  Agent.call_tool (tenant_agent "alice@example.com") "run_cypher_query"
                  {[ "query" := all_chunks_query ]}
  = Ok (Agent.backend_value
          [Node "alice@example.com" "chunk-a"; Node "bob@example.com" "chunk-b"])
  /\ Agent.call_tool (tenant_agent "alice@example.com") "local_search"
                     {[ "query" := "chunks"; "response_type" := "text" ]}
     = Ok (Agent.backend_value [Node "alice@example.com" "chunk-a"]).
Proof. split; vm_compute; reflexivity. Qed.

End Service.

(** ** The two builders side by side *)

Module Builders.

Section Contracts.
Context {F : Type}.

(** External services of the local builder. *)
Variable f0 : F.
Variable fmul fdiv : F -> F -> F.
Variable flt fle : F -> F -> bool.
Variable np_dot : list F -> list F -> res F.
Variable np_norm : list F -> F.
Variable str_score : F -> string.
Variable embed : string -> string -> res (list F).
Variable chunk_run : Neo4j.call -> res (list (LocalContext.chunk F)).

(** External services of the global builder. *)
Variable num_tokens : string -> nat.
Variable str_num : Q -> string.
Variable shuffle : Z -> list GlobalContext.report -> list GlobalContext.report.
Variable sort_values : list string -> DataFrame -> DataFrame.
Variable to_csv : DataFrame -> string -> string.
Variable pd_concat : list DataFrame -> DataFrame.
Variable report_run : Neo4j.call -> res (list GlobalContext.report).

(** The builders and the keyword arguments of their [build_context]. *)
Variable local_self : LocalContext.Neo4jLocalContext.
Variable global_self : GlobalContext.Neo4jGlobalCommunityContext.
Variable use_community_summary : bool.
Variable column_delimiter : string.
Variable shuffle_data : bool.
Variable include_community_rank : bool.
Variable min_community_rank : Q.
Variable community_rank_name : string.
Variable include_community_weight : bool.
Variable community_weight_name : string.
Variable normalize_community_weight : bool.
Variable max_context_tokens : Z.
Variable context_name : string.
Variable relevance_score_threshold : F.

Let get_chunks :=
  LocalContext.get_chunks_from_neo4j f0 fmul fdiv flt fle np_dot np_norm embed
    chunk_run local_self.
Let local_build_context :=
  LocalContext.build_context f0 fmul fdiv flt fle np_dot np_norm str_score embed
    chunk_run local_self max_context_tokens relevance_score_threshold.
Let build_chunks_context :=
  LocalContext._build_chunks_context str_score local_self max_context_tokens.
Let chunk_pack :=
  LocalContext.pack str_score local_self max_context_tokens.
Let chunk_tokens := LocalContext.text_tokens str_score local_self.
Let chunk_text (c : LocalContext.chunk F) : string :=
  (LocalContext._chunk_context_text str_score c).1.

Let get_community_reports (query : string) :=
  GlobalContext._get_community_reports_from_neo4j report_run global_self query
    include_community_rank min_community_rank include_community_weight
    community_weight_name normalize_community_weight.
Let global_build_context :=
  GlobalContext.build_context num_tokens str_num shuffle sort_values to_csv pd_concat
    report_run global_self use_community_summary column_delimiter shuffle_data
    include_community_rank min_community_rank community_rank_name
    include_community_weight community_weight_name normalize_community_weight
    max_context_tokens context_name.
Let build_community_context :=
  GlobalContext._build_community_context num_tokens str_num shuffle sort_values to_csv
    pd_concat global_self use_community_summary column_delimiter shuffle_data
    include_community_rank community_rank_name include_community_weight
    community_weight_name max_context_tokens context_name.
Let packed_batch :=
  GlobalContext.packed_batch num_tokens str_num shuffle sort_values to_csv global_self
    use_community_summary column_delimiter shuffle_data include_community_rank
    community_rank_name include_community_weight community_weight_name
    max_context_tokens context_name.
Let selected_reports :=
  GlobalContext.selected_reports shuffle global_self shuffle_data.
Let header_block : string :=
  GlobalContext.batch_text
    (GlobalContext._init_batch num_tokens use_community_summary column_delimiter
       include_community_rank community_rank_name include_community_weight
       community_weight_name context_name).
Let row_text (r : GlobalContext.report) : string :=
  (GlobalContext._report_context_text str_num use_community_summary column_delimiter
     include_community_rank include_community_weight community_weight_name r).1.

Definition unscoped_community_call : Neo4j.call :=
  Neo4j.Call Neo4j.community_reports_all ∅.


(** C2 (as the code has it).  Global packer: a batch is returned only when
    rows were packed, and then the token account of the batch (the tokens of
    the header block plus the tokens of each packed row, each counted
    separately) does not exceed [max_context_tokens].  Local packer: the sum
    of the token counts of the packed chunk texts does not exceed
    [max_context_tokens] unless a single chunk is packed; the first included
    chunk is always packed, whatever its size. *)
Theorem packed_tokens_within_ceiling
    (community_reports : list GlobalContext.report)
    (chunks_data : list (LocalContext.chunk F)) :
  let b := packed_batch community_reports in
  let included := List.filter LocalContext._is_included chunks_data in
  let p := chunk_pack included (LocalContext.Packing [] [] 0) in
  ((build_community_context community_reports).1 <> [] ->
     GlobalContext.batch_records b <> [])
  /\ (exists packed,
        packed `prefix_of` selected_reports community_reports
        /\ length (GlobalContext.batch_records b) = length packed
        /\ GlobalContext.batch_tokens b
           = num_tokens header_block
             + sum_list (map (fun r => num_tokens (row_text r)) packed)
        /\ (GlobalContext.batch_records b <> [] ->
            (Z.of_nat (GlobalContext.batch_tokens b) <= max_context_tokens)%Z))
  /\ (exists packed,
        packed `prefix_of` included
        /\ LocalContext.current_context p = map chunk_text packed
        /\ LocalContext.current_tokens p
           = sum_list (map (fun c => LocalContext.chunk_token_count local_self
                                       (chunk_text c)) packed)
        /\ (included <> [] -> packed <> [])
        /\ (length packed <= 1
            \/ (Z.of_nat (LocalContext.current_tokens p) <= max_context_tokens)%Z))
  /\ (forall text data, build_chunks_context chunks_data = Ok (text, data) ->
        chunks_data <> [] ->
        text = Py.join LocalContext.separator (LocalContext.current_context p)).
Proof.
  intros b included p. split; [|split; [|split]].
  - intros Hne.
    destruct (GlobalContext.build_community_context_cases num_tokens str_num shuffle
                sort_values to_csv pd_concat global_self use_community_summary
                column_delimiter shuffle_data include_community_rank
                community_rank_name include_community_weight community_weight_name
                max_context_tokens context_name community_reports) as [E|[H _]].
    + exfalso. apply Hne. unfold build_community_context. now rewrite E.
    + exact H.
  - destruct (GlobalContext.pack_account num_tokens str_num sort_values to_csv
                use_community_summary column_delimiter include_community_rank
                community_rank_name include_community_weight community_weight_name
                max_context_tokens context_name (selected_reports community_reports)
                (GlobalContext._init_batch num_tokens use_community_summary
                   column_delimiter include_community_rank community_rank_name
                   include_community_weight community_weight_name context_name)
                ([], []))
      as (packed & Hpre & Hrec & Htok & Hle & _).
    set (b' := (GlobalContext.pack num_tokens str_num sort_values to_csv
                  use_community_summary column_delimiter include_community_rank
                  community_rank_name include_community_weight community_weight_name
                  max_context_tokens context_name (selected_reports community_reports)
                  (GlobalContext._init_batch num_tokens use_community_summary
                     column_delimiter include_community_rank community_rank_name
                     include_community_weight community_weight_name context_name)
                  ([], [])).1) in *.
    change b with b'. simpl in Hrec.
    exists packed. split; [exact Hpre|]. split; [now rewrite Hrec, length_map|].
    split; [exact Htok|].
    intros Hne. apply Hle. intros ->. apply Hne. exact Hrec.
  - destruct (LocalContext.chunk_pack_account str_score local_self max_context_tokens
                included (LocalContext.Packing [] [] 0))
      as (packed & Hpre & Hctx & _ & Htok & Hne & Hinv).
    fold chunk_pack in Hctx, Htok, Hinv. fold p in Hctx, Htok, Hinv.
    simpl in Hctx, Htok.
    exists packed. split; [exact Hpre|]. split; [exact Hctx|]. split; [exact Htok|].
    split; [intros H; apply Hne; [exact H | reflexivity]|].
    destruct Hinv as [H|H]; [left; simpl; lia | | right; exact H].
    left. rewrite Hctx, length_map in H. exact H.
  - intros text data Hok Hne.
    destruct (LocalContext.build_chunks_context_cases str_score local_self
                max_context_tokens chunks_data)
      as [[E _] | [(_ & _ & E) | (_ & fc & _ & Hfc & E)]].
    + contradiction.
    + unfold build_chunks_context in Hok. congruence.
    + unfold build_chunks_context in Hok. rewrite E in Hok.
      injection Hok as <- _. exact Hfc.
Qed.

End Contracts.

(** *** Concrete services for the examples *)

(** Token count by blank-separated words, the count the local builder uses
    when it has no encoder. *)
Definition word_count (s : string) : nat := length (Py.split s).

Definition plain_csv (df : DataFrame) (sep : string) : string :=
  Py.join Py.nl (map (Py.join sep) (columns df :: rows df)) +:+ Py.nl.

Definition concat_frames (dfs : list DataFrame) : DataFrame :=
  {| columns := match dfs with d :: _ => columns d | [] => [] end;
     rows := concat (map rows dfs) |}.

Definition fixed_score (_ : Q) : string := "0.5".

Definition offline_embed (_ _ : string) : res (list Q) :=
  Raise (ExternalError "embedding service unavailable").

Definition q_dot (a b : list Q) : res Q :=
  if Nat.eqb (length a) (length b)
  then Ok (fold_right Qplus 0%Q (zip_with Qmult a b))
  else Raise (ValueError "shapes not aligned").

Definition q_lt (a b : Q) : bool := negb (Qle_bool b a).

Definition local_builder (user_email : option string) : LocalContext.Neo4jLocalContext :=
  {| LocalContext.user_email := user_email;
     LocalContext.token_encoder := None;
     LocalContext.has_openai_client := true;
     LocalContext.openai_model := "text-embedding-3-small";
     LocalContext.random_state := 86 |}.

Definition global_builder (user_email : option string)
    : GlobalContext.Neo4jGlobalCommunityContext :=
  {| GlobalContext.user_email := user_email; GlobalContext.random_state := 86 |}.

Definition five_word_chunk : LocalContext.chunk Q :=
  LocalContext.Chunk "c1" "alpha beta gamma delta epsilon" [] [] [] [] None 0%Q.

Definition blank_chunk : LocalContext.chunk Q :=
  LocalContext.Chunk "c2" "   " ["Entity"] [] [] ["report.pdf"] None 0%Q.

Definition empty_chunk : LocalContext.chunk Q :=
  LocalContext.Chunk "c3" "" [] [] [] [] None 0%Q.

Definition chunk_store (c : Neo4j.call) : res (list (LocalContext.chunk Q)) :=
  Ok [five_word_chunk].

Definition report_store (c : Neo4j.call) : res (list GlobalContext.report) :=
  Ok [GlobalContext.apple_report; GlobalContext.banana_report].



(** C2, refuted as stated: with the ceiling 5 the local packer returns the
    text of the first chunk, which has 18 tokens. *)
Lemma first_chunk_exceeds_ceiling :
  exists text,
    LocalContext._build_chunks_context fixed_score (local_builder (Some "alice@example.com"))
      5%Z [five_word_chunk] = Ok (text, ∅)
    /\ LocalContext.chunk_token_count (local_builder (Some "alice@example.com")) text = 18
    /\ (5 < Z.of_nat (LocalContext.chunk_token_count
                        (local_builder (Some "alice@example.com")) text))%Z.
Proof.
  eexists. split; [vm_compute; reflexivity|].
  split; vm_compute; reflexivity.
Qed.

(** C8 at a failing input: one chunk is packed, yet the records returned by
    the local builder have no entry under ["chunks"]. *)
Example local_builder_returns_no_chunk_records :
  exists text,
    LocalContext._build_chunks_context fixed_score (local_builder (Some "alice@example.com"))
      8000%Z [five_word_chunk] = Ok (text, ∅)
    /\ text <> ""
    /\ exists r,
         (LocalContext.build_context 0%Q Qmult Qdiv q_lt Qle_bool q_dot (fun _ => 1%Q)
            fixed_score offline_embed chunk_store
            (local_builder (Some "alice@example.com")) 8000%Z (3 # 10)%Q
            "alpha" None).2 = Ok r
         /\ context_records r !! "chunks" = None
         /\ context_records r = ∅.
Proof.
  eexists. split; [vm_compute; reflexivity|]. split; [discriminate|].
  eexists. split; [vm_compute; reflexivity|]. split; reflexivity.
Qed.

(** The theorem of C10 at a blank chunk followed by an empty one. *)
Lemma blank_chunks_raise_index_error_witness :
  [blank_chunk; empty_chunk] <> []
  /\ Forall (fun c => Py.has_non_space (LocalContext.text c) = false)
            [blank_chunk; empty_chunk]
  /\ LocalContext._build_chunks_context fixed_score
       (local_builder (Some "alice@example.com")) 8000%Z [blank_chunk; empty_chunk]
     = Raise (IndexError "list index out of range").
Proof.
  split; [discriminate|]. split; [repeat constructor|].
  exact (proj1 (LocalContext.blank_chunks_raise_index_error fixed_score
                  (local_builder (Some "alice@example.com")) 8000%Z
                  [blank_chunk; empty_chunk] ltac:(discriminate)
                  ltac:(repeat constructor))).
Defined.

Definition two_entity_report : GlobalContext.report :=
  GlobalContext.Report "7" "Ports" "Harbour communities" ""
    ["Rotterdam"; "Antwerp"; "Rotterdam"] ["t1"; "t2"; "t3"; "t4"; "t5"] 0%Q ∅.


(** The default batch names and the keys they give. *)
Example batch_class_names :
  Py.lower "Reports" = "reports" /\ Py.lower "Chunks" = "chunks".
Proof. split; reflexivity. Qed.

(** The weights of the two reports: 2 + 5/10 and 1, then divided by 5/2. *)
Example community_weights_values :
  map Qred (GlobalContext.weights "occurrence"
              (GlobalContext._compute_community_weights_neo4j
                 [two_entity_report; GlobalContext.apple_report] "occurrence" false))
    = [(5 # 2)%Q; 1%Q]
  /\ map Qred (GlobalContext.weights "occurrence"
                 (GlobalContext._compute_community_weights_neo4j
                    [two_entity_report; GlobalContext.apple_report] "occurrence" true))
     = [1%Q; (2 # 5)%Q].
Proof. split; vm_compute; reflexivity. Qed.

End Builders.

(** ** Further properties of the agent ([agents/search_agent.py]) *)

Module AgentFacts.

Lemma prefix_slice_app_exact (s t : string) :
  Py.prefix_slice (String.length s) (s +:+ t) = s.
Proof.
  unfold Py.prefix_slice. induction s as [|c s IH]; simpl.
  - destruct t; reflexivity.
  - f_equal. exact IH.
Qed.

(** X1.  Truncating twice is truncating once: a truncated payload that goes
    through [_truncate_content] again (with the same budget) comes back
    unchanged, the marker is not stacked. *)
Theorem truncate_content_idempotent (content : string) (max_length : nat) :
  Agent._truncate_content (Agent._truncate_content content max_length) max_length
  = Agent._truncate_content content max_length.
Proof.
  destruct (Nat.le_gt_cases (String.length content) max_length) as [H|H].
  - rewrite (Agent.truncate_content_short content max_length H).
    apply Agent.truncate_content_short. exact H.
  - rewrite (Agent.truncate_content_long content max_length H).
    set (cut := Py.prefix_slice max_length content).
    assert (Hlen : String.length cut = max_length).
    { unfold cut. rewrite Py.length_prefix_slice. lia. }
    rewrite Agent.truncate_content_long.
    + f_equal. rewrite <- Hlen at 1. apply prefix_slice_app_exact.
    + rewrite Py.length_app, Hlen. simpl. lia.
Qed.

(** X2.  [call_tool] hands back a backend's value only for the six tool
    names the dispatcher knows, and only when the tool is classified under
    the class that owns the name; every other call ends in ["No tool call"],
    in the unknown-function dictionary, or in an exception. *)
Theorem backend_reached_only_for_known_tools {V : Type} (self : Agent.SearchAgent V)
    (tool_name : string) (tool_call_arguments : gmap string string) (v : V) :
  Agent.call_tool self tool_name tool_call_arguments = Ok (Agent.backend_value v) ->
  (Agent.tool_classifications self !! tool_name = Some "structured"
   /\ (tool_name = "get_all_tables" \/ tool_name = "get_table_schema"
       \/ tool_name = "run_sql_query"))
  \/ (Agent.tool_classifications self !! tool_name = Some "unstructured"
      /\ (tool_name = "global_search" \/ tool_name = "local_search"
          \/ tool_name = "run_cypher_query")).
Proof.
  unfold Agent.call_tool, Agent.get_tool_type.
  destruct (Agent.tool_classifications self !! tool_name) as [ty|]; [|discriminate].
  destruct (decide (ty = "structured")) as [->|Hs].
  - intros H. left. split; [reflexivity|]. unfold Agent.structured_search in H.
    destruct (decide (tool_name = "get_all_tables")); [auto|].
    destruct (decide (tool_name = "get_table_schema")); [auto|].
    destruct (decide (tool_name = "run_sql_query")); [auto|discriminate].
  - destruct (decide (ty = "unstructured")) as [->|Hu]; [|discriminate].
    intros H. right. split; [reflexivity|]. unfold Agent.unstructured_search in H.
    destruct (decide (tool_name = "global_search")); [auto|].
    destruct (decide (tool_name = "local_search")); [auto|].
    destruct (decide (tool_name = "run_cypher_query")); [auto|discriminate].
Qed.

(** The theorem of X2 at the structured tool of [Agent.stub_agent]. *)
Lemma backend_reached_only_for_known_tools_witness :
  (Agent.tool_classifications Agent.stub_agent !! "get_all_tables" = Some "structured"
   /\ ("get_all_tables" = "get_all_tables" \/ "get_all_tables" = "get_table_schema"
       \/ "get_all_tables" = "run_sql_query"))
  \/ (Agent.tool_classifications Agent.stub_agent !! "get_all_tables" = Some "unstructured"
      /\ ("get_all_tables" = "global_search" \/ "get_all_tables" = "local_search"
          \/ "get_all_tables" = "run_cypher_query")).
Proof.
  exact (backend_reached_only_for_known_tools Agent.stub_agent "get_all_tables" ∅ tt
           eq_refl).
Defined.

Section Loop.
Context {V : Type}.
Variable self : Agent.SearchAgent V.
Variable REASONING_PROMPT : string.
Variable reasoning_model : nat -> list Agent.message -> res Agent.reasoning_response.
Variable json_loads : string -> res (gmap string string).
Variable json_dumps : Agent.py_value V -> res string.
Variable repr_tool : Agent.tool_result V -> string.
Variable judge_completion : nat -> string -> string -> res string.
Variable parse_evaluation : string -> res Agent.evaluation.

Let iteration :=
  Agent.iteration self reasoning_model json_loads json_dumps repr_tool judge_completion
    parse_evaluation.
Let run_loop :=
  Agent.run_loop self reasoning_model json_loads json_dumps repr_tool judge_completion
    parse_evaluation.
Let run :=
  Agent.run self REASONING_PROMPT reasoning_model json_loads json_dumps repr_tool
    judge_completion parse_evaluation.
Let initial_history := Agent.initial_history self REASONING_PROMPT.

(** [1] when the run was ended by an exception. *)
Definition raised_count (o : Agent.outcome) : nat :=
  match o with
  | Agent.Raised _ => 1
  | _ => 0
  end.

Lemma run_loop_counts (remaining : nat) :
  forall (i : nat) (history : list Agent.message) (seen : list Agent.evaluation),
    length seen = i ->
    let r := run_loop remaining i history seen in
    Agent.iterations r = length (Agent.verdicts r) + raised_count (Agent.result r).
Proof.
  unfold run_loop.
  induction remaining as [|remaining IH]; intros i history seen Hlen; simpl.
  - lia.
  - destruct (Agent.iteration _ _ _ _ _ _ _ i history) as [[history' ev]|e]; simpl.
    + destruct (Agent.accepted ev); simpl.
      * rewrite length_app. simpl. lia.
      * apply IH. rewrite length_app. simpl. lia.
    + lia.
Qed.

(** X3.  Every iteration that completes yields exactly one verdict, and an
    exception escapes from the iteration in which it occurs ([run] has no
    handler): the number of iterations is the number of verdicts, plus one
    when the run was ended by an exception. *)
Theorem run_counts_verdicts :
  Agent.iterations run
  = length (Agent.verdicts run) + raised_count (Agent.result run).
Proof.
  unfold run, Agent.run.
  pose proof (run_loop_counts Agent.max_plans 0 initial_history []) as H.
  unfold run_loop, initial_history in H. apply H. reflexivity.
Qed.

Lemma run_loop_all_rejected (ev0 : Agent.evaluation) (remaining : nat) :
  Agent.accepted ev0 = None ->
  (forall i history, exists history', iteration i history = Ok (history', ev0)) ->
  forall (i : nat) (history : list Agent.message) (seen : list Agent.evaluation),
    run_loop remaining i history seen
    = Agent.RunResult (i + remaining) (seen ++ replicate remaining ev0) Agent.NoAnswer.
Proof.
  intros Hrej Hit. unfold run_loop, iteration in *.
  induction remaining as [|remaining IH]; intros i history seen; simpl.
  - now rewrite Nat.add_0_r, app_nil_r.
  - destruct (Hit i history) as [history' ->]. rewrite Hrej.
    rewrite IH. f_equal; [lia|]. now rewrite <- app_assoc.
Qed.

(** X4.  A judge whose answers cannot be decoded never stops the run and
    never fails it: when the reasoning model answers with messages and every
    judge answer is malformed, each verdict is "insufficient, no answer" and
    the run makes exactly 10 iterations and returns no answer. *)
Theorem malformed_judge_exhausts_run :
  (forall i history, exists text, reasoning_model i history = Ok (Agent.message_output text)) ->
  (forall i history, exists answer e,
      judge_completion i (Agent.query self) history = Ok answer
      /\ parse_evaluation answer = Raise e) ->
  run = Agent.RunResult 10 (replicate 10 (Agent.Evaluation false None)) Agent.NoAnswer.
Proof.
  intros Hmodel Hjudge. unfold run, Agent.run.
  change (Agent.run_loop self reasoning_model json_loads json_dumps repr_tool
            judge_completion parse_evaluation Agent.max_plans 0 initial_history [])
    with (run_loop Agent.max_plans 0 initial_history []).
  rewrite (run_loop_all_rejected (Agent.Evaluation false None)); [reflexivity..|].
  intros i history. unfold iteration, Agent.iteration.
  destruct (Hmodel i history) as [text ->]. simpl.
  unfold Agent.evaluate_sufficiency.
  match goal with
  | |- context [judge_completion i (Agent.query self) ?h] =>
      destruct (Hjudge i h) as (answer & e & -> & Hp)
  end.
  simpl. rewrite Hp. eexists. reflexivity.
Qed.

(** X5.  A tool call that lacks a required argument ends the run: when the
    first reasoning step requests an unstructured search tool and the
    decoded arguments have no ["query"] entry, the run stops in its first
    iteration with [KeyError("query")], before any backend or judge call. *)
Theorem missing_tool_argument_aborts_run (tool_name arguments : string)
    (args : gmap string string) :
  Agent.tool_classifications self !! tool_name = Some "unstructured" ->
  tool_name = "global_search" \/ tool_name = "local_search"
    \/ tool_name = "run_cypher_query" ->
  reasoning_model 0 initial_history = Ok (Agent.function_call tool_name arguments) ->
  json_loads arguments = Ok args ->
  args !! "query" = None ->
  run = Agent.RunResult 1 [] (Agent.Raised (KeyError "query")).
Proof.
  intros Hcls Hname Hmodel Hloads Hmissing.
  unfold run, Agent.run, Agent.max_plans. cbn [Agent.run_loop].
  fold initial_history.
  assert (E : Agent.iteration self reasoning_model json_loads json_dumps repr_tool
                judge_completion parse_evaluation 0 initial_history
              = Raise (KeyError "query")).
  { unfold Agent.iteration. rewrite Hmodel. simpl. rewrite Hloads. simpl.
    unfold Agent.call_tool, Agent.get_tool_type. rewrite Hcls. simpl.
    unfold Agent.unstructured_search, Agent.getitem.
    destruct Hname as [-> | [-> | ->]]; simpl; rewrite Hmissing; reflexivity. }
  rewrite E. reflexivity.
Qed.

End Loop.

(** [Agent.iteration_history_bounded] at the first iteration of the stub
    run. *)
Lemma iteration_history_bounded_witness :
  let history := [Agent.Message "system" "system prompt"] in
  let history' := history ++ [Agent.Message "assistant" "Tool result: [users, orders]"] in
  history' = history
  \/ exists m, history' = history ++ [m] /\ Agent.role m = "assistant"
       /\ String.length (Agent.content m) <= 2028.
Proof.
  exact (Agent.iteration_history_bounded Agent.stub_agent Agent.stub_reasoning
           (fun _ => Ok ∅) (fun _ => Ok "[users, orders]") (fun _ => "")
           Agent.stub_judge_second Agent.stub_parse 0
           [Agent.Message "system" "system prompt"]
           ([Agent.Message "system" "system prompt"]
              ++ [Agent.Message "assistant" "Tool result: [users, orders]"])
           (Agent.Evaluation false None) eq_refl).
Defined.

(** The theorem of X4: a judge that always answers with text that is not JSON. *)
Lemma malformed_judge_exhausts_run_witness :
  Agent.run Agent.stub_agent "system prompt"
    (fun _ _ => Ok (Agent.message_output "thinking")) (fun _ => Ok ∅)
    (fun _ => Ok "[]") (fun _ => "") (fun _ _ _ => Ok "not json") Agent.stub_parse
  = Agent.RunResult 10 (replicate 10 (Agent.Evaluation false None)) Agent.NoAnswer.
Proof.
  apply malformed_judge_exhausts_run.
  - intros i history. eexists. reflexivity.
  - intros i history. exists "not json", (ValueError "malformed judge answer").
    split; reflexivity.
Defined.

(** The theorem of X5: the unstructured tool [run_cypher_query] requested
    with empty arguments. *)
Lemma missing_tool_argument_aborts_run_witness :
  Agent.run (Service.tenant_agent "alice@example.com") "system prompt"
    (fun _ _ => Ok (Agent.function_call "run_cypher_query" "{}")) (fun _ => Ok ∅)
    (fun _ => Ok "[]") (fun _ => "") (fun _ _ _ => Ok "sufficient") Agent.stub_parse
  = Agent.RunResult 1 [] (Agent.Raised (KeyError "query")).
Proof.
  apply (missing_tool_argument_aborts_run (Service.tenant_agent "alice@example.com")
           "system prompt" (fun _ _ => Ok (Agent.function_call "run_cypher_query" "{}"))
           (fun _ => Ok ∅) (fun _ => Ok "[]") (fun _ => "")
           (fun _ _ _ => Ok "sufficient") Agent.stub_parse
           "run_cypher_query" "{}" ∅).
  - reflexivity.
  - right. right. reflexivity.
  - reflexivity.
  - reflexivity.
  - reflexivity.
Defined.

End AgentFacts.

(** ** Loading the tool definitions ([SearchAgent._load_tools]) *)

Module ToolRegistry.

(** [s.endswith(suffix)]. *)
Definition endswith (s suffix : string) : bool :=
  String.prefix (String.rev suffix) (String.rev s).

(** A decoded tool definition: the two entries [_load_tools] reads and the
    rest of the definition. *)
Record tool_def : Type := ToolDef {
  name : option string;
  tool_type : option string;
  parameters : string
}.

(** What opening and decoding one file gives: a definition, one of the two
    exceptions the loader catches, or another exception. *)
Inductive tool_file : Type :=
  | tool_json (d : tool_def)
  | json_decode_error
  | file_not_found
  | other_failure (e : exn).

(** [self.tools] and [self.tool_classifications]. *)
Record registry : Type := Registry {
  tools : list tool_def;
  tool_classifications : gmap string (option string)
}.

Definition empty_registry : registry := Registry [] ∅.

(** [if tool_name:]. *)
Definition named (d : tool_def) : option string :=
  match name d with
  | Some n => if Py.truthy n then Some n else None
  | None => None
  end.

(** One round of the loop over [os.listdir(tools_dir)]. *)
Definition load_file (r : registry) (file : string * tool_file) : res registry :=
  let '(filename, content) := file in
  if endswith filename ".json" then
    match content with
    | tool_json d =>
        match named d with
        | Some n =>
            Ok (Registry (tools r ++ [d]) (<[n := tool_type d]> (tool_classifications r)))
        | None => Ok r
        end
    | json_decode_error | file_not_found => Ok r
    | other_failure e => Raise e
    end
  else Ok r.

Fixpoint load_files (files : list (string * tool_file)) (r : registry) : res registry :=
  match files with
  | [] => Ok r
  | file :: rest => r' ← load_file r file; load_files rest r'
  end.

Definition _load_tools (files : list (string * tool_file)) : res registry :=
  load_files files empty_registry.

(** [get_tool_type] on a loaded registry: the classification, [None] when
    the tool is unknown or its definition has no [tool_type]. *)
Definition get_tool_type (r : registry) (tool_name : string) : option string :=
  default None (tool_classifications r !! tool_name).

(** The definitions that end up in [self.tools]. *)
Definition loaded (file : string * tool_file) : option tool_def :=
  match file.2 with
  | tool_json d =>
      if endswith file.1 ".json" then
        match named d with Some _ => Some d | None => None end
      else None
  | _ => None
  end.

(** No file with the suffix fails with an exception that the loader does
    not catch. *)
Definition readable (file : string * tool_file) : Prop :=
  match file.2 with
  | other_failure _ => endswith file.1 ".json" = false
  | _ => True
  end.

Example endswith_examples :
  endswith "global_search.json" ".json" = true
  /\ endswith "README.md" ".json" = false
  /\ endswith "json" ".json" = false
  /\ endswith ".json" ".json" = true.
Proof. repeat split. Qed.

(** The registry keeps two things in step. *)
Definition consistent (r : registry) : Prop :=
  (forall d, In d (tools r) ->
     exists n, named d = Some n /\ is_Some (tool_classifications r !! n))
  /\ (forall n, is_Some (tool_classifications r !! n) ->
        exists d, In d (tools r) /\ named d = Some n).

Lemma load_file_spec (r : registry) (file : string * tool_file) :
  readable file ->
  exists r', load_file r file = Ok r'
    /\ tools r' = tools r ++ option_list (loaded file)
    /\ (consistent r -> consistent r').
Proof.
  destruct file as [filename content]. unfold readable, loaded, load_file. simpl.
  destruct (endswith filename ".json") eqn:Hext.
  - destruct content as [d| | |e]; simpl.
    + destruct (named d) as [n|] eqn:Hn; simpl.
      * intros _. eexists. split; [reflexivity|]. split; [reflexivity|].
        intros [H1 H2]. split; simpl.
        -- intros d' Hd'. apply in_app_or in Hd' as [Hd'|[<-|[]]].
           ++ destruct (H1 d' Hd') as (n' & Hn' & Hs). exists n'. split; [exact Hn'|].
              destruct (decide (n = n')) as [->|Hne].
              ** rewrite lookup_insert_eq. eauto.
              ** rewrite lookup_insert_ne by exact Hne. exact Hs.
           ++ exists n. split; [exact Hn|]. rewrite lookup_insert_eq. eauto.
        -- intros n' Hs. destruct (decide (n = n')) as [<-|Hne].
           ++ exists d. split; [apply in_or_app; right; left; reflexivity | exact Hn].
           ++ rewrite lookup_insert_ne in Hs by exact Hne.
              destruct (H2 n' Hs) as (d' & Hd' & Hn'). exists d'.
              split; [apply in_or_app; left; exact Hd' | exact Hn'].
      * intros _. exists r. rewrite app_nil_r. auto.
    + intros _. exists r. rewrite app_nil_r. auto.
    + intros _. exists r. rewrite app_nil_r. auto.
    + intros H. discriminate H.
  - intros _. exists r. destruct content; rewrite app_nil_r; auto.
Qed.

Lemma load_files_spec (files : list (string * tool_file)) : forall r : registry,
  Forall readable files ->
  exists r', load_files files r = Ok r'
    /\ tools r' = tools r ++ omap loaded files
    /\ (consistent r -> consistent r').
Proof.
  induction files as [|file rest IH]; intros r Hread; simpl.
  - exists r. rewrite app_nil_r. auto.
  - inversion Hread as [|? ? Hfile Hrest]; subst.
    destruct (load_file_spec r file Hfile) as (r1 & -> & Ht1 & Hc1). simpl.
    destruct (IH r1 Hrest) as (r' & -> & Ht' & Hc').
    exists r'. split; [reflexivity|]. split; [|auto].
    rewrite Ht', Ht1, <- app_assoc. f_equal.
    destruct (loaded file); reflexivity.
Qed.

(** X7.  Files without the [.json] suffix, files that do not decode, and
    definitions without a name are skipped and loading goes on: the tools
    offered to the model are exactly the named definitions of the readable
    [.json] files, in directory order.  Every offered tool has an entry in
    [tool_classifications], and every entry belongs to an offered tool. *)
Theorem load_tools_skips_unreadable_files (files : list (string * tool_file)) :
  Forall readable files ->
  exists r, _load_tools files = Ok r
    /\ tools r = omap loaded files
    /\ (forall d, In d (tools r) ->
          exists n, name d = Some n /\ n <> ""
            /\ is_Some (tool_classifications r !! n))
    /\ (forall n, is_Some (tool_classifications r !! n) ->
          exists d, In d (tools r) /\ name d = Some n).
Proof.
  intros Hread. unfold _load_tools.
  destruct (load_files_spec files empty_registry Hread) as (r & Hr & Ht & Hc).
  exists r. split; [exact Hr|]. split; [exact Ht|].
  assert (Hempty : consistent empty_registry).
  { split; simpl; [intros d []|]. intros n [x Hx]. rewrite lookup_empty in Hx. discriminate. }
  assert (Hnamed : forall d n, named d = Some n -> name d = Some n /\ n <> "").
  { intros d n. unfold named. destruct (name d) as [[|c m]|]; simpl; try discriminate.
    intros [= <-]. split; [reflexivity | discriminate]. }
  destruct (Hc Hempty) as [H1 H2]. split.
  - intros d Hd. destruct (H1 d Hd) as (n & Hn & Hs).
    destruct (Hnamed d n Hn) as [E1 E2]. eauto.
  - intros n Hs. destruct (H2 n Hs) as (d & Hd & Hn).
    destruct (Hnamed d n Hn) as [E1 _]. eauto.
Qed.

Definition sample_files : list (string * tool_file) :=
  [("global_search.json", tool_json (ToolDef (Some "global_search") (Some "unstructured") "{}"));
   ("broken.json", json_decode_error);
   ("notes.txt", other_failure (ExternalError "not read"));
   ("anonymous.json", tool_json (ToolDef None (Some "structured") "{}"));
   ("get_all_tables.json", tool_json (ToolDef (Some "get_all_tables") (Some "structured") "{}"))].

(** The theorem of X7 at a directory with a broken file, a text file and a
    definition without a name. *)
Lemma load_tools_skips_unreadable_files_witness :
  Forall readable sample_files
  /\ exists r, _load_tools sample_files = Ok r
       /\ tools r = omap loaded sample_files
       /\ (forall d, In d (tools r) ->
             exists n, name d = Some n /\ n <> ""
               /\ is_Some (tool_classifications r !! n))
       /\ (forall n, is_Some (tool_classifications r !! n) ->
             exists d, In d (tools r) /\ name d = Some n).
Proof.
  assert (H : Forall readable sample_files) by (repeat constructor).
  split; [exact H|]. exact (load_tools_skips_unreadable_files sample_files H).
Defined.

Example load_tools_sample :
  exists classes,
    _load_tools sample_files
    = Ok (Registry [ToolDef (Some "global_search") (Some "unstructured") "{}";
                    ToolDef (Some "get_all_tables") (Some "structured") "{}"] classes)
    /\ classes !! "get_all_tables" = Some (Some "structured")
    /\ classes !! "anonymous" = None.
Proof. eexists. split; [reflexivity|]. split; reflexivity. Qed.

End ToolRegistry.

(** ** Further properties of the global builder
       ([query/neo4j_global_context.py]) *)

Module GlobalFacts.

(** X8.  With normalisation every weight lies between 0 and 1, whatever the
    batch (empty, all zero, or not). *)
Theorem normalized_weights_in_unit_interval
    (reports : list GlobalContext.report) (name : string) :
  Forall (fun w => (0 <= w)%Q /\ (w <= 1)%Q)
    (GlobalContext.weights name
       (GlobalContext._compute_community_weights_neo4j reports name true)).
Proof.
  destruct (GlobalContext.list_max (map GlobalContext.occurrence_weight reports))
    as [m|] eqn:Hm.
  - rewrite (GlobalContext.compute_weights_normalized reports name m Hm).
    pose proof (GlobalContext.list_max_ge _ _ Hm) as Hge.
    destruct (Qlt_le_dec 0 m) as [Hpos|Hle]; apply List.Forall_forall; intros w Hw.
    + apply in_map_iff in Hw as (x & <- & Hx).
      pose proof (Hge x Hx) as Hxm.
      apply in_map_iff in Hx as (r & <- & _).
      pose proof (GlobalContext.occurrence_weight_nonneg r) as H0. split.
      * apply Qle_shift_div_l; [exact Hpos|]. now rewrite Qmult_0_l.
      * apply Qle_shift_div_r; [exact Hpos|]. now rewrite Qmult_1_l.
    + pose proof (Hge w Hw) as Hwm.
      apply in_map_iff in Hw as (r & <- & _). split.
      * apply GlobalContext.occurrence_weight_nonneg.
      * apply Qle_trans with m; [exact Hwm|].
        apply Qle_trans with 0%Q; [exact Hle | discriminate].
  - destruct reports as [|r rs]; [constructor | discriminate].
Qed.

Lemma filter_sublist {A : Type} (f : A -> bool) (l : list A) :
  sublist (List.filter f l) l.
Proof.
  induction l as [|x l IH]; simpl; [constructor|].
  destruct (f x); [now constructor | now apply sublist_cons].
Qed.

Lemma filter_twice {A : Type} (f : A -> bool) (l : list A) :
  List.filter f (List.filter f l) = List.filter f l.
Proof.
  induction l as [|x l IH]; simpl; [reflexivity|].
  destruct (f x) eqn:E; simpl; [rewrite E; now f_equal | exact IH].
Qed.

Lemma relevance_filter_sublist (query : string) (reports : list GlobalContext.report) :
  sublist (GlobalContext.relevance_filter query reports) reports.
Proof.
  pose proof (GlobalContext.relevance_filter_cases query) as Hc. simpl in Hc.
  rewrite (Hc reports).
  destruct (List.filter _ reports) as [|r rs] eqn:Hf; [reflexivity|].
  rewrite <- Hf. apply filter_sublist.
Qed.

(** X9.  The lexical filter only selects: its result is a subsequence of
    the candidates (no report is invented, duplicated or moved), and
    filtering the result again with the same query changes nothing. *)
Theorem relevance_filter_selects (query : string) (reports : list GlobalContext.report) :
  sublist (GlobalContext.relevance_filter query reports) reports
  /\ GlobalContext.relevance_filter query (GlobalContext.relevance_filter query reports)
     = GlobalContext.relevance_filter query reports.
Proof.
  split; [apply relevance_filter_sublist|].
  pose proof (GlobalContext.relevance_filter_cases query) as Hc. simpl in Hc.
  set (f := GlobalContext.is_relevant (GlobalContext.query_terms query)) in *.
  rewrite (Hc reports).
  destruct (List.filter f reports) as [|r rs] eqn:Hf.
  - rewrite (Hc reports), Hf. reflexivity.
  - rewrite (Hc (r :: rs)). rewrite <- Hf, filter_twice. rewrite Hf. reflexivity.
Qed.

Section Retrieval.
Variable report_run : Neo4j.call -> res (list GlobalContext.report).
Variable self : GlobalContext.Neo4jGlobalCommunityContext.
Variable include_community_rank : bool.
Variable min_community_rank : Q.
Variable include_community_weight : bool.
Variable community_weight_name : string.
Variable normalize_community_weight : bool.

Let get_community_reports (query : string) :=
  GlobalContext._get_community_reports_from_neo4j report_run self query
    include_community_rank min_community_rank include_community_weight
    community_weight_name normalize_community_weight.

Definition same_report (name : string) (r r' : GlobalContext.report) : Prop :=
  GlobalContext.id r' = GlobalContext.id r
  /\ GlobalContext.rank r' = GlobalContext.rank r
  /\ is_Some (GlobalContext.attrs r' !! name).

Lemma set_attr_frame (name : string) (g : GlobalContext.report -> Q)
    (reports l : list GlobalContext.report) :
  Forall2 (fun r r' => GlobalContext.id r' = GlobalContext.id r
                       /\ GlobalContext.rank r' = GlobalContext.rank r) reports l ->
  Forall2 (same_report name) reports
    (map (fun r => GlobalContext.set_attr name (g r) r) l).
Proof.
  induction 1 as [|r r' l1 l2 [E1 E2] _ IH]; simpl; constructor; [|exact IH].
  split; [exact E1|]. split; [exact E2|].
  unfold GlobalContext.set_attr. cbn [GlobalContext.attrs].
  rewrite lookup_insert_eq. eauto.
Qed.

Lemma compute_weights_frame (reports : list GlobalContext.report) (name : string)
    (normalize : bool) :
  Forall2 (same_report name) reports
    (GlobalContext._compute_community_weights_neo4j reports name normalize).
Proof.
  unfold GlobalContext._compute_community_weights_neo4j.
  set (assigned := map (fun r => GlobalContext.set_attr name
                                   (GlobalContext.occurrence_weight r) r) reports).
  assert (Ha : Forall2 (same_report name) reports assigned).
  { apply set_attr_frame. clear. induction reports; constructor; auto. }
  destruct normalize; [|exact Ha].
  destruct (map (GlobalContext.get_attr name) assigned) as [|w ws]; [exact Ha|].
  destruct (Qlt_le_dec 0 (GlobalContext.py_max w ws)); [|exact Ha].
  apply set_attr_frame.
  clear -Ha. induction Ha as [|r r' l l' (E1 & E2 & _) _ IH]; constructor; auto.
Qed.

(** X10.  What the retrieval returns when the store answers: the
    identifiers of the result are a subsequence of the identifiers of the
    rows; with rank filtering on (a positive minimum) every returned rank
    is at least the minimum; with weighting on every returned report
    carries the weight entry. *)
Theorem community_reports_are_selected_rows (query : string)
    (rows : list GlobalContext.report) :
  Forall (fun c => report_run c = Ok rows) (get_community_reports query).1 ->
  exists reports,
    (get_community_reports query).2 = Ok reports
    /\ sublist (map GlobalContext.id reports) (map GlobalContext.id rows)
    /\ (include_community_rank = true -> (0 < min_community_rank)%Q ->
        Forall (fun r => (min_community_rank <= GlobalContext.rank r)%Q) reports)
    /\ (include_community_weight = true ->
        Forall (fun r => is_Some (GlobalContext.attrs r !! community_weight_name))
               reports).
Proof.
  unfold get_community_reports, GlobalContext._get_community_reports_from_neo4j.
  cbn [fst snd]. intros Hrun. inversion Hrun as [|c cs Hc _]; subst.
  rewrite Hc. simpl.
  set (filtered := GlobalContext.relevance_filter query rows).
  set (ranked := if include_community_rank
                    && (if Qlt_le_dec 0 min_community_rank then true else false)
                 then List.filter
                        (fun r => Qle_bool min_community_rank (GlobalContext.rank r))
                        filtered
                 else filtered).
  assert (Hsub : sublist ranked rows).
  { transitivity filtered; [|apply (relevance_filter_sublist query rows)].
    unfold ranked. destruct (_ && _); [apply filter_sublist | reflexivity]. }
  assert (Hrank : include_community_rank = true -> (0 < min_community_rank)%Q ->
                  Forall (fun r => (min_community_rank <= GlobalContext.rank r)%Q) ranked).
  { intros -> Hpos. unfold ranked. simpl.
    destruct (Qlt_le_dec 0 min_community_rank) as [_|Hle];
      [|exfalso; exact (Qlt_not_le _ _ Hpos Hle)].
    apply List.Forall_forall. intros r Hr. apply filter_In in Hr as [_ Hr].
    now apply Qle_bool_iff. }
  destruct include_community_weight.
  - pose proof (compute_weights_frame ranked community_weight_name
                  normalize_community_weight) as Hframe.
    eexists. split; [reflexivity|].
    set (out := GlobalContext._compute_community_weights_neo4j ranked
                  community_weight_name normalize_community_weight) in *.
    assert (Hids : map GlobalContext.id out = map GlobalContext.id ranked).
    { clearbody out. clear -Hframe.
      induction Hframe as [|r r' l l' (E & _) _ IH]; simpl;
        [reflexivity | now rewrite E, IH]. }
    split; [rewrite Hids; now apply (fmap_sublist GlobalContext.id)|]. split.
    + intros Hi Hpos. specialize (Hrank Hi Hpos). clearbody out.
      clear Hids Hsub. induction Hframe as [|r r' l l' (_ & E & _) _ IH];
        [constructor|].
      inversion Hrank; subst. constructor; [now rewrite E | now apply IH].
    + intros _. clearbody out. clear Hids Hsub Hrank.
      induction Hframe as [|r r' l l' (_ & _ & E) _ IH]; constructor; assumption.
  - eexists. split; [reflexivity|].
    split; [now apply (fmap_sublist GlobalContext.id)|].
    split; [exact Hrank | discriminate].
Qed.

End Retrieval.

Section Packer.
Variable num_tokens : string -> nat.
Variable str_num : Q -> string.
Variable shuffle : Z -> list GlobalContext.report -> list GlobalContext.report.
Variable sort_values : list string -> DataFrame -> DataFrame.
Variable to_csv : DataFrame -> string -> string.
Variable pd_concat : list DataFrame -> DataFrame.
Variable self : GlobalContext.Neo4jGlobalCommunityContext.
Variable use_community_summary : bool.
Variable column_delimiter : string.
Variable shuffle_data : bool.
Variable include_community_rank : bool.
Variable community_rank_name : string.
Variable include_community_weight : bool.
Variable community_weight_name : string.
Variable max_context_tokens : Z.
Variable context_name : string.

Let pack :=
  GlobalContext.pack num_tokens str_num sort_values to_csv use_community_summary
    column_delimiter include_community_rank community_rank_name
    include_community_weight community_weight_name max_context_tokens context_name.
Let init_batch :=
  GlobalContext._init_batch num_tokens use_community_summary column_delimiter
    include_community_rank community_rank_name include_community_weight
    community_weight_name context_name.
Let cut_batch :=
  GlobalContext._cut_batch sort_values to_csv use_community_summary column_delimiter
    include_community_rank community_rank_name include_community_weight
    community_weight_name context_name.
Let batch_frame :=
  GlobalContext.batch_frame sort_values use_community_summary include_community_rank
    community_rank_name include_community_weight community_weight_name.
Let report_row (r : GlobalContext.report) : string * list string :=
  GlobalContext._report_context_text str_num use_community_summary column_delimiter
    include_community_rank include_community_weight community_weight_name r.
Let row_tokens (r : GlobalContext.report) : nat := num_tokens (report_row r).1.
Let selected_reports := GlobalContext.selected_reports shuffle self shuffle_data.
Let packed_batch :=
  GlobalContext.packed_batch num_tokens str_num shuffle sort_values to_csv self
    use_community_summary column_delimiter shuffle_data include_community_rank
    community_rank_name include_community_weight community_weight_name
    max_context_tokens context_name.
Let build_community_context :=
  GlobalContext._build_community_context num_tokens str_num shuffle sort_values to_csv
    pd_concat self use_community_summary column_delimiter shuffle_data
    include_community_rank community_rank_name include_community_weight
    community_weight_name max_context_tokens context_name.
Let is_included :=
  GlobalContext._is_included.

Lemma pack_longest_prefix (reports : list GlobalContext.report) :
  forall (b : GlobalContext.batch) (out : GlobalContext.outputs),
  exists packed rest,
    reports = packed ++ rest
    /\ GlobalContext.batch_records (pack reports b out).1
       = GlobalContext.batch_records b ++ map (fun r => (report_row r).2) packed
    /\ GlobalContext.batch_tokens (pack reports b out).1
       = GlobalContext.batch_tokens b + sum_list (map row_tokens packed)
    /\ match rest with
       | [] => True
       | r :: _ =>
           (max_context_tokens
            < Z.of_nat (GlobalContext.batch_tokens (pack reports b out).1 + row_tokens r))%Z
       end
    /\ (packed <> [] ->
        (Z.of_nat (GlobalContext.batch_tokens (pack reports b out).1)
         <= max_context_tokens)%Z).
Proof.
  unfold pack, row_tokens, report_row.
  induction reports as [|r rest IH]; intros b out.
  - exists [], []. simpl. rewrite app_nil_r, Nat.add_0_r.
    split; [reflexivity|]. split; [reflexivity|]. split; [reflexivity|].
    split; [exact I | congruence].
  - cbn [GlobalContext.pack].
    destruct (GlobalContext._report_context_text _ _ _ _ _ _ r)
      as [new_context_text new_context] eqn:Hr.
    assert (Erow : num_tokens
                     (GlobalContext._report_context_text str_num use_community_summary
                        column_delimiter include_community_rank include_community_weight
                        community_weight_name r).1
                   = num_tokens new_context_text) by now rewrite Hr.
    destruct (max_context_tokens
              <? Z.of_nat (GlobalContext.batch_tokens b + num_tokens new_context_text))%Z
      eqn:Hover.
    + exists [], (r :: rest). cbn [app map sum_list sum_list_with fst snd].
      rewrite app_nil_r, Nat.add_0_r.
      split; [reflexivity|]. split; [reflexivity|]. split; [reflexivity|].
      split; [|congruence].
      rewrite Erow. now apply Z.ltb_lt.
    + destruct (IH (GlobalContext.Batch
                      (GlobalContext.batch_text b +:+ new_context_text)
                      (GlobalContext.batch_tokens b + num_tokens new_context_text)
                      (GlobalContext.batch_records b ++ [new_context])) out)
        as (packed & rest' & Hsplit & Hrec & Htok & Hnext & Hfits).
      exists (r :: packed), rest'.
      cbn [GlobalContext.batch_records GlobalContext.batch_tokens] in *.
      split; [simpl; now rewrite Hsplit|].
      split; [rewrite Hrec; cbn [map]; rewrite Hr; cbn [snd]; now rewrite <- app_assoc|].
      split; [|split; [exact Hnext|]].
      * rewrite Htok. cbn [map sum_list sum_list_with]. unfold Datatypes.id.
        rewrite Erow. lia.
      * intros _. destruct packed as [|r' packed']; [|apply Hfits; congruence].
        rewrite Htok. cbn [map sum_list sum_list_with].
        apply Z.ltb_ge in Hover. lia.
Qed.

(** X11.  The packer is greedy and keeps order: the packed rows are the
    rows of a prefix of the selected reports; when the prefix is not empty
    its token account (header block plus rows) is within
    [max_context_tokens]; the report that follows the prefix, if any, would
    take the account over the ceiling.  So the prefix is the longest one
    whose account stays within the ceiling (when the header alone exceeds
    it, nothing is packed).  When the account of all selected reports
    fits, all of them are packed. *)
Theorem community_packer_longest_prefix (community_reports : list GlobalContext.report) :
  let b := packed_batch community_reports in
  let selected := selected_reports community_reports in
  let header_tokens := GlobalContext.batch_tokens init_batch in
  (exists packed rest,
      selected = packed ++ rest
      /\ GlobalContext.batch_records b = map (fun r => (report_row r).2) packed
      /\ GlobalContext.batch_tokens b = header_tokens + sum_list (map row_tokens packed)
      /\ match rest with
         | [] => True
         | r :: _ =>
             (max_context_tokens
              < Z.of_nat (header_tokens + sum_list (map row_tokens packed) + row_tokens r))%Z
         end
      /\ (packed <> [] ->
          (Z.of_nat (header_tokens + sum_list (map row_tokens packed))
           <= max_context_tokens)%Z))
  /\ ((Z.of_nat (header_tokens + sum_list (map row_tokens selected))
       <= max_context_tokens)%Z ->
      GlobalContext.batch_records b = map (fun r => (report_row r).2) selected).
Proof.
  intros b selected header_tokens.
  destruct (pack_longest_prefix selected init_batch ([], []))
    as (packed & rest & Hsplit & Hrec & Htok & Hnext & Hfits).
  assert (Eb : (pack selected init_batch ([], [])).1 = b) by reflexivity.
  rewrite Eb in Hrec, Htok, Hnext, Hfits. simpl in Hrec.
  fold header_tokens in Htok.
  split.
  - exists packed, rest. split; [exact Hsplit|]. split; [exact Hrec|].
    split; [exact Htok|]. split; [|now rewrite <- Htok].
    destruct rest as [|r rest']; [exact I|].
    rewrite <- Htok. exact Hnext.
  - intros Hfit. destruct rest as [|r rest'].
    + rewrite app_nil_r in Hsplit. now rewrite Hsplit.
    + exfalso. rewrite Htok in Hnext. rewrite Hsplit in Hfit.
      rewrite map_app, sum_list_with_app in Hfit.
      cbn [map sum_list sum_list_with] in Hfit. unfold Datatypes.id in Hfit.
      change (sum_list_with (fun x => x) (map row_tokens packed))
        with (sum_list (map row_tokens packed)) in Hfit.
      lia.
Qed.

(** X12.  Reports without content never reach a batch: when the shuffle
    only rearranges its input, every packed row is the row of a report of
    the input whose summary or full content is not empty. *)
Theorem packed_rows_come_from_included_reports
    (community_reports : list GlobalContext.report) :
  (forall seed l r, In r (shuffle seed l) -> In r l) ->
  forall row, In row (GlobalContext.batch_records (packed_batch community_reports)) ->
    exists r, In r community_reports
      /\ row = (report_row r).2
      /\ (GlobalContext.summary r <> "" \/ GlobalContext.full_content r <> "").
Proof.
  intros Hshuffle row Hrow.
  destruct (pack_longest_prefix (selected_reports community_reports) init_batch ([], []))
    as (packed & rest & Hsplit & Hrec & _ & _).
  assert (Eb : (pack (selected_reports community_reports) init_batch ([], [])).1
               = packed_batch community_reports) by reflexivity.
  rewrite Eb in Hrec. simpl in Hrec. rewrite Hrec in Hrow.
  apply in_map_iff in Hrow as (r & <- & Hr).
  assert (Hsel : In r (selected_reports community_reports)).
  { rewrite Hsplit. apply in_or_app. now left. }
  assert (Hfil : In r (List.filter GlobalContext._is_included community_reports)).
  { unfold selected_reports, GlobalContext.selected_reports in Hsel.
    destruct shuffle_data; [eapply Hshuffle; exact Hsel | exact Hsel]. }
  apply filter_In in Hfil as [Hin Hinc].
  exists r. split; [exact Hin|]. split; [reflexivity|].
  unfold GlobalContext._is_included in Hinc. apply orb_true_iff in Hinc as [H|H].
  - left. intros E. rewrite E in H. discriminate.
  - right. intros E. rewrite E in H. discriminate.
Qed.

(** pandas' [sort_values] rearranges the rows of a frame and keeps its
    columns. *)
Definition rearranges_rows : Prop :=
  forall by_ df, columns (sort_values by_ df) = columns df
                 /\ rows (sort_values by_ df) ≡ₚ rows df.

Lemma batch_frame_ids (b : GlobalContext.batch) :
  rearranges_rows ->
  GlobalContext.batch_records b <> [] ->
  (list_to_set (GlobalContext.column "id" (batch_frame b)) : gset string)
  = list_to_set (map GlobalContext.record_id (GlobalContext.batch_records b)).
Proof.
  intros Hsort Hne. unfold batch_frame, GlobalContext.batch_frame,
    GlobalContext._convert_report_context_to_df.
  destruct (GlobalContext.batch_records b) as [|r0 rs] eqn:Hrec; [congruence|].
  set (header := GlobalContext._get_header use_community_summary include_community_rank
                   community_rank_name include_community_weight community_weight_name).
  set (df := {| columns := header; rows := r0 :: rs |}).
  assert (Hrank : forall w r,
    columns (GlobalContext._rank_report_context sort_values df w r) = header
    /\ rows (GlobalContext._rank_report_context sort_values df w r) ≡ₚ r0 :: rs).
  { intros w r. unfold GlobalContext._rank_report_context.
    destruct (_ ++ _) as [|a l]; [split; reflexivity|]. apply Hsort. }
  match goal with
  | |- context [GlobalContext._rank_report_context sort_values df ?w ?r] =>
      destruct (Hrank w r) as [Hcols Hrows];
      set (ranked := GlobalContext._rank_report_context sort_values df w r) in *
  end.
  unfold GlobalContext.column. rewrite Hcols.
  assert (Hfind : list_find (fun c => c = "id") header = Some (0, "id")) by reflexivity.
  rewrite Hfind.
  assert (Hmap : map (fun row : list string => default "" (row !! 0)) (rows ranked)
                 = map GlobalContext.record_id (rows ranked)).
  { apply map_ext. intros row. unfold GlobalContext.record_id.
    now rewrite head_lookup. }
  rewrite Hmap. apply list_to_set_perm_L.
  apply (fmap_Permutation GlobalContext.record_id). exact Hrows.
Qed.

(** X13.  Single-batch mode: however many reports are selected and
    whatever the ceiling, at most one batch is returned (given that sorting
    a frame only rearranges its rows); the guard after the loop recognises
    the batch that the loop has already cut. *)
Theorem at_most_one_batch (community_reports : list GlobalContext.report) :
  rearranges_rows ->
  length (build_community_context community_reports).1 <= 1.
Proof.
  intros Hsort. unfold build_community_context, GlobalContext._build_community_context.
  destruct (List.filter GlobalContext._is_included community_reports) as [|r0 rs];
    [simpl; lia|].
  destruct (GlobalContext.pack_account num_tokens str_num sort_values to_csv
              use_community_summary column_delimiter include_community_rank
              community_rank_name include_community_weight community_weight_name
              max_context_tokens context_name
              (GlobalContext.selected_reports shuffle self shuffle_data community_reports)
              init_batch ([], [])) as (packed & _ & _ & _ & _ & Hout).
  unfold init_batch in Hout.
  destruct (GlobalContext.pack num_tokens str_num sort_values to_csv
              use_community_summary column_delimiter include_community_rank
              community_rank_name include_community_weight community_weight_name
              max_context_tokens context_name
              (GlobalContext.selected_reports shuffle self shuffle_data community_reports)
              (GlobalContext._init_batch num_tokens use_community_summary
                 column_delimiter include_community_rank community_rank_name
                 include_community_weight community_weight_name context_name)
              ([], [])) as [b' out] eqn:Hp.
  cbn [fst snd] in Hout.
  assert (Hfresh : length (GlobalContext.collected pd_concat context_name
                             (cut_batch b' ([], []))).1 <= 1).
  { destruct (GlobalContext.cut_batch_cases sort_values to_csv use_community_summary
                column_delimiter include_community_rank community_rank_name
                include_community_weight community_weight_name context_name b' ([], []))
      as [E|[text E]]; unfold cut_batch; rewrite E; simpl; lia. }
  assert (Hcases : out = ([], [])
                   \/ (GlobalContext.batch_records b' <> []
                       /\ exists text, out = ([text], [batch_frame b']))).
  { destruct Hout as [->| ->]; [now left|].
    destruct (GlobalContext.cut_batch_cases sort_values to_csv use_community_summary
                column_delimiter include_community_rank community_rank_name
                include_community_weight community_weight_name context_name b' ([], []))
      as [E|[text E]]; rewrite E; [now left|].
    right. split; [|exists text; reflexivity].
    intros Hnil. rewrite GlobalContext.cut_batch_empty in E by exact Hnil.
    discriminate E. }
  destruct Hcases as [->|(Hne & text & ->)].
  - simpl. exact Hfresh.
  - cbn [snd map].
    rewrite (batch_frame_ids b' Hsort Hne).
    rewrite bool_decide_eq_true_2 by (apply list_elem_of_here).
    simpl. lia.
Qed.

End Packer.

(** *** Instances *)

(** The theorem of X10 at the two-report store of [Builders]. *)
Lemma community_reports_are_selected_rows_witness :
  exists reports,
    (GlobalContext._get_community_reports_from_neo4j Builders.report_store
       (Builders.global_builder (Some "alice@example.com")) "apple" true (1 # 2)%Q true
       "occurrence" true).2 = Ok reports
    /\ sublist (map GlobalContext.id reports)
               (map GlobalContext.id [GlobalContext.apple_report; GlobalContext.banana_report])
    /\ (true = true -> (0 < 1 # 2)%Q ->
        Forall (fun r => (1 # 2 <= GlobalContext.rank r)%Q) reports)
    /\ (true = true ->
        Forall (fun r => is_Some (GlobalContext.attrs r !! "occurrence")) reports).
Proof.
  apply (community_reports_are_selected_rows Builders.report_store
           (Builders.global_builder (Some "alice@example.com")) true (1 # 2)%Q true
           "occurrence" true "apple"
           [GlobalContext.apple_report; GlobalContext.banana_report]).
  repeat constructor.
Defined.

(** The theorem of X12 with the identity as shuffle. *)
Lemma packed_rows_come_from_included_reports_witness :
  List.Forall
    (fun row =>
       exists r, In r [GlobalContext.apple_report; GlobalContext.banana_report]
         /\ row = (GlobalContext._report_context_text Builders.fixed_score true "|" false
                     true "occurrence" r).2
         /\ (GlobalContext.summary r <> "" \/ GlobalContext.full_content r <> ""))
    (GlobalContext.batch_records
       (GlobalContext.packed_batch Builders.word_count Builders.fixed_score
          (fun _ l => l) (fun _ df => df) Builders.plain_csv
          (Builders.global_builder None) true "|" true false "rank" true
          "occurrence" 8000%Z "Reports"
          [GlobalContext.apple_report; GlobalContext.banana_report])).
Proof.
  apply List.Forall_forall.
  apply (packed_rows_come_from_included_reports Builders.word_count Builders.fixed_score
           (fun _ l => l) (fun _ df => df) Builders.plain_csv Builders.concat_frames
           (Builders.global_builder None) true "|" true false "rank" true
           "occurrence" 8000%Z "Reports"
           [GlobalContext.apple_report; GlobalContext.banana_report]).
  intros seed l r H. exact H.
Defined.

(** The theorem of X13 with a sort that leaves the frame as it is. *)
Lemma at_most_one_batch_witness :
  length (GlobalContext._build_community_context Builders.word_count Builders.fixed_score
            (fun _ l => l) (fun _ df => df) Builders.plain_csv Builders.concat_frames
            (Builders.global_builder None) true "|" true false "rank" true
            "occurrence" 12%Z "Reports"
            [GlobalContext.apple_report; GlobalContext.banana_report]).1 <= 1.
Proof.
  apply (at_most_one_batch Builders.word_count Builders.fixed_score
           (fun _ l => l) (fun _ df => df) Builders.plain_csv Builders.concat_frames
           (Builders.global_builder None) true "|" true false "rank" true
           "occurrence" 12%Z "Reports"
           [GlobalContext.apple_report; GlobalContext.banana_report]).
  intros by_ df. split; reflexivity.
Defined.

End GlobalFacts.

(** ** Further properties of the local builder
       ([query/neo4j_local_context.py]) *)

Module LocalFacts.

Section Scoring.
Context {F : Type}.
Variable f0 : F.
Variable fmul fdiv : F -> F -> F.
Variable flt fle : F -> F -> bool.
Variable np_dot : list F -> list F -> res F.
Variable np_norm : list F -> F.
Variable str_score : F -> string.
Variable embed : string -> string -> res (list F).
Variable chunk_run : Neo4j.call -> res (list (LocalContext.chunk F)).
Variable self : LocalContext.Neo4jLocalContext.
Variable max_context_tokens : Z.

Let score_chunks :=
  LocalContext.score_chunks f0 fmul fdiv flt fle np_dot np_norm embed self.
Let get_chunks :=
  LocalContext.get_chunks_from_neo4j f0 fmul fdiv flt fle np_dot np_norm embed
    chunk_run self.
Let sort_desc := LocalContext.sort_desc flt.
Let insert_desc := LocalContext.insert_desc flt.
Let score (c : LocalContext.chunk F) : F := LocalContext.relevance_score c.

(** [a] is not ranked below [b]. *)
Definition not_below (a b : LocalContext.chunk F) : Prop :=
  flt (score a) (score b) = false.

(** The comparison of scores is a strict order whose complement is
    transitive, as [<] on numbers is. *)
Definition orders_scores : Prop :=
  (forall x y, flt x y = true -> flt y x = false)
  /\ (forall x y z, flt x y = false -> flt y z = false -> flt x z = false).

Lemma insert_desc_perm (c : LocalContext.chunk F) (l : list (LocalContext.chunk F)) :
  insert_desc c l ≡ₚ c :: l.
Proof.
  unfold insert_desc. induction l as [|d l IH]; simpl; [reflexivity|].
  destruct (flt _ _); [reflexivity|].
  destruct (flt _ _); [|reflexivity].
  rewrite IH. apply Permutation_swap.
Qed.

Lemma sort_desc_perm (l : list (LocalContext.chunk F)) : sort_desc l ≡ₚ l.
Proof.
  unfold sort_desc, LocalContext.sort_desc.
  induction l as [|c l IH]; simpl; [reflexivity|].
  etransitivity; [apply insert_desc_perm|]. now constructor.
Qed.

Lemma insert_desc_sorted (c : LocalContext.chunk F) (l : list (LocalContext.chunk F)) :
  orders_scores -> StronglySorted not_below l -> StronglySorted not_below (insert_desc c l).
Proof.
  intros [Hasym Htrans] Hs. unfold insert_desc.
  induction Hs as [|d l Hs IH Hd]; simpl; [repeat constructor|].
  destruct (flt (LocalContext.relevance_score d) (LocalContext.relevance_score c)) eqn:Hdc.
  - constructor; [now constructor|]. constructor.
    + apply Hasym. exact Hdc.
    + eapply Forall_impl; [exact Hd|]. intros x Hx. unfold not_below, score in *.
      eapply Htrans; [apply Hasym; exact Hdc | exact Hx].
  - destruct (flt (LocalContext.relevance_score c) (LocalContext.relevance_score d)) eqn:Hcd.
    + constructor; [exact IH|].
      eapply Permutation_Forall; [symmetry; apply insert_desc_perm|].
      constructor; [exact Hdc | exact Hd].
    + constructor; [now constructor|]. constructor; [exact Hcd|].
      eapply Forall_impl; [exact Hd|]. intros x Hx. unfold not_below, score in *.
      eapply Htrans; [exact Hcd | exact Hx].
Qed.

Lemma sort_desc_sorted (l : list (LocalContext.chunk F)) :
  orders_scores -> StronglySorted not_below (sort_desc l).
Proof.
  intros Hord. unfold sort_desc, LocalContext.sort_desc.
  induction l as [|c l IH]; simpl; [constructor|].
  apply insert_desc_sorted; assumption.
Qed.

Lemma filter_strongly_sorted {A : Type} (R : A -> A -> Prop) (f : A -> bool)
    (l : list A) :
  StronglySorted R l -> StronglySorted R (List.filter f l).
Proof.
  induction 1 as [|x l Hs IH Hx]; simpl; [constructor|].
  destruct (f x); [|exact IH]. constructor; [exact IH|].
  apply List.Forall_forall. intros y Hy. apply filter_In in Hy as [Hy _].
  rewrite List.Forall_forall in Hx. now apply Hx.
Qed.

Lemma mapM_res_length {A B : Type} (f : A -> res B) (l : list A) (k : list B) :
  mapM f l = Ok k -> length k = length l.
Proof.
  revert k. induction l as [|x l IH]; intros k; simpl.
  - intros [= <-]. reflexivity.
  - intros H. apply bind_Ok in H as (y & _ & H).
    apply bind_Ok in H as (k' & Hk' & H). injection H as <-.
    simpl. f_equal. now apply IH.
Qed.


(** X15.  When the embedding of the query cannot be computed, the
    retrieval still succeeds: it returns every chunk of the caller as the
    store gave it, in store order, unscored, and the threshold is not
    applied. *)
Theorem embedding_failure_returns_all_chunks (query : string)
    (relevance_score_threshold : F) (document_type : option string)
    (chunks : list (LocalContext.chunk F)) (err : exn) :
  Forall (fun c => chunk_run c = Ok chunks)
         (get_chunks query relevance_score_threshold document_type).1 ->
  (get_chunks query relevance_score_threshold document_type).1 <> [] ->
  embed query (LocalContext.openai_model self) = Raise err ->
  (get_chunks query relevance_score_threshold document_type).2 = Ok chunks.
Proof.
  unfold get_chunks, LocalContext.get_chunks_from_neo4j.
  destruct (has_scope_key (LocalContext.user_email self)) as [e|]; [|simpl; congruence].
  destruct (negb (LocalContext.has_openai_client self)); [simpl; congruence|].
  cbn [fst snd]. intros Hrun _ Hembed.
  inversion Hrun as [|c cs Hc _]; subst. rewrite Hc. simpl.
  destruct chunks as [|c0 rest]; [reflexivity|].
  unfold LocalContext.score_chunks. rewrite Hembed. reflexivity.
Qed.

End Scoring.

Section Packer.
Context {F : Type}.
Variable str_score : F -> string.
Variable self : LocalContext.Neo4jLocalContext.
Variable max_context_tokens : Z.

Let pack := LocalContext.pack str_score self max_context_tokens.
Let chunk_text (c : LocalContext.chunk F) : string :=
  (LocalContext._chunk_context_text str_score c).1.
Let text_tokens (c : LocalContext.chunk F) : nat :=
  LocalContext.chunk_token_count self (chunk_text c).

Lemma chunk_pack_longest_prefix (chunks : list (LocalContext.chunk F)) :
  forall p : LocalContext.packing,
  exists packed rest,
    chunks = packed ++ rest
    /\ LocalContext.current_context (pack chunks p)
       = LocalContext.current_context p ++ map chunk_text packed
    /\ LocalContext.current_tokens (pack chunks p)
       = LocalContext.current_tokens p + sum_list (map text_tokens packed)
    /\ match rest with
       | [] => True
       | c :: _ =>
           LocalContext.current_context (pack chunks p) <> []
           /\ (max_context_tokens
               < Z.of_nat (LocalContext.current_tokens (pack chunks p) + text_tokens c))%Z
       end
    /\ (LocalContext.current_context p <> [] -> packed <> [] ->
        (Z.of_nat (LocalContext.current_tokens (pack chunks p)) <= max_context_tokens)%Z)
    /\ (length packed <= 1
        \/ (Z.of_nat (LocalContext.current_tokens (pack chunks p))
            <= max_context_tokens)%Z).
Proof.
  unfold pack, text_tokens, chunk_text.
  induction chunks as [|c rest IH]; intros p.
  - exists [], []. simpl. rewrite app_nil_r, Nat.add_0_r.
    split; [reflexivity|]. split; [reflexivity|]. split; [reflexivity|].
    split; [exact I|]. split; [congruence | left; lia].
  - cbn [LocalContext.pack].
    destruct (LocalContext._chunk_context_text str_score c) as [context_text record] eqn:Hc.
    assert (Etok : LocalContext.chunk_token_count self
                     (LocalContext._chunk_context_text str_score c).1
                   = LocalContext.chunk_token_count self context_text) by now rewrite Hc.
    destruct ((max_context_tokens
               <? Z.of_nat (LocalContext.current_tokens p
                            + LocalContext.chunk_token_count self context_text))%Z
              && negb (bool_decide (LocalContext.current_context p = []))) eqn:Hstop.
    + exists [], (c :: rest). cbn [app map sum_list sum_list_with].
      rewrite app_nil_r, Nat.add_0_r.
      apply andb_true_iff in Hstop as [Hover Hctx].
      apply negb_true_iff, bool_decide_eq_false in Hctx. apply Z.ltb_lt in Hover.
      split; [reflexivity|]. split; [reflexivity|]. split; [reflexivity|].
      split; [|split; [congruence | left; simpl; lia]].
      split; [exact Hctx|]. rewrite Etok. exact Hover.
    + destruct (IH (LocalContext.Packing
                      (LocalContext.current_context p ++ [context_text])
                      (LocalContext.current_records p ++ [record])
                      (LocalContext.current_tokens p
                       + LocalContext.chunk_token_count self context_text)))
        as (packed & rest' & Hsplit & Hctx & Htok & Hnext & Hfits & _).
      exists (c :: packed), rest'.
      cbn [LocalContext.current_context LocalContext.current_tokens] in *.
      assert (Hgrown : LocalContext.current_context p ++ [context_text] <> []).
      { destruct (LocalContext.current_context p); discriminate. }
      split; [simpl; now rewrite Hsplit|].
      split; [rewrite Hctx; cbn [map]; rewrite Hc; cbn [fst]; now rewrite <- app_assoc|].
      split; [|split; [exact Hnext|split]].
      * rewrite Htok. cbn [map sum_list sum_list_with]. unfold Datatypes.id.
        rewrite Etok. lia.
      * intros Hp _. destruct packed as [|c' packed']; [|apply Hfits; congruence].
        rewrite Htok. cbn [map sum_list sum_list_with].
        apply andb_false_iff in Hstop as [Hover|Hempty].
        -- apply Z.ltb_ge in Hover. lia.
        -- apply negb_false_iff, bool_decide_eq_true in Hempty. contradiction.
      * destruct packed as [|c' packed']; [left; simpl; lia|].
        right. apply Hfits; [exact Hgrown | congruence].
Qed.

(** X16.  The chunk packer is greedy and keeps order: the packed texts are
    those of a prefix of the included chunks; the token sum of the prefix
    is within [max_context_tokens] unless it holds a single chunk (the
    first chunk is packed whatever its size); the chunk that follows the
    prefix, if any, would take the token sum over the ceiling.  So the
    prefix is the longest one that fits, the first chunk counting as
    fitting.  When the token sum of all included chunks fits, all of them
    are packed. *)
Theorem chunk_packer_longest_prefix (chunks_data : list (LocalContext.chunk F)) :
  let included := List.filter LocalContext._is_included chunks_data in
  let p := pack included (LocalContext.Packing [] [] 0) in
  (exists packed rest,
      included = packed ++ rest
      /\ LocalContext.current_context p = map chunk_text packed
      /\ match rest with
         | [] => True
         | c :: _ =>
             packed <> []
             /\ (max_context_tokens
                 < Z.of_nat (sum_list (map text_tokens packed) + text_tokens c))%Z
         end
      /\ (length packed <= 1
          \/ (Z.of_nat (sum_list (map text_tokens packed)) <= max_context_tokens)%Z))
  /\ ((Z.of_nat (sum_list (map text_tokens included)) <= max_context_tokens)%Z ->
      LocalContext.current_context p = map chunk_text included).
Proof.
  intros included p.
  destruct (chunk_pack_longest_prefix included (LocalContext.Packing [] [] 0))
    as (packed & rest & Hsplit & Hctx & Htok & Hnext & _ & Hfits).
  fold p in Hctx, Htok, Hnext, Hfits. simpl in Hctx, Htok.
  split.
  - exists packed, rest. split; [exact Hsplit|]. split; [exact Hctx|].
    split; [|now rewrite <- Htok].
    destruct rest as [|c rest']; [exact I|]. destruct Hnext as [Hne Hover].
    split; [|now rewrite <- Htok].
    intros ->. apply Hne. exact Hctx.
  - intros Hfit. destruct rest as [|c rest'].
    + rewrite app_nil_r in Hsplit. now rewrite Hsplit.
    + exfalso. destruct Hnext as [_ Hover]. rewrite Htok in Hover.
      rewrite Hsplit in Hfit. rewrite map_app, sum_list_with_app in Hfit.
      cbn [map sum_list sum_list_with] in Hfit. unfold Datatypes.id in Hfit.
      change (sum_list_with (fun x => x) (map text_tokens packed))
        with (sum_list (map text_tokens packed)) in Hfit.
      lia.
Qed.

End Packer.

End LocalFacts.

(** ** The top documents of a query
       ([Neo4jLocalContext.get_top_k_documents]) *)

Module TopDocuments.

Section TopK.
Context {F : Type}.
Variable f0 : F.
Variable fadd fmul fdiv : F -> F -> F.
Variable flt fle : F -> F -> bool.
Variable np_dot : list F -> list F -> res F.
Variable np_norm : list F -> F.
Variable embed : string -> string -> res (list F).
Variable chunk_run : Neo4j.call -> res (list (LocalContext.chunk F)).
Variable self : LocalContext.Neo4jLocalContext.

(** The default [relevance_score_threshold] of the retrieval, [0.3]. *)
Variable default_threshold : F.

(** [top_k_docs], a dictionary in insertion order:
    [top_k_docs[title] += score], or a new entry at the end. *)
Fixpoint add_score (doc_title : string) (s : F) (docs : list (string * F))
    : list (string * F) :=
  match docs with
  | [] => [(doc_title, s)]
  | (t, total) :: rest =>
      if decide (t = doc_title) then (t, fadd total s) :: rest
      else (t, total) :: add_score doc_title s rest
  end.

(** The loop over the chunks; [chunk.get("document_titles")[0]] fails on a
    chunk that belongs to no document. *)
Fixpoint tally (chunks : list (LocalContext.chunk F)) (docs : list (string * F))
    : res (list (string * F)) :=
  match chunks with
  | [] => Ok docs
  | c :: rest =>
      match LocalContext.document_titles c with
      | [] => Raise (IndexError "list index out of range")
      | doc_title :: _ =>
          tally rest (add_score doc_title (LocalContext.relevance_score c) docs)
      end
  end.

(** [sorted(items, key=lambda x: x[1], reverse=True)]: stable, greatest
    total first. *)
Fixpoint insert_doc (d : string * F) (sorted : list (string * F)) : list (string * F) :=
  match sorted with
  | [] => [d]
  | e :: rest =>
      if flt e.2 d.2 then d :: sorted
      else if flt d.2 e.2 then e :: insert_doc d rest
      else d :: sorted
  end.

Definition sort_docs (docs : list (string * F)) : list (string * F) :=
  foldr insert_doc [] docs.

(** [l[:k]] for an integer [k]: a negative [k] counts from the end. *)
Definition slice_to {A : Type} (k : Z) (l : list A) : list A :=
  if (0 <=? k)%Z then take (Z.to_nat k) l
  else take (length l - Z.to_nat (- k)) l.

Definition get_top_k_documents (query : string) (k : Z)
    (document_type : option string) : Neo4j.traced (list string) :=
  let '(trace, retrieved) :=
    LocalContext.get_chunks_from_neo4j f0 fmul fdiv flt fle np_dot np_norm embed
      chunk_run self query default_threshold document_type in
  (trace,
   chunks ← retrieved;
   top_k_docs ← tally chunks [];
   let sorted_docs := sort_docs top_k_docs in
   Ok (map fst (slice_to k sorted_docs))).

(** *** Facts *)

Definition first_title (c : LocalContext.chunk F) : option string :=
  head (LocalContext.document_titles c).

Lemma add_score_keys (doc_title : string) (s : F) (docs : list (string * F)) :
  map fst (add_score doc_title s docs)
  = if bool_decide (doc_title ∈ map fst docs) then map fst docs
    else map fst docs ++ [doc_title].
Proof.
  induction docs as [|[t total] rest IH]; cbn [add_score map fst].
  - rewrite bool_decide_eq_false_2 by apply not_elem_of_nil. reflexivity.
  - destruct (decide (t = doc_title)) as [->|Hne]; cbn [map fst].
    + rewrite bool_decide_eq_true_2 by apply list_elem_of_here. reflexivity.
    + rewrite IH. case_bool_decide as H1; case_bool_decide as H2; try reflexivity;
        exfalso.
      * apply H2. now apply list_elem_of_further.
      * apply elem_of_cons in H2 as [H2|H2]; [congruence | contradiction].
Qed.

Lemma add_score_nodup (doc_title : string) (s : F) (docs : list (string * F)) :
  List.NoDup (map fst docs) -> List.NoDup (map fst (add_score doc_title s docs)).
Proof.
  intros H. rewrite add_score_keys. case_bool_decide as Hin; [exact H|].
  apply NoDup_ListNoDup. apply NoDup_app. split; [now apply NoDup_ListNoDup|].
  split; [|apply NoDup_singleton].
  intros x Hx Hx'. apply list_elem_of_singleton in Hx' as ->. contradiction.
Qed.

Lemma add_score_in (doc_title : string) (s : F) (docs : list (string * F)) (t : string) :
  In t (map fst (add_score doc_title s docs)) <-> In t (map fst docs) \/ t = doc_title.
Proof.
  rewrite add_score_keys. case_bool_decide as Hin.
  - split; [tauto|]. intros [H| ->]; [exact H | now apply list_elem_of_In].
  - rewrite in_app_iff. simpl. split; intros [H|H]; auto.
    destruct H as [->|[]]. now right.
Qed.

Lemma tally_spec (chunks : list (LocalContext.chunk F)) :
  forall docs : list (string * F),
    Forall (fun c => LocalContext.document_titles c <> []) chunks ->
    exists docs', tally chunks docs = Ok docs'
      /\ (List.NoDup (map fst docs) -> List.NoDup (map fst docs'))
      /\ (forall t, In t (map fst docs')
            <-> In t (map fst docs) \/ exists c, In c chunks /\ first_title c = Some t).
Proof.
  induction chunks as [|c rest IH]; intros docs Hall; simpl.
  - exists docs. split; [reflexivity|]. split; [auto|].
    intros t. split; [auto|]. intros [H|(c & [] & _)]. exact H.
  - inversion Hall as [|? ? Hc Hrest]; subst.
    destruct (LocalContext.document_titles c) as [|doc_title others] eqn:Ht; [congruence|].
    destruct (IH (add_score doc_title (LocalContext.relevance_score c) docs) Hrest)
      as (docs' & -> & Hnd & Hin).
    exists docs'. split; [reflexivity|]. split.
    + intros H. apply Hnd. now apply add_score_nodup.
    + intros t. rewrite Hin, add_score_in. unfold first_title. split.
      * intros [[H| ->]|(c' & Hc' & E)]; auto.
        -- right. exists c. split; [now left|]. now rewrite Ht.
        -- right. exists c'. split; [now right | exact E].
      * intros [H|(c' & [<-|Hc'] & E)]; auto.
        -- left. right. rewrite Ht in E. simpl in E. congruence.
        -- right. exists c'. split; assumption.
Qed.

Lemma tally_raises (chunks : list (LocalContext.chunk F)) :
  forall docs : list (string * F),
    Exists (fun c => LocalContext.document_titles c = []) chunks ->
    tally chunks docs = Raise (IndexError "list index out of range").
Proof.
  induction chunks as [|c rest IH]; intros docs Hex; simpl.
  - inversion Hex.
  - destruct (LocalContext.document_titles c) as [|doc_title others] eqn:Ht;
      [reflexivity|].
    apply IH. inversion Hex as [? ? H|? ? H]; subst; [congruence | exact H].
Qed.

Lemma insert_doc_perm (d : string * F) (l : list (string * F)) :
  insert_doc d l ≡ₚ d :: l.
Proof.
  induction l as [|e l IH]; simpl; [reflexivity|].
  destruct (flt _ _); [reflexivity|].
  destruct (flt _ _); [|reflexivity].
  rewrite IH. apply Permutation_swap.
Qed.

Lemma sort_docs_perm (l : list (string * F)) : sort_docs l ≡ₚ l.
Proof.
  unfold sort_docs. induction l as [|d l IH]; simpl; [reflexivity|].
  etransitivity; [apply insert_doc_perm|]. now constructor.
Qed.

Lemma length_omap_le {A B : Type} (f : A -> option B) (l : list A) :
  length (omap f l) <= length l.
Proof.
  induction l as [|x l IH]; csimpl; [lia|]. destruct (f x); csimpl; lia.
Qed.

Lemma slice_to_sublist {A : Type} (k : Z) (l : list A) : sublist (slice_to k l) l.
Proof. unfold slice_to. destruct (0 <=? k)%Z; apply sublist_take. Qed.

Lemma slice_to_length {A : Type} (k : Z) (l : list A) :
  (0 <= k)%Z -> length (slice_to k l) = Nat.min (Z.to_nat k) (length l).
Proof.
  intros Hk. unfold slice_to. apply Z.leb_le in Hk. rewrite Hk. apply length_take.
Qed.

(** X17.  [get_top_k_documents], given the chunks the retrieval returns:
    if some chunk belongs to no document the call raises [IndexError];
    otherwise it returns document titles without repetition, each the first
    title of a retrieved chunk, at most [k] of them for [k >= 0], and all
    of them when [k] is at least the number of chunks. *)
Theorem top_k_documents_spec (query : string) (k : Z) (document_type : option string)
    (chunks : list (LocalContext.chunk F)) :
  (LocalContext.get_chunks_from_neo4j f0 fmul fdiv flt fle np_dot np_norm embed
     chunk_run self query default_threshold document_type).2 = Ok chunks ->
  (Exists (fun c => LocalContext.document_titles c = []) chunks ->
   (get_top_k_documents query k document_type).2
   = Raise (IndexError "list index out of range"))
  /\ (Forall (fun c => LocalContext.document_titles c <> []) chunks ->
      exists titles,
        (get_top_k_documents query k document_type).2 = Ok titles
        /\ List.NoDup titles
        /\ (forall t, In t titles -> exists c, In c chunks /\ first_title c = Some t)
        /\ ((0 <= k)%Z -> (Z.of_nat (length titles) <= k)%Z)
        /\ ((Z.of_nat (length chunks) <= k)%Z ->
            forall c t, In c chunks -> first_title c = Some t -> In t titles)).
Proof.
  intros Hret. unfold get_top_k_documents.
  destruct (LocalContext.get_chunks_from_neo4j f0 fmul fdiv flt fle np_dot np_norm embed
              chunk_run self query default_threshold document_type)
    as [trace retrieved].
  cbn [snd] in *. subst retrieved. simpl. split.
  - intros Hex. now rewrite (tally_raises chunks [] Hex).
  - intros Hall. destruct (tally_spec chunks [] Hall) as (docs & -> & Hnd & Hin).
    simpl. eexists. split; [reflexivity|].
    specialize (Hnd (List.NoDup_nil _)).
    assert (Hsorted : List.NoDup (map fst (sort_docs docs))).
    { apply NoDup_ListNoDup. rewrite (sort_docs_perm docs). now apply NoDup_ListNoDup. }
    assert (Hsub : sublist (map fst (slice_to k (sort_docs docs)))
                           (map fst (sort_docs docs))).
    { apply (fmap_sublist fst). apply slice_to_sublist. }
    assert (Hkeys : forall t, In t (map fst (sort_docs docs))
                              <-> exists c, In c chunks /\ first_title c = Some t).
    { intros t. rewrite <- !list_elem_of_In. rewrite (sort_docs_perm docs).
      rewrite list_elem_of_In, Hin. simpl. tauto. }
    split; [|split; [|split]].
    + apply NoDup_ListNoDup. eapply sublist_NoDup; [|exact Hsub].
      now apply NoDup_ListNoDup.
    + intros t Ht. apply Hkeys. apply list_elem_of_In.
      eapply (sublist_subseteq _ _ Hsub). now apply list_elem_of_In.
    + intros Hk. rewrite length_map, slice_to_length by exact Hk. lia.
    + intros Hk c t Hc Ht.
      assert (Hlen : length docs <= length chunks).
      { assert (Hd : length (map fst docs) <= length chunks).
        { apply NoDup_ListNoDup in Hnd.
          assert (Hincl : map fst docs ⊆ omap first_title chunks).
          { intros x Hx. apply list_elem_of_In, Hin in Hx as [[]|(c' & Hc' & E)].
            apply list_elem_of_omap. exists c'.
            split; [now apply list_elem_of_In | exact E]. }
          etransitivity; [apply (submseteq_length _ (omap first_title chunks))|].
          - now apply NoDup_submseteq.
          - apply length_omap_le. }
        now rewrite length_map in Hd. }
      assert (Hall' : slice_to k (sort_docs docs) = sort_docs docs).
      { unfold slice_to. assert (Hk0 : (0 <= k)%Z) by lia.
        apply Z.leb_le in Hk0. rewrite Hk0. apply take_ge.
        rewrite (Permutation_length (sort_docs_perm docs)). lia. }
      rewrite Hall'. apply Hkeys. eauto.
Qed.

End TopK.

End TopDocuments.

(** ** The scoping key on the wire *)

Module ScopeFacts.

Section Scoped.
Context {F : Type}.
Variable f0 : F.
Variable fmul fdiv : F -> F -> F.
Variable flt fle : F -> F -> bool.
Variable np_dot : list F -> list F -> res F.
Variable np_norm : list F -> F.
Variable str_score : F -> string.
Variable embed : string -> string -> res (list F).
Variable chunk_run : Neo4j.call -> res (list (LocalContext.chunk F)).
Variable num_tokens : string -> nat.
Variable str_num : Q -> string.
Variable shuffle : Z -> list GlobalContext.report -> list GlobalContext.report.
Variable sort_values : list string -> DataFrame -> DataFrame.
Variable to_csv : DataFrame -> string -> string.
Variable pd_concat : list DataFrame -> DataFrame.
Variable report_run : Neo4j.call -> res (list GlobalContext.report).
Variable local_self : LocalContext.Neo4jLocalContext.
Variable global_self : GlobalContext.Neo4jGlobalCommunityContext.
Variable use_community_summary : bool.
Variable column_delimiter : string.
Variable shuffle_data : bool.
Variable include_community_rank : bool.
Variable min_community_rank : Q.
Variable community_rank_name : string.
Variable include_community_weight : bool.
Variable community_weight_name : string.
Variable normalize_community_weight : bool.
Variable max_context_tokens : Z.
Variable context_name : string.
Variable relevance_score_threshold : F.

Let local_build_context :=
  LocalContext.build_context f0 fmul fdiv flt fle np_dot np_norm str_score embed
    chunk_run local_self max_context_tokens relevance_score_threshold.
Let global_build_context :=
  GlobalContext.build_context num_tokens str_num shuffle sort_values to_csv pd_concat
    report_run global_self use_community_summary column_delimiter shuffle_data
    include_community_rank min_community_rank community_rank_name
    include_community_weight community_weight_name normalize_community_weight
    max_context_tokens context_name.

(** The call filters on [$user_email] and binds it to [email]. *)
Definition scoped_to (email : string) (c : Neo4j.call) : Prop :=
  Neo4j.scoped c = true /\ Neo4j.parameters c !! "user_email" = Some (Some email).

(** X18.  With a scoping key, every query that [build_context] sends to
    the store, in either builder, filters on [$user_email] and binds that
    parameter to the caller's key; the global builder sends exactly one
    query, the local builder at most one. *)
Theorem build_context_queries_are_scoped (local_email global_email query : string)
    (conversation_history : option (string * gmap string DataFrame)) :
  has_scope_key (LocalContext.user_email local_self) = Some local_email ->
  has_scope_key (GlobalContext.user_email global_self) = Some global_email ->
  Forall (scoped_to local_email) (local_build_context query conversation_history).1
  /\ length (local_build_context query conversation_history).1 <= 1
  /\ Forall (scoped_to global_email) (global_build_context query conversation_history).1
  /\ length (global_build_context query conversation_history).1 = 1.
Proof.
  intros Hl Hg.
  assert (L : Forall (scoped_to local_email)
                (local_build_context query conversation_history).1
              /\ length (local_build_context query conversation_history).1 <= 1).
  { unfold local_build_context, LocalContext.build_context,
      LocalContext.get_chunks_from_neo4j. rewrite Hl.
    destruct (negb (LocalContext.has_openai_client local_self));
      destruct conversation_history as [[text data]|]; cbn [fst];
      (split; [|simpl; lia]); repeat constructor;
      simpl; apply lookup_insert_eq. }
  assert (G : Forall (scoped_to global_email)
                (global_build_context query conversation_history).1
              /\ length (global_build_context query conversation_history).1 = 1).
  { unfold global_build_context, GlobalContext.build_context,
      GlobalContext._get_community_reports_from_neo4j. rewrite Hg.
    destruct conversation_history as [[text data]|]; cbn [fst];
      (split; [|reflexivity]); repeat constructor;
      simpl; apply lookup_singleton_eq. }
  tauto.
Qed.

End Scoped.

End ScopeFacts.

(** ** Instances for the local builder *)

Module LocalInstances.

Lemma q_lt_orders_scores :
  (forall x y, Builders.q_lt x y = true -> Builders.q_lt y x = false)
  /\ (forall x y z, Builders.q_lt x y = false -> Builders.q_lt y z = false ->
                    Builders.q_lt x z = false).
Proof.
  unfold Builders.q_lt. split.
  - intros x y H. apply negb_true_iff in H. apply negb_false_iff, Qle_bool_iff.
    destruct (Qlt_le_dec x y) as [Hlt|Hle]; [now apply Qlt_le_weak|].
    apply Qle_bool_iff in Hle. congruence.
  - intros x y z H1 H2. apply negb_false_iff, Qle_bool_iff in H1.
    apply negb_false_iff, Qle_bool_iff in H2.
    apply negb_false_iff, Qle_bool_iff. eapply Qle_trans; eassumption.
Qed.

Definition alice : LocalContext.Neo4jLocalContext :=
  Builders.local_builder (Some "alice@example.com").

(** An embedding service that maps every text to the unit vector [[1]]. *)
Definition unit_embed (_ _ : string) : res (list Q) := Ok [1%Q].

Definition doc_chunk (id title : string) (weight : Q) : LocalContext.chunk Q :=
  LocalContext.Chunk id "some text" [] [] [] [title; "appendix"] (Some [weight]) weight.

Definition doc_chunks : list (LocalContext.chunk Q) :=
  [doc_chunk "a1" "report.pdf" (1 # 2); doc_chunk "b1" "notes.txt" (9 # 10);
   doc_chunk "a2" "report.pdf" (3 # 5); doc_chunk "c1" "draft.md" (1 # 10)].

Definition doc_store (_ : Neo4j.call) : res (list (LocalContext.chunk Q)) :=
  Ok doc_chunks.


(** The theorem of X15 at an embedding service that is down. *)
Lemma embedding_failure_returns_all_chunks_witness :
  (LocalContext.get_chunks_from_neo4j 0%Q Qmult Qdiv Builders.q_lt Qle_bool
     Builders.q_dot (fun _ => 1%Q) Builders.offline_embed doc_store alice
     "query" (3 # 10)%Q None).2 = Ok doc_chunks.
Proof.
  apply (LocalFacts.embedding_failure_returns_all_chunks 0%Q Qmult Qdiv Builders.q_lt
           Qle_bool Builders.q_dot (fun _ => 1%Q) Builders.offline_embed doc_store alice
           "query" (3 # 10)%Q None doc_chunks
           (ExternalError "embedding service unavailable")).
  - repeat constructor.
  - discriminate.
  - reflexivity.
Defined.

Definition top_documents (k : Z) : res (list string) :=
  (TopDocuments.get_top_k_documents 0%Q Qplus Qmult Qdiv Builders.q_lt Qle_bool
     Builders.q_dot (fun _ => 1%Q) Builders.offline_embed doc_store alice (3 # 10)%Q
     "query" k None).2.

(** The theorem of X17 at the four chunks above. *)
Lemma top_k_documents_spec_witness :
  (Exists (fun c => LocalContext.document_titles c = []) doc_chunks ->
   top_documents 2 = Raise (IndexError "list index out of range"))
  /\ (Forall (fun c => LocalContext.document_titles c <> []) doc_chunks ->
      exists titles,
        top_documents 2 = Ok titles
        /\ List.NoDup titles
        /\ (forall t, In t titles ->
              exists c, In c doc_chunks /\ TopDocuments.first_title c = Some t)
        /\ ((0 <= 2)%Z -> (Z.of_nat (length titles) <= 2)%Z)
        /\ ((Z.of_nat (length doc_chunks) <= 2)%Z ->
            forall c t, In c doc_chunks -> TopDocuments.first_title c = Some t ->
                        In t titles)).
Proof.
  apply (TopDocuments.top_k_documents_spec 0%Q Qplus Qmult Qdiv Builders.q_lt Qle_bool
           Builders.q_dot (fun _ => 1%Q) Builders.offline_embed doc_store alice
           (3 # 10)%Q "query" 2%Z None doc_chunks).
  reflexivity.
Defined.

(** Totals 11/10 for the report, 9/10 for the notes, 1/10 for the draft. *)
Example top_documents_values :
  top_documents 2 = Ok ["report.pdf"; "notes.txt"]
  /\ top_documents 0 = Ok []
  /\ top_documents (-1) = Ok ["report.pdf"; "notes.txt"]
  /\ top_documents 10 = Ok ["report.pdf"; "notes.txt"; "draft.md"].
Proof. repeat split; vm_compute; reflexivity. Qed.

(** The theorem of X18 at two builders of the same caller. *)
Lemma build_context_queries_are_scoped_witness :
  Forall (ScopeFacts.scoped_to "alice@example.com")
    (LocalContext.build_context 0%Q Qmult Qdiv Builders.q_lt Qle_bool Builders.q_dot
       (fun _ => 1%Q) Builders.fixed_score Builders.offline_embed doc_store alice
       8000%Z (3 # 10)%Q "query" None).1
  /\ length (LocalContext.build_context 0%Q Qmult Qdiv Builders.q_lt Qle_bool
               Builders.q_dot (fun _ => 1%Q) Builders.fixed_score Builders.offline_embed
               doc_store alice 8000%Z (3 # 10)%Q "query" None).1 <= 1
  /\ Forall (ScopeFacts.scoped_to "alice@example.com")
       (GlobalContext.build_context Builders.word_count Builders.fixed_score
          (fun _ l => l) (fun _ df => df) Builders.plain_csv Builders.concat_frames
          Builders.report_store (Builders.global_builder (Some "alice@example.com"))
          true "|" true false 0%Q "rank" true "occurrence" true 8000%Z "Reports"
          "query" None).1
  /\ length (GlobalContext.build_context Builders.word_count Builders.fixed_score
               (fun _ l => l) (fun _ df => df) Builders.plain_csv Builders.concat_frames
               Builders.report_store (Builders.global_builder (Some "alice@example.com"))
               true "|" true false 0%Q "rank" true "occurrence" true 8000%Z "Reports"
               "query" None).1 = 1.
Proof.
  apply (ScopeFacts.build_context_queries_are_scoped 0%Q Qmult Qdiv Builders.q_lt
           Qle_bool Builders.q_dot (fun _ => 1%Q) Builders.fixed_score
           Builders.offline_embed doc_store Builders.word_count Builders.fixed_score
           (fun _ l => l) (fun _ df => df) Builders.plain_csv Builders.concat_frames
           Builders.report_store alice (Builders.global_builder (Some "alice@example.com"))
           true "|" true false 0%Q "rank" true "occurrence" true 8000%Z "Reports"
           (3 # 10)%Q "alice@example.com" "alice@example.com" "query" None);
    reflexivity.
Defined.

End LocalInstances.

(** ** Authentication ([auth/security.py]) *)

Module Auth.

(** [fastapi.HTTPException]. *)
Inductive http_exception : Type :=
  | HTTPException (status_code : Z) (detail : string).

(** The values a property of a user node can hold; [PNone] is also what
    [node.get] returns for a property the node lacks. *)
Inductive py_prop : Type :=
  | PNone
  | PStr (s : string)
  | PBool (b : bool)
  | PInt (n : Z).

(** [bool(v)]. *)
Definition py_bool (v : py_prop) : bool :=
  match v with
  | PNone => false
  | PStr s => Py.truthy s
  | PBool b => b
  | PInt n => negb (n =? 0)%Z
  end.

Record user_node : Type := UserNode {
  node_id : Z;
  properties : gmap string py_prop
}.

Definition node_get (n : user_node) (key : string) : py_prop :=
  default PNone (properties n !! key).

Record UserData : Type := MkUserData {
  id : string;
  displayName : py_prop;
  email : py_prop;
  createdOn : py_prop;
  status : py_prop;
  hasGraph : bool
}.

(** [UserAuthService]: whether [self.driver] is set. *)
Record UserAuthService : Type := {
  has_driver : bool
}.

(** What [verify_user_status] does: a verdict, or the [AttributeError] of
    [.lower()] on a status that is not a string. *)
Inductive status_check : Type :=
  | Verdict (active : bool)
  | AttributeError.

Section Security.
(** [str] on a node identifier. *)
Variable str_int : Z -> string.
(** [session.run(query, email=email)] followed by [result.single()]. *)
Variable session_run : Neo4j.call -> res (option user_node).
Variable auth_service : UserAuthService.

Definition user_query (address : string) : Neo4j.call :=
  Neo4j.Call (Neo4j.raw "MATCH (u:User {email: $email}) RETURN u LIMIT 1")
             {[ "email" := Some address ]}.

Definition user_data (n : user_node) : UserData :=
  {| id := str_int (node_id n);
     displayName := node_get n "displayName";
     email := node_get n "email";
     createdOn := node_get n "createdOn";
     status := node_get n "status";
     hasGraph := py_bool (node_get n "hasGraph") |}.

(** [get_user_by_email]: every failure of the store is logged and turned
    into [None]. *)
Definition get_user_by_email (self : UserAuthService) (address : string)
    : list Neo4j.call * option UserData :=
  if negb (has_driver self) then ([], None)
  else
    ([user_query address],
     match session_run (user_query address) with
     | Ok (Some n) => Some (user_data n)
     | Ok None => None
     | Raise _ => None
     end).

(** [verify_user_status].  The dictionary built by [get_user_by_email]
    always has the key [status], so the default of [user.get] is never
    used. *)
Definition verify_user_status (user : option UserData) : status_check :=
  match user with
  | None => Verdict false
  | Some u =>
      match status u with
      | PStr s => Verdict (String.eqb (Py.lower s) "active")
      | PNone | PBool _ | PInt _ => AttributeError
      end
  end.

(** [get_current_user]: the calls sent to the store, and the exception
    raised or the user returned. *)
Definition get_current_user (address : string)
    : list Neo4j.call * (http_exception + UserData) :=
  if negb (Py.truthy address) || negb (Py.contains "@" address)
  then ([], inl (HTTPException 401 "Invalid email format"))
  else
    let '(calls, user) := get_user_by_email auth_service address in
    match user with
    | None => (calls, inl (HTTPException 401 "User not found in database"))
    | Some u =>
        match verify_user_status (Some u) with
        | AttributeError =>
            (calls, inl (HTTPException 500 "Internal authentication error"))
        | Verdict false =>
            (calls, inl (HTTPException 401 "User account is not active"))
        | Verdict true => (calls, inr u)
        end
    end.

(** The store has an active user for [address]: the lookup returns a node
    whose status is a string that reads [active], whatever its case. *)
Definition active_node (address : string) (n : user_node) : Prop :=
  session_run (user_query address) = Ok (Some n)
  /\ exists s, node_get n "status" = PStr s /\ Py.lower s = "active".

(** X19.  [get_current_user] returns a user exactly when the address
    contains [@], the driver is set and the store's lookup for that
    address gives a node with an active status; the user returned is that
    node's data.  It sends at most one query, the lookup bound to the
    address, and none for an address without [@].  Every failure is an
    HTTP 401, except a node whose status is not a string, which is a 500;
    a store that raises is a 401 [User not found in database]. *)
Theorem get_current_user_spec (address : string) :
  (forall u, (get_current_user address).2 = inr u <->
     Py.contains "@" address = true /\ has_driver auth_service = true
     /\ exists n, active_node address n /\ u = user_data n)
  /\ ((get_current_user address).1 = []
      \/ (get_current_user address).1 = [user_query address])
  /\ (Py.contains "@" address = false ->
      get_current_user address = ([], inl (HTTPException 401 "Invalid email format")))
  /\ (forall code detail,
        (get_current_user address).2 = inl (HTTPException code detail) ->
        code = 401%Z
        \/ code = 500%Z
           /\ exists n, session_run (user_query address) = Ok (Some n)
                        /\ forall s, node_get n "status" <> PStr s)
  /\ (forall e, session_run (user_query address) = Raise e ->
        Py.contains "@" address = true -> has_driver auth_service = true ->
        (get_current_user address).2
        = inl (HTTPException 401 "User not found in database")).
Proof.
  assert (Hempty : Py.truthy address = false -> Py.contains "@" address = false).
  { destruct address; [reflexivity | discriminate]. }
  unfold get_current_user, get_user_by_email, verify_user_status, active_node.
  destruct (Py.truthy address) eqn:Ht; cycle 1.
  { rewrite (Hempty eq_refl). simpl.
    split; [|split; [|split; [|split]]]; try discriminate; auto.
    - intros u. split; [discriminate | intros (? & _); discriminate].
    - intros code detail [= <- _]. now left. }
  destruct (Py.contains "@" address) eqn:Hc; cycle 1.
  { simpl. split; [|split; [|split; [|split]]]; try discriminate; auto.
    - intros u. split; [discriminate | intros (? & _); discriminate].
    - intros code detail [= <- _]. now left. }
  destruct (has_driver auth_service) eqn:Hd; cycle 1.
  { simpl. split; [|split; [|split; [|split]]]; try discriminate; auto.
    - intros u. split; [discriminate | intros (_ & ? & _); discriminate].
    - intros code detail [= <- _]. now left. }
  simpl.
  destruct (session_run (user_query address)) as [[n|]|e] eqn:Hrun.
  - cbn [status user_data].
    destruct (node_get n "status") as [|s|b|z] eqn:Hs.
    + split; [|split; [|split; [|split]]]; try discriminate; auto.
      * intros u. split; [discriminate|].
        intros (_ & _ & n' & (Hn & s & Hs' & _) & _). congruence.
      * intros code detail [= <- _]. right. split; [reflexivity|].
        exists n. split; [reflexivity|]. congruence.
    + destruct (String.eqb_spec (Py.lower s) "active") as [Ha|Ha].
      * split; [|split; [|split; [|split]]]; try discriminate; auto.
        intros u. split.
        -- intros [= <-]. split; [reflexivity|]. split; [reflexivity|].
           exists n. split; [|reflexivity]. split; [reflexivity|]. eauto.
        -- intros (_ & _ & n' & (Hn & _) & ->).
           injection Hn as <-. reflexivity.
      * split; [|split; [|split; [|split]]]; try discriminate; auto.
        -- intros u. split; [discriminate|].
           intros (_ & _ & n' & (Hn & s' & Hs' & Hl) & _).
           assert (n' = n) as -> by congruence. congruence.
        -- intros code detail [= <- _]. now left.
    + split; [|split; [|split; [|split]]]; try discriminate; auto.
      * intros u. split; [discriminate|].
        intros (_ & _ & n' & (Hn & s & Hs' & _) & _).
        assert (n' = n) as -> by congruence. congruence.
      * intros code detail [= <- _]. right. split; [reflexivity|].
        exists n. split; [reflexivity|]. congruence.
    + split; [|split; [|split; [|split]]]; try discriminate; auto.
      * intros u. split; [discriminate|].
        intros (_ & _ & n' & (Hn & s & Hs' & _) & _).
        assert (n' = n) as -> by congruence. congruence.
      * intros code detail [= <- _]. right. split; [reflexivity|].
        exists n. split; [reflexivity|]. congruence.
  - split; [|split; [|split; [|split]]]; try discriminate; auto.
    + intros u. split; [discriminate|].
      intros (_ & _ & n' & (Hn & _) & _). congruence.
    + intros code detail [= <- _]. now left.
  - split; [|split; [|split; [|split]]]; try discriminate; auto.
    + intros u. split; [discriminate|].
      intros (_ & _ & n' & (Hn & _) & _). congruence.
    + intros code detail [= <- _]. now left.
Qed.

End Security.

(** A store with one active and one suspended user. *)
Definition sample_users (c : Neo4j.call) : res (option user_node) :=
  match Neo4j.parameters c !! "email" with
  | Some (Some "alice@example.com") =>
      Ok (Some (UserNode 7 {[ "email" := PStr "alice@example.com";
                              "status" := PStr "Active";
                              "hasGraph" := PBool true ]}))
  | Some (Some "bob@example.com") =>
      Ok (Some (UserNode 8 {[ "email" := PStr "bob@example.com";
                              "status" := PStr "suspended" ]}))
  | Some (Some "carol@example.com") =>
      Ok (Some (UserNode 9 {[ "email" := PStr "carol@example.com" ]}))
  | Some (Some "dave@example.com") => Raise (ExternalError "connection refused")
  | _ => Ok None
  end.

Example get_current_user_values :
  let run := get_current_user (fun _ => "7") sample_users {| has_driver := true |} in
  (exists u, (run "alice@example.com").2 = inr u /\ status u = PStr "Active"
             /\ hasGraph u = true)
  /\ (run "bob@example.com").2 = inl (HTTPException 401 "User account is not active")
  /\ (run "carol@example.com").2 = inl (HTTPException 500 "Internal authentication error")
  /\ (run "dave@example.com").2 = inl (HTTPException 401 "User not found in database")
  /\ (run "erin@example.com").2 = inl (HTTPException 401 "User not found in database")
  /\ run "alice" = ([], inl (HTTPException 401 "Invalid email format")).
Proof.
  split; [eexists; split; [vm_compute; reflexivity | split; reflexivity]|].
  repeat split; vm_compute; reflexivity.
Qed.

End Auth.

(** ** The relational backend ([service/connection.py], [service/schema.py],
       [service/structured.py]) *)

Module Postgres.

(** The exceptions of this backend: the [ConnectionError] that
    [get_connection] raises itself, and whatever the driver raises. *)
Inductive db_exn : Type :=
  | ConnectionError (msg : string)
  | DriverError (msg : string).

(** [str(e)]. *)
Definition str_exn (e : db_exn) : string :=
  match e with
  | ConnectionError msg | DriverError msg => msg
  end.

Inductive outcome (A : Type) : Type :=
  | Done (a : A)
  | Failed (e : db_exn).
Arguments Done {A} a.
Arguments Failed {A} e.

(** The values of a result row that the repository looks at. *)
Inductive cell : Type :=
  | CNull
  | CStr (s : string)
  | CInt (n : Z).

Definition row : Type := gmap string cell.

(** What a cursor has after [execute]: rows when [cursor.description] is
    set, a row count otherwise. *)
Inductive statement_result : Type :=
  | Rows (rows : list row)
  | Affected (rowcount : Z).

(** The calls made to the pool and to a connection taken from it. *)
Inductive event : Type :=
  | Getconn
  | Statement (query : string) (params : option (list cell))
  | Commit
  | Rollback
  | Putconn.

(** [StructuredDataConnection]: whether [_pool] is set, and [_is_connected]. *)
Record StructuredDataConnection : Type := {
  _pool : bool;
  _is_connected : bool
}.

Definition is_connected (self : StructuredDataConnection) : bool :=
  _is_connected self && _pool self.

Definition not_established : db_exn :=
  ConnectionError "Database connection not established. Call connect() first.".

Section Driver.
Variable conn : Type.
(** [SimpleConnectionPool(...)], and the test statement [connect] runs on it. *)
Variable pool_create : outcome unit.
Variable pool_test : outcome unit.
(** [self._pool.getconn()], [self._pool.putconn(conn)]. *)
Variable getconn : outcome conn.
Variable putconn : conn -> outcome unit.
(** A cursor's life on a connection: opened, [execute(query, params)],
    its rows fetched or its row count read, closed. *)
Variable run_statement : conn -> string -> option (list cell) -> outcome statement_result.
Variable commit : conn -> outcome unit.
Variable rollback : conn -> outcome unit.

(** [connect]: the connection afterwards, and the value returned.  A pool
    that was created stays in [_pool] when its test fails. *)
Definition connect (self : StructuredDataConnection) : StructuredDataConnection * bool :=
  match pool_create with
  | Failed _ => ({| _pool := _pool self; _is_connected := false |}, false)
  | Done _ =>
      match pool_test with
      | Failed _ => ({| _pool := true; _is_connected := false |}, false)
      | Done _ => ({| _pool := true; _is_connected := true |}, true)
      end
  end.

(** [with self.get_connection() as conn: body(conn)].  The generator
    raises before any call when the connection is not established; a
    failing [getconn] leaves nothing to roll back or to return; a failing
    body is rolled back and re-raised; [finally] returns the connection. *)
Definition get_connection {A : Type} (self : StructuredDataConnection)
    (body : conn -> list event * outcome A) : list event * outcome A :=
  if negb (is_connected self) then ([], Failed not_established)
  else
    match getconn with
    | Failed e => ([Getconn], Failed e)
    | Done c =>
        let '(events, r) := body c in
        match r with
        | Done a =>
            (Getconn :: events ++ [Putconn],
             match putconn c with
             | Done _ => Done a
             | Failed e => Failed e
             end)
        | Failed e =>
            (Getconn :: events ++ [Rollback; Putconn],
             let raised := match rollback c with
                           | Done _ => e
                           | Failed e' => e'
                           end in
             match putconn c with
             | Done _ => Failed raised
             | Failed e' => Failed e'
             end)
        end
    end.

Definition affected_rows (n : Z) : row := {[ "affected_rows" := CInt n ]}.

Definition statement_body (query : string) (params : option (list cell)) (c : conn)
    : list event * outcome (list row) :=
  match run_statement c query params with
  | Failed e => ([Statement query params], Failed e)
  | Done (Rows rows) => ([Statement query params], Done rows)
  | Done (Affected n) =>
      ([Statement query params; Commit],
       match commit c with
       | Done _ => Done [affected_rows n]
       | Failed e => Failed e
       end)
  end.

Definition execute_query (self : StructuredDataConnection) (query : string)
    (params : option (list cell)) : list event * outcome (list row) :=
  get_connection self (statement_body query params).

(** *** [DatabaseSchema] *)

(** The statements of [list_tables] and [get_table_columns], their
    whitespace collapsed. *)
Definition list_tables_query : string :=
  "SELECT table_name FROM information_schema.tables WHERE table_schema = 'public' AND table_type = 'BASE TABLE';".

Definition table_columns_query : string :=
  "SELECT column_name, data_type, is_nullable FROM information_schema.columns WHERE table_schema = 'public' AND table_name = %s;".

(** [[row['table_name'] for row in results]], [None] for its [KeyError]. *)
Definition table_names (results : list row) : option (list cell) :=
  mapM (fun r : row => r !! "table_name") results.

Definition list_tables (self : StructuredDataConnection) : list event * list cell :=
  let '(events, r) := execute_query self list_tables_query None in
  (events,
   match r with
   | Done results => default [] (table_names results)
   | Failed _ => []
   end).

Definition get_table_columns (self : StructuredDataConnection) (table_name : string)
    : list event * list row :=
  let '(events, r) := execute_query self table_columns_query (Some [CStr table_name]) in
  (events,
   match r with
   | Done results => results
   | Failed _ => []
   end).

(** What a structured tool hands to the agent. *)
Inductive tool_value : Type :=
  | Names (names : list cell)
  | Records (rows : list row)
  | ErrorDict (error : string).

Definition custom_query (self : StructuredDataConnection) (query : string)
    : list event * tool_value :=
  let '(events, r) := execute_query self query None in
  (events,
   match r with
   | Done results => Records results
   | Failed e => ErrorDict (str_exn e)
   end).

(** [StructuredService(connection)]: its methods delegate to the schema
    over that connection. *)
Definition structured_service (connection : StructuredDataConnection)
    : Agent.StructuredService tool_value := {|
  Agent.list_tables := Ok (Names (list_tables connection).2);
  Agent.get_table_columns := fun t => Ok (Records (get_table_columns connection t).2);
  Agent.custom_query := fun q => Ok (custom_query connection q).2
|}.

(** *** Facts *)

(** The body failed: the statement raised, or the commit after it did. *)
Definition body_failed (c : conn) (query : string) (params : option (list cell))
    : Prop :=
  (exists e, run_statement c query params = Failed e)
  \/ (exists n e, run_statement c query params = Done (Affected n)
                  /\ commit c = Failed e).

(** X20.  [execute_query] never keeps a connection: without an established
    connection it raises [ConnectionError] and calls nothing; when
    [getconn] fails that is the only call; otherwise the calls are
    [getconn], the statement (once), possibly a commit or a rollback, and
    [putconn] last, exactly once.  The rollback happens exactly when the
    statement or the commit failed, the commit exactly when the statement
    reported a row count, and rows are returned only without a rollback. *)
Theorem execute_query_returns_connection (self : StructuredDataConnection)
    (query : string) (params : option (list cell)) :
  (is_connected self = false ->
   execute_query self query params = ([], Failed not_established))
  /\ (is_connected self = true -> forall e, getconn = Failed e ->
      execute_query self query params = ([Getconn], Failed e))
  /\ (is_connected self = true -> forall c, getconn = Done c ->
      exists middle,
        (execute_query self query params).1
        = Getconn :: Statement query params :: middle ++ [Putconn]
        /\ (middle = [] \/ middle = [Commit] \/ middle = [Rollback]
            \/ middle = [Commit; Rollback])
        /\ (In Rollback middle <-> body_failed c query params)
        /\ (In Commit middle <->
            exists n, run_statement c query params = Done (Affected n))
        /\ (forall rows, (execute_query self query params).2 = Done rows ->
            ~ In Rollback middle)).
Proof.
  unfold execute_query, get_connection, statement_body, body_failed.
  split; [intros ->; reflexivity|].
  split; [intros -> e ->; reflexivity|].
  intros -> c ->. cbn [negb].
  destruct (run_statement c query params) as [[rows|n]|e] eqn:Hrun.
  - exists []. split; [reflexivity|]. split; [now left|].
    split; [|split].
    + split; [intros []|]. intros [[e He]|(n & e & He & _)]; discriminate.
    + split; [intros [] | intros [n Hn]; discriminate].
    + intros _ _ [].
  - destruct (commit c) as [u|e] eqn:Hcommit.
    + exists [Commit]. split; [reflexivity|]. split; [right; now left|].
      split; [|split].
      * split; [intros [H|[]]; discriminate|].
        intros [[e He]|(n' & e & _ & He)]; discriminate.
      * split; [eauto | intros _; now left].
      * intros _ _ [H|[]]. discriminate.
    + exists [Commit; Rollback]. split; [reflexivity|].
      split; [right; right; now right|]. split; [|split].
      * split; [|intros _; right; now left].
        intros _. right. eauto.
      * split; [eauto | intros _; now left].
      * intros rows. cbn [snd]. destruct (putconn c); discriminate.
  - exists [Rollback]. split; [reflexivity|].
    split; [right; right; now left|]. split; [|split].
    + split; [eauto | intros _; now left].
    + split; [intros [H|[]]; discriminate | intros [n Hn]; discriminate].
    + intros rows. cbn [snd]. destruct (putconn c); discriminate.
Qed.

(** [connect] returned [False]: nothing that follows reaches the driver. *)
Lemma connect_false (self connection : StructuredDataConnection) :
  connect self = (connection, false) -> is_connected connection = false.
Proof.
  unfold connect, is_connected.
  destruct pool_create; [destruct pool_test|]; intros [= <-]; reflexivity.
Qed.

Section Tools.
Variable self : Agent.SearchAgent tool_value.
Variable connection : StructuredDataConnection.
Hypothesis service : Agent.structured_search_service self = structured_service connection.

(** X21.  The database cannot make a structured tool call raise: with its
    argument present the call returns a value, whatever the driver does.
    When the connection is not established (for one, after a [connect]
    that returned [False]) no call reaches the driver, the two schema
    tools answer with an empty list and [run_sql_query] with the error
    object of the [ConnectionError]. *)
Theorem structured_tools_survive_database_failure (tool_name : string)
    (tool_call_arguments : gmap string string) :
  ((tool_name = "get_table_schema" -> is_Some (tool_call_arguments !! "table_name")) ->
   (tool_name = "run_sql_query" -> is_Some (tool_call_arguments !! "query")) ->
   exists r, Agent.structured_search self tool_name tool_call_arguments = Ok r)
  /\ (is_connected connection = false ->
      (list_tables connection).1 = []
      /\ (forall t, (get_table_columns connection t).1 = [])
      /\ (forall q, (custom_query connection q).1 = [])
      /\ Agent.structured_search self "get_all_tables" tool_call_arguments
         = Ok (Agent.backend_value (Names []))
      /\ (forall t, tool_call_arguments !! "table_name" = Some t ->
            Agent.structured_search self "get_table_schema" tool_call_arguments
            = Ok (Agent.backend_value (Records [])))
      /\ (forall q, tool_call_arguments !! "query" = Some q ->
            Agent.structured_search self "run_sql_query" tool_call_arguments
            = Ok (Agent.backend_value
                    (ErrorDict "Database connection not established. Call connect() first.")))).
Proof.
  split.
  - intros Ht Hq. unfold Agent.structured_search. rewrite service.
    destruct (decide (tool_name = "get_all_tables")); [eexists; reflexivity|].
    destruct (decide (tool_name = "get_table_schema")) as [E|_].
    { destruct (Ht E) as [t Hlook]. unfold Agent.getitem. rewrite Hlook.
      eexists. reflexivity. }
    destruct (decide (tool_name = "run_sql_query")) as [E|_].
    { destruct (Hq E) as [q Hlook]. unfold Agent.getitem. rewrite Hlook.
      eexists. reflexivity. }
    eexists. reflexivity.
  - intros Hoff.
    assert (Hexec : forall q ps, execute_query connection q ps
                                 = ([], Failed not_established)).
    { intros q ps. unfold execute_query, get_connection. now rewrite Hoff. }
    unfold list_tables, get_table_columns, custom_query.
    split; [now rewrite Hexec|].
    split; [intros t; now rewrite Hexec|].
    split; [intros q; now rewrite Hexec|].
    unfold Agent.structured_search, Agent.getitem. rewrite service.
    unfold structured_service, list_tables, get_table_columns, custom_query.
    cbn [Agent.list_tables Agent.get_table_columns Agent.custom_query].
    split; [|split].
    + simpl. now rewrite Hexec.
    + intros t ->. simpl. now rewrite Hexec.
    + intros q ->. simpl. now rewrite Hexec.
Qed.

End Tools.

End Driver.

(** A database that refuses connections, and the agent that [main.py]
    builds over it after ignoring the result of [connect]. *)
Definition refused : db_exn := DriverError "connection refused".

Definition offline_connection : StructuredDataConnection :=
  (connect (Failed refused) (Failed refused)
     {| _pool := false; _is_connected := false |}).1.

Definition offline_run_statement (_ : unit) (_ : string) (_ : option (list cell))
    : outcome statement_result := Failed refused.

Definition offline_service : Agent.StructuredService tool_value :=
  structured_service unit (Failed refused) (fun _ => Done tt) offline_run_statement
    (fun _ => Done tt) (fun _ => Done tt) offline_connection.

Definition offline_agent : Agent.SearchAgent tool_value := {|
  Agent.unstructured_search_service := {|
    Agent.global_search := fun _ _ _ => Raise (ExternalError "unavailable");
    Agent.local_search := fun _ _ _ => Raise (ExternalError "unavailable");
    Agent.run_cypher_query := fun _ => Raise (ExternalError "unavailable") |};
  Agent.structured_search_service := offline_service;
  Agent.user_email := Some "alice@example.com";
  Agent.query := "which tables are there";
  Agent.tool_classifications :=
    {[ "get_all_tables" := "structured"; "get_table_schema" := "structured";
       "run_sql_query" := "structured" ]}
|}.

(** The theorem of X21 at a query sent to the offline database. *)
Lemma structured_tools_survive_database_failure_witness :
  Agent.structured_search offline_agent "run_sql_query" {[ "query" := "SELECT 1;" ]}
  = Ok (Agent.backend_value
          (ErrorDict "Database connection not established. Call connect() first.")).
Proof.
  assert (Hoff : is_connected offline_connection = false).
  { apply (connect_false (Failed refused) (Failed refused)
             {| _pool := false; _is_connected := false |}). reflexivity. }
  destruct (structured_tools_survive_database_failure unit (Failed refused)
              (fun _ => Done tt) offline_run_statement (fun _ => Done tt)
              (fun _ => Done tt) offline_agent offline_connection eq_refl
              "run_sql_query" {[ "query" := "SELECT 1;" ]}) as [_ H].
  destruct (H Hoff) as (_ & _ & _ & _ & _ & Hq).
  exact (Hq "SELECT 1;" eq_refl).
Defined.

(** A driver that answers: a statement that returns rows, one that changes
    rows, and one that fails. *)
Definition online : StructuredDataConnection := {| _pool := true; _is_connected := true |}.

Definition sample_run_statement (_ : unit) (query : string) (_ : option (list cell))
    : outcome statement_result :=
  if String.eqb query list_tables_query
  then Done (Rows [ {[ "table_name" := CStr "Orders" ]}; {[ "table_name" := CStr "users" ]} ])
  else if String.prefix "UPDATE" query then Done (Affected 3)
  else Failed (DriverError "syntax error").

Example execute_query_traces :
  let run := execute_query unit (Done tt) (fun _ => Done tt) sample_run_statement
               (fun _ => Done tt) (fun _ => Done tt) online in
  run list_tables_query None
  = ([Getconn; Statement list_tables_query None; Putconn],
     Done [ {[ "table_name" := CStr "Orders" ]}; {[ "table_name" := CStr "users" ]} ])
  /\ run "UPDATE users SET active = true;" None
     = ([Getconn; Statement "UPDATE users SET active = true;" None; Commit; Putconn],
        Done [affected_rows 3])
  /\ run "SELEC 1;" None
     = ([Getconn; Statement "SELEC 1;" None; Rollback; Putconn],
        Failed (DriverError "syntax error")).
Proof. repeat split; vm_compute; reflexivity. Qed.

End Postgres.

(** ** Labelling documents by the tables of the database
       ([utils/functions.py], [label_document_type]) *)

Module Labels.

(** [t.lower()] on a table name as the schema returned it; a value that is
    not a string has no [lower], and the message of its [AttributeError]
    names its type. *)
Definition lower_name (t : Postgres.cell) : res string :=
  match t with
  | Postgres.CStr s => Ok (Py.lower s)
  | Postgres.CNull =>
      Raise (ExternalError "'NoneType' object has no attribute 'lower'")
  | Postgres.CInt _ =>
      Raise (ExternalError "'int' object has no attribute 'lower'")
  end.

Fixpoint lower_names (names : list Postgres.cell) : res (list string) :=
  match names with
  | [] => Ok []
  | t :: rest =>
      s ← lower_name t;
      l ← lower_names rest;
      Ok (s :: l)
  end.

Section Label.
(** [str(e)]. *)
Variable str_exn : exn -> string.

(** The service argument: [None]; an object without the attribute
    [schema]; or an object whose [schema.list_tables()] raises or returns. *)
Inductive service : Type :=
  | no_schema
  | with_schema (list_tables : res (list Postgres.cell)).

Definition label (table_names : gset string) (document_title : string) : string :=
  if bool_decide (Py.lower document_title ∈ table_names)
  then "Structured" else "Unstructured".

Definition label_document_type (document_titles : list string)
    (structured_search_service : option service) : res (gmap string string) :=
  match structured_search_service with
  | None => Raise (ValueError "Structured search service is not set")
  | Some svc =>
      match document_titles with
      | [] => Raise (ValueError "Document titles are not set")
      | _ :: _ =>
          table_names ←
            match svc with
            | no_schema => Ok ∅
            | with_schema list_tables =>
                match list_tables ≫= lower_names with
                | Ok names => Ok (list_to_set names : gset string)
                | Raise e =>
                    Raise (ValueError ("Could not fetch table names from schema: "
                                       +:+ str_exn e))
                end
            end;
          Ok (foldl (fun document_types document_title =>
                       <[document_title := label table_names document_title]>
                         document_types)
                    ∅ document_titles)
      end
  end.

(** Some table has the title's name, up to case. *)
Definition names_a_table (tables : list string) (document_title : string) : bool :=
  existsb (fun t => String.eqb (Py.lower t) (Py.lower document_title)) tables.

Lemma lower_names_strings (tables : list string) :
  lower_names (Postgres.CStr <$> tables) = Ok (Py.lower <$> tables).
Proof.
  induction tables as [|t tables IH]; [reflexivity|].
  cbn [fmap list_fmap lower_names lower_name]. simpl. rewrite IH. reflexivity.
Qed.

Lemma label_names_a_table (tables : list string) (document_title : string) :
  label (list_to_set (Py.lower <$> tables)) document_title
  = if names_a_table tables document_title then "Structured" else "Unstructured".
Proof.
  unfold label, names_a_table.
  destruct (existsb _ tables) eqn:E.
  - apply existsb_exists in E as (t & Ht & Heq). apply String.eqb_eq in Heq.
    rewrite bool_decide_eq_true_2; [reflexivity|].
    apply elem_of_list_to_set, list_elem_of_fmap. exists t.
    split; [congruence | now apply list_elem_of_In].
  - rewrite bool_decide_eq_false_2; [reflexivity|].
    intros H. apply elem_of_list_to_set, list_elem_of_fmap in H as (t & Heq & Ht).
    assert (existsb (fun t => String.eqb (Py.lower t) (Py.lower document_title)) tables
            = true) as E'; [|congruence].
    apply existsb_exists. exists t. split; [now apply list_elem_of_In|].
    apply String.eqb_eq. congruence.
Qed.

Lemma labels_fold (f : string -> string) (document_titles : list string)
    (acc : gmap string string) (document_title : string) :
  foldl (fun types t => <[t := f t]> types) acc document_titles !! document_title
  = if bool_decide (document_title ∈ document_titles)
    then Some (f document_title) else acc !! document_title.
Proof.
  revert acc. induction document_titles as [|t ts IH]; intros acc.
  - cbn [foldl]. rewrite bool_decide_eq_false_2; [reflexivity | apply not_elem_of_nil].
  - cbn [foldl]. rewrite IH.
    destruct (bool_decide (document_title ∈ ts)) eqn:E.
    + apply bool_decide_eq_true_1 in E.
      rewrite bool_decide_eq_true_2; [reflexivity | now right].
    + apply bool_decide_eq_false_1 in E.
      destruct (decide (document_title = t)) as [->|Hne].
      * rewrite lookup_insert_eq.
        rewrite bool_decide_eq_true_2; [reflexivity | now left].
      * rewrite lookup_insert_ne by congruence.
        rewrite bool_decide_eq_false_2; [reflexivity|].
        intros H. apply elem_of_cons in H as [H|H]; contradiction.
Qed.

(** X22.  Given titles and a schema whose table names are strings,
    [label_document_type] returns a dictionary with exactly the titles as
    keys; a title is [Structured] when some table has its name up to
    case, and [Unstructured] otherwise (so every title is, when there is
    no schema or no table).  A table name that is not a string makes the
    call raise [ValueError]. *)
Theorem label_document_type_spec (document_titles : list string)
    (tables : list string) (svc : service) :
  document_titles <> [] ->
  svc = with_schema (Ok (Postgres.CStr <$> tables)) \/ svc = no_schema /\ tables = [] ->
  exists document_types,
    label_document_type document_titles (Some svc) = Ok document_types
    /\ (forall t, is_Some (document_types !! t) <-> In t document_titles)
    /\ (forall t, In t document_titles ->
          document_types !! t
          = Some (if names_a_table tables t then "Structured" else "Unstructured")).
Proof.
  intros Hne Hsvc.
  assert (E : label_document_type document_titles (Some svc)
              = Ok (foldl (fun types t =>
                             <[t := label (list_to_set (Py.lower <$> tables)) t]> types)
                          ∅ document_titles)).
  { unfold label_document_type.
    destruct document_titles as [|t ts]; [contradiction|].
    destruct Hsvc as [-> | [-> ->]]; [|reflexivity].
    cbn [mbind res_bind]. rewrite lower_names_strings. reflexivity. }
  eexists. split; [exact E|]. split.
  - intros t. rewrite labels_fold. rewrite <- list_elem_of_In.
    destruct (bool_decide (t ∈ document_titles)) eqn:Ht.
    + apply bool_decide_eq_true_1 in Ht. split; [auto | eauto].
    + apply bool_decide_eq_false_1 in Ht. rewrite lookup_empty.
      split; [intros [x Hx]; discriminate | contradiction].
  - intros t Ht. rewrite labels_fold.
    rewrite bool_decide_eq_true_2 by now apply list_elem_of_In.
    now rewrite label_names_a_table.
Qed.

End Label.

Example label_document_type_values :
  let str_exn := fun e => match e with
                          | ValueError m | IndexError m | KeyError m
                          | ExternalError m => m
                          end in
  label_document_type str_exn ["Orders"; "minutes.pdf"; "Orders"]
    (Some (with_schema (Ok [Postgres.CStr "orders"; Postgres.CStr "Users"])))
  = Ok {[ "Orders" := "Structured"; "minutes.pdf" := "Unstructured" ]}
  /\ label_document_type str_exn ["Orders"] (Some no_schema)
     = Ok {[ "Orders" := "Unstructured" ]}
  /\ label_document_type str_exn ["Orders"]
       (Some (with_schema (Ok [Postgres.CStr "orders"; Postgres.CNull])))
     = Raise (ValueError "Could not fetch table names from schema: 'NoneType' object has no attribute 'lower'")
  /\ label_document_type str_exn [] (Some no_schema)
     = Raise (ValueError "Document titles are not set")
  /\ label_document_type str_exn ["Orders"] None
     = Raise (ValueError "Structured search service is not set").
Proof.
  repeat split; vm_compute; reflexivity.
Qed.

(** The theorem of X22 at two titles and two tables. *)
Lemma label_document_type_spec_witness :
  exists document_types,
    label_document_type (fun _ => "") ["Orders"; "minutes.pdf"]
      (Some (with_schema (Ok (Postgres.CStr <$> ["orders"; "Users"]))))
    = Ok document_types
    /\ (forall t, is_Some (document_types !! t) <-> In t ["Orders"; "minutes.pdf"])
    /\ (forall t, In t ["Orders"; "minutes.pdf"] ->
          document_types !! t
          = Some (if names_a_table ["orders"; "Users"] t
                  then "Structured" else "Unstructured")).
Proof.
  apply (label_document_type_spec (fun _ => "") ["Orders"; "minutes.pdf"]
           ["orders"; "Users"]).
  - discriminate.
  - left. reflexivity.
Defined.

End Labels.

(** ** Single-precision arithmetic ([numpy.float32]) *)

Module Float32.

Import SpecFloat.

Local Open Scope Z_scope.

(** IEEE 754 binary32: 24 bits of precision, exponents below 128. *)
Definition prec : Z := 24.
Definition emax : Z := 128.

Definition float32 : Type := spec_float.

Definition zero : float32 := S754_zero false.
Definition mul : float32 -> float32 -> float32 := SFmul prec emax.
Definition div : float32 -> float32 -> float32 := SFdiv prec emax.
Definition add : float32 -> float32 -> float32 := SFadd prec emax.
Definition sqrt : float32 -> float32 := SFsqrt prec emax.

(** *** Digits and shifts *)

Lemma digits2_pos_bounds (p : positive) :
  2 ^ (Z.pos (digits2_pos p) - 1) <= Z.pos p < 2 ^ Z.pos (digits2_pos p).
Proof.
  induction p as [p IH|p IH|]; cbn [digits2_pos].
  - rewrite Pos2Z.inj_succ. replace (Z.succ (Z.pos (digits2_pos p)) - 1)
      with (Z.succ (Z.pos (digits2_pos p) - 1)) by lia.
    rewrite !Z.pow_succ_r by lia. lia.
  - rewrite Pos2Z.inj_succ. replace (Z.succ (Z.pos (digits2_pos p)) - 1)
      with (Z.succ (Z.pos (digits2_pos p) - 1)) by lia.
    rewrite !Z.pow_succ_r by lia. lia.
  - simpl. lia.
Qed.

Lemma Zdigits2_unique (m D : Z) :
  2 ^ (D - 1) <= m < 2 ^ D -> 0 < D -> Zdigits2 m = D.
Proof.
  intros [Hlo Hhi] HD.
  assert (0 < m) by (pose proof (Z.pow_pos_nonneg 2 (D - 1)); lia).
  destruct m as [|p|p]; try lia. cbn [Zdigits2].
  pose proof (digits2_pos_bounds p) as [Hl Hh].
  destruct (Z.lt_trichotomy (Z.pos (digits2_pos p)) D) as [Hlt|[Heq|Hgt]];
    [|exact Heq|].
  - assert (2 ^ Z.pos (digits2_pos p) <= 2 ^ (D - 1))
      by (apply Z.pow_le_mono_r; lia). lia.
  - assert (2 ^ D <= 2 ^ (Z.pos (digits2_pos p) - 1))
      by (apply Z.pow_le_mono_r; lia). lia.
Qed.

Lemma shr_1_m (r : shr_record) :
  0 <= shr_m r -> shr_m (shr_1 r) = shr_m r / 2 /\ 0 <= shr_m (shr_1 r).
Proof.
  destruct r as [m rb sb]. cbn [shr_m shr_1]. intros Hm.
  destruct m as [|[p|p|]|p]; cbn [shr_m]; [| | | |lia].
  - split; [reflexivity | lia].
  - rewrite Pos2Z.inj_xI. split; [|lia].
    apply Z.div_unique with 1; lia.
  - rewrite Pos2Z.inj_xO. split; [|lia].
    apply Z.div_unique with 0; lia.
  - split; [reflexivity | lia].
Qed.

Lemma iter_shr_1_m (p : positive) :
  forall r : shr_record, 0 <= shr_m r ->
    shr_m (iter_pos shr_1 p r) = shr_m r / 2 ^ Z.pos p
    /\ 0 <= shr_m (iter_pos shr_1 p r).
Proof.
  induction p as [p IH|p IH|]; intros r Hr; cbn [iter_pos].
  - destruct (shr_1_m r Hr) as [E1 P1].
    destruct (IH _ P1) as [E2 P2]. destruct (IH _ P2) as [E3 P3].
    split; [|exact P3]. rewrite E3, E2, E1.
    assert (0 < 2 ^ Z.pos p) by (apply Z.pow_pos_nonneg; lia).
    rewrite !Z.div_div by lia. f_equal.
    rewrite <- Z.pow_add_r by lia.
    change 2 with (2 ^ 1) at 1. rewrite <- Z.pow_add_r by lia.
    f_equal. lia.
  - destruct (IH _ Hr) as [E2 P2]. destruct (IH _ P2) as [E3 P3].
    split; [|exact P3]. rewrite E3, E2.
    assert (0 < 2 ^ Z.pos p) by (apply Z.pow_pos_nonneg; lia).
    rewrite !Z.div_div by lia. f_equal.
    rewrite <- Z.pow_add_r by lia. f_equal. lia.
  - destruct (shr_1_m r Hr) as [E1 P1]. split; [|exact P1].
    rewrite E1. reflexivity.
Qed.

Lemma shr_record_of_loc_m (m : Z) (l : location) :
  shr_m (shr_record_of_loc m l) = m
  /\ loc_of_shr_record (shr_record_of_loc m l) = l.
Proof. destruct l as [|[]]; split; reflexivity. Qed.

Lemma round_nearest_even_cases (m : Z) (l : location) :
  round_nearest_even m l = m \/ round_nearest_even m l = m + 1.
Proof.
  destruct l as [|[]]; cbn [round_nearest_even]; auto.
  destruct (Z.even m); auto.
Qed.

(** [shr_fexp] on a positive mantissa of [D] digits: a shift by [k] places
    when [k] is positive, nothing otherwise. *)
Lemma shr_fexp_shift (m e : Z) (l : location) (D k : Z) :
  Zdigits2 m = D -> 0 < m ->
  k = Z.max (D + e - 24) (-149) - e -> 0 < k ->
  exists r, shr_fexp prec emax m e l = (r, e + k) /\ shr_m r = m / 2 ^ k.
Proof.
  intros HD Hm Hk Hpos. unfold shr_fexp, fexp, emin, prec, emax. rewrite HD.
  replace (Z.sub (Z.max (Z.sub (Z.add D e) 24) (Z.sub (Z.sub 3 128) 24)) e)
    with k by lia.
  destruct k as [|p|p]; try lia. cbn [shr].
  eexists. split; [reflexivity|].
  destruct (shr_record_of_loc_m m l) as [Em _].
  destruct (iter_shr_1_m p (shr_record_of_loc m l)) as [E _]; [rewrite Em; lia|].
  rewrite E, Em. reflexivity.
Qed.

Lemma shr_fexp_keep (m e : Z) (l : location) (D : Z) :
  Zdigits2 m = D ->
  Z.max (D + e - 24) (-149) - e <= 0 ->
  shr_fexp prec emax m e l = (shr_record_of_loc m l, e).
Proof.
  intros HD Hk. unfold shr_fexp, fexp, emin, prec, emax. rewrite HD.
  remember (Z.sub (Z.max (Z.sub (Z.add D e) 24) (Z.sub (Z.sub 3 128) 24)) e) as k eqn:Ek.
  assert (k <= 0) by lia.
  destruct k as [|p|p]; try lia; reflexivity.
Qed.

(** The float with mantissa [M] (between [2^23] and [2^24]) and exponent
    [E], in canonical form. *)
Definition finish (M E : Z) : float32 :=
  if M <? 2 ^ 24 then S754_finite false (Z.to_pos M) E
  else S754_finite false (Z.to_pos (2 ^ 23)) (E + 1).

(** Rounding to nearest of a mantissa of at least 24 digits, in the normal
    range: the mantissa is cut to 24 digits and rounded down or up. *)
Lemma binary_round_aux_normal (mx ex : Z) (lx : location) (D : Z) :
  2 ^ (D - 1) <= mx < 2 ^ D -> 24 <= D ->
  -149 <= ex + (D - 24) ->
  (ex + (D - 24) <= 103
   \/ ex + (D - 24) = 104 /\ mx / 2 ^ (D - 24) + 1 < 2 ^ 24) ->
  exists M,
    (M = mx / 2 ^ (D - 24) \/ M = mx / 2 ^ (D - 24) + 1)
    /\ (D = 24 -> M = round_nearest_even mx lx)
    /\ binary_round_aux prec emax false mx ex lx = finish M (ex + (D - 24)).
Proof.
  intros Hmx HD Hlo Hhi.
  assert (Hdig : Zdigits2 mx = D) by (apply Zdigits2_unique; [exact Hmx | lia]).
  assert (Hpos : 0 < mx) by (pose proof (Z.pow_pos_nonneg 2 (D - 1)); lia).
  set (k := D - 24) in *. set (E := ex + k) in *.
  set (q := mx / 2 ^ k) in *.
  assert (Hq : 2 ^ 23 <= q < 2 ^ 24).
  { assert (E1 : 2 ^ (D - 1) = 2 ^ 23 * 2 ^ k).
    { rewrite <- Z.pow_add_r by lia. f_equal. lia. }
    assert (E2 : 2 ^ D = 2 ^ 24 * 2 ^ k).
    { rewrite <- Z.pow_add_r by lia. f_equal. lia. }
    rewrite E1, E2 in Hmx.
    assert (0 < 2 ^ k) by (apply Z.pow_pos_nonneg; lia).
    unfold q. split.
    - apply Z.div_le_lower_bound; lia.
    - apply Z.div_lt_upper_bound; lia. }
  (* the first shift *)
  assert (Hfirst : exists r1,
             shr_fexp prec emax mx ex lx = (r1, E)
             /\ shr_m r1 = q
             /\ (D = 24 -> loc_of_shr_record r1 = lx)).
  { destruct (Z.eq_dec k 0) as [Hk0|Hk0].
    - exists (shr_record_of_loc mx lx).
      rewrite (shr_fexp_keep mx ex lx D Hdig) by lia.
      destruct (shr_record_of_loc_m mx lx) as [Em El].
      split; [f_equal; lia|]. split; [|intros _; exact El].
      rewrite Em. unfold q. rewrite Hk0. simpl. now rewrite Z.div_1_r.
    - destruct (shr_fexp_shift mx ex lx D k Hdig Hpos) as (r & Hr & Hm); [lia..|].
      exists r. split; [exact Hr|]. split; [exact Hm | lia]. }
  destruct Hfirst as (r1 & Hr1 & Hm1 & Hl1).
  set (M := round_nearest_even (shr_m r1) (loc_of_shr_record r1)).
  assert (HM : M = q \/ M = q + 1).
  { unfold M. rewrite Hm1. apply round_nearest_even_cases. }
  exists M. split; [exact HM|]. split.
  { intros HD24. unfold M. rewrite (Hl1 HD24), Hm1. unfold q.
    replace k with 0 by lia. simpl. now rewrite Z.div_1_r. }
  unfold binary_round_aux. rewrite Hr1. fold M.
  unfold finish. destruct (Z.ltb_spec M (2 ^ 24)) as [Hlt|Hge].
  - (* no carry *)
    assert (HdM : Zdigits2 M = 24) by (apply Zdigits2_unique; lia).
    rewrite (shr_fexp_keep M E loc_Exact 24 HdM) by lia.
    cbn [shr_record_of_loc shr_m].
    destruct M as [|p|p]; try lia.
    unfold prec, emax.
    destruct (Z.leb_spec E (128 - 24)) as [_|Hbad]; [reflexivity | lia].
  - (* the mantissa became 2^24 *)
    assert (HM24 : M = 2 ^ 24) by lia.
    assert (HdM : Zdigits2 M = 25) by (rewrite HM24; reflexivity).
    destruct (shr_fexp_shift M E loc_Exact 25 1 HdM) as (r2 & Hr2 & Hm2); [lia..|].
    rewrite Hr2, Hm2, HM24. simpl (2 ^ 24 / 2 ^ 1).
    unfold prec, emax.
    destruct (Z.leb_spec (E + 1) (128 - 24)) as [_|Hbad]; [reflexivity|].
    exfalso. destruct Hhi as [Hhi|[_ Hhi]]; [lia|]. fold k q in Hhi. lia.
Qed.

(** *** The rational value of a finite float *)

Definition bpow (e : Z) : Q := ((2 # 1) ^ e)%Q.

Definition value (f : float32) : Q :=
  match f with
  | S754_finite s m e => (inject_Z (cond_Zopp s (Z.pos m)) * bpow e)%Q
  | _ => 0%Q
  end.

(** The unit roundoff used below: one unit in the last place, [2^-23]. *)
Definition u : Q := 1 # (2 ^ 23).

Lemma bpow_pos (e : Z) : (0 < bpow e)%Q.
Proof. apply Qpower_0_lt. reflexivity. Qed.

Lemma bpow_add (a b : Z) : (bpow (a + b) == bpow a * bpow b)%Q.
Proof. apply Qpower_plus. discriminate. Qed.

Lemma bpow_Z (k : Z) : 0 <= k -> (bpow k == inject_Z (2 ^ k))%Q.
Proof. intros Hk. unfold bpow. now rewrite Zpower_Qpower. Qed.

(** A float in the normal range, with its mantissa and exponent. *)
Definition normal (f : float32) (m e : Z) : Prop :=
  f = S754_finite false (Z.to_pos m) e
  /\ 2 ^ 23 <= m < 2 ^ 24 /\ -149 <= e <= 104.

Lemma value_normal (f : float32) (m e : Z) :
  normal f m e -> (value f == inject_Z m * bpow e)%Q.
Proof.
  intros (-> & Hm & _). cbn [value cond_Zopp].
  rewrite Z2Pos.id by lia. reflexivity.
Qed.

Lemma finish_normal (M E : Z) :
  2 ^ 23 <= M <= 2 ^ 24 -> -149 <= E ->
  (M < 2 ^ 24 -> E <= 104) -> (M = 2 ^ 24 -> E <= 103) ->
  exists m e,
    normal (finish M E) m e
    /\ (M < 2 ^ 24 -> e = E) /\ E <= e <= E + 1
    /\ (inject_Z m * bpow e == inject_Z M * bpow E)%Q.
Proof.
  intros HM HE Hlt Heq. unfold finish.
  destruct (Z.ltb_spec M (2 ^ 24)) as [Hc|Hc].
  - exists M, E. split; [split; [reflexivity|lia]|].
    split; [reflexivity|]. split; [lia | reflexivity].
  - assert (HM24 : M = 2 ^ 24) by lia.
    exists (2 ^ 23), (E + 1). split; [split; [reflexivity|lia]|].
    split; [lia|]. split; [lia|].
    rewrite HM24, bpow_add.
    change (bpow 1) with (2 # 1)%Q.
    change (inject_Z (2 ^ 24)) with (inject_Z (2 ^ 23) * (2 # 1))%Q.
    ring.
Qed.

(** What rounding costs, relative to the number rounded: for a mantissa
    [mx] of at least 24 digits and any [x] between [mx * 2^ex] and
    [(mx + 1) * 2^ex], the rounded value [v] is within [u * x] of [x].
    The statement is scaled by a positive [y], for quotients. *)
Lemma round_relative (mx ex : Z) (lx : location) (D : Z) (x y : Q) :
  2 ^ (D - 1) <= mx < 2 ^ D -> 24 <= D ->
  -149 <= ex + (D - 24) ->
  (ex + (D - 24) <= 103
   \/ ex + (D - 24) = 104 /\ mx / 2 ^ (D - 24) + 1 < 2 ^ 24) ->
  (0 < y)%Q ->
  (inject_Z mx * bpow ex * y <= x)%Q ->
  (x <= inject_Z (mx + 1) * bpow ex * y)%Q ->
  exists m e,
    normal (binary_round_aux prec emax false mx ex lx) m e
    /\ ex + (D - 24) <= e <= ex + (D - 24) + 1
    /\ (D = 24 -> round_nearest_even mx lx < 2 ^ 24 ->
        m = round_nearest_even mx lx /\ e = ex)
    /\ ((1 - u) * x <= inject_Z m * bpow e * y)%Q
    /\ (inject_Z m * bpow e * y <= (1 + u) * x)%Q.
Proof.
  intros Hmx HD Hlo Hhi Hy Hx1 Hx2.
  destruct (binary_round_aux_normal mx ex lx D Hmx HD Hlo Hhi)
    as (M & HM & HM24 & ->).
  set (k := D - 24) in *. set (E := ex + k) in *. set (q := mx / 2 ^ k) in *.
  assert (Hpow : 0 < 2 ^ k) by (apply Z.pow_pos_nonneg; lia).
  assert (E1 : 2 ^ (D - 1) = 2 ^ 23 * 2 ^ k).
  { rewrite <- Z.pow_add_r by lia. f_equal. lia. }
  assert (E2 : 2 ^ D = 2 ^ 24 * 2 ^ k).
  { rewrite <- Z.pow_add_r by lia. f_equal. lia. }
  assert (Hq : 2 ^ 23 <= q < 2 ^ 24).
  { rewrite E1, E2 in Hmx. unfold q. split.
    - apply Z.div_le_lower_bound; lia.
    - apply Z.div_lt_upper_bound; lia. }
  assert (Hq1 : q * 2 ^ k <= mx).
  { unfold q. rewrite Z.mul_comm. apply Z.mul_div_le. lia. }
  assert (Hq2 : mx + 1 <= (q + 1) * 2 ^ k).
  { unfold q. pose proof (Z.mul_succ_div_gt mx (2 ^ k) Hpow). lia. }
  destruct (finish_normal M E) as (m & e & Hn & He1 & He2 & Hv); [lia..| |].
  { intros ->. destruct Hhi as [Hhi|[_ Hhi]]; [lia|]. fold k q in Hhi. lia. }
  exists m, e. split; [exact Hn|]. split; [lia|]. split.
  { intros HD24 Hr. rewrite <- (HM24 HD24) in Hr.
    split; [|rewrite (He1 Hr); unfold E, k; lia].
    destruct Hn as (Hf & Hm & _). unfold finish in Hf.
    destruct (Z.ltb_spec M (2 ^ 24)) as [_|]; [|lia].
    injection Hf as Hf. rewrite <- (HM24 HD24).
    apply (f_equal Z.pos) in Hf. rewrite !Z2Pos.id in Hf by lia. lia. }
  (* the interval of the rounded value, in units of [bpow E * y] *)
  set (U := (bpow E * y)%Q).
  assert (HU : (0 < U)%Q).
  { unfold U. apply Qmult_lt_0_compat; [apply bpow_pos | exact Hy]. }
  assert (Hshift : (bpow E == inject_Z (2 ^ k) * bpow ex)%Q).
  { unfold E. rewrite Z.add_comm, bpow_add, (bpow_Z k) by lia. reflexivity. }
  assert (Hlow : (inject_Z q * U <= x)%Q).
  { apply Qle_trans with (inject_Z mx * bpow ex * y)%Q; [|exact Hx1].
    unfold U. rewrite Hshift.
    assert (Ea : (inject_Z q * (inject_Z (2 ^ k) * bpow ex * y)
                  == inject_Z (q * 2 ^ k) * (bpow ex * y))%Q)
      by (rewrite inject_Z_mult; ring).
    assert (Eb : (inject_Z mx * bpow ex * y == inject_Z mx * (bpow ex * y))%Q)
      by ring.
    rewrite Ea, Eb.
    apply Qmult_le_compat_r.
    - rewrite <- Zle_Qle. exact Hq1.
    - apply Qlt_le_weak, Qmult_lt_0_compat; [apply bpow_pos | exact Hy]. }
  assert (Hupp : (x <= inject_Z (q + 1) * U)%Q).
  { apply Qle_trans with (inject_Z (mx + 1) * bpow ex * y)%Q; [exact Hx2|].
    unfold U. rewrite Hshift.
    assert (Ea : (inject_Z (q + 1) * (inject_Z (2 ^ k) * bpow ex * y)
                  == inject_Z ((q + 1) * 2 ^ k) * (bpow ex * y))%Q)
      by (rewrite inject_Z_mult; ring).
    assert (Eb : (inject_Z (mx + 1) * bpow ex * y
                  == inject_Z (mx + 1) * (bpow ex * y))%Q) by ring.
    rewrite Ea, Eb.
    apply Qmult_le_compat_r.
    - rewrite <- Zle_Qle. exact Hq2.
    - apply Qlt_le_weak, Qmult_lt_0_compat; [apply bpow_pos | exact Hy]. }
  assert (Hbig : (inject_Z (2 ^ 23) * U <= inject_Z q * U)%Q).
  { apply Qmult_le_compat_r; [|apply Qlt_le_weak; exact HU].
    rewrite <- Zle_Qle. lia. }
  assert (Hval : (inject_Z m * bpow e * y == inject_Z M * U)%Q).
  { unfold U. rewrite Hv. ring. }
  assert (HMq : (inject_Z q * U <= inject_Z M * U
                 /\ inject_Z M * U <= inject_Z q * U + U)%Q).
  { destruct HM as [->| ->].
    - split; [apply Qle_refl|]. lra.
    - rewrite inject_Z_plus. change (inject_Z 1) with 1%Q. split; lra. }
  assert (Hupp' : (x <= inject_Z q * U + U)%Q).
  { apply Qle_trans with (inject_Z (q + 1) * U)%Q; [exact Hupp|].
    rewrite inject_Z_plus. change (inject_Z 1) with 1%Q.
    apply Qle_lteq. right. ring. }
  clear Hupp.
  change (inject_Z (2 ^ 23)) with (8388608 # 1)%Q in Hbig.
  rewrite Hval. unfold u. change (2 ^ 23)%positive with 8388608%positive.
  set (B := (inject_Z q * U)%Q) in *. set (V := (inject_Z M * U)%Q) in *.
  destruct HMq as [HV1 HV2].
  split; lra.
Qed.

(** *** Square root, product and quotient in the normal range *)

Lemma normal_value_pos (f : float32) (m e : Z) :
  normal f m e -> (0 < value f)%Q.
Proof.
  intros Hn. rewrite (value_normal f m e Hn). destruct Hn as (_ & Hm & _).
  apply Qmult_lt_0_compat; [|apply bpow_pos].
  change 0%Q with (inject_Z 0). rewrite <- Zlt_Qlt. lia.
Qed.

Lemma sqrt_core (m e : Z) :
  2 ^ 23 <= m < 2 ^ 24 -> -149 <= e <= 104 ->
  let e' := (e + 25) / 2 - 24 in
  let m' := m * 2 ^ (e - 2 * e') in
  let q := Z.sqrt m' in
  let r := m' - q * q in
  SFsqrt_core_binary prec emax m e
  = (q, e', if r =? 0 then loc_Exact
            else loc_Inexact (if r <=? q then Lt else Gt)).
Proof.
  intros Hm He e' m' q r.
  assert (Hdig : Zdigits2 m = 24) by (apply Zdigits2_unique; lia).
  assert (Hmin : Z.min (fexp prec emax (Z.div2 (24 + e + 1))) (Z.div2 e) = e').
  { unfold fexp, emin, prec, emax, e'. rewrite !Z.div2_div.
    Z.div_mod_to_equations. lia. }
  assert (Hs : e - 2 * e' = 23 \/ e - 2 * e' = 24).
  { unfold e'. Z.div_mod_to_equations. lia. }
  unfold SFsqrt_core_binary. rewrite Hdig. cbv zeta. rewrite Hmin.
  assert (Hshift : match e - 2 * e' with
                   | Z.pos _ => Z.shiftl m (e - 2 * e')
                   | 0 => m
                   | Z.neg _ => 0
                   end = m').
  { unfold m'. destruct Hs as [-> | ->]; now rewrite Z.shiftl_mul_pow2. }
  rewrite Hshift.
  assert (Hpos : 0 <= m').
  { unfold m'. apply Z.mul_nonneg_nonneg; [lia|]. apply Z.pow_nonneg. lia. }
  pose proof (Z.sqrtrem_spec m' Hpos) as Hspec.
  pose proof (Z.sqrtrem_sqrt m') as Hfst.
  destruct (Z.sqrtrem m') as [q0 r0]. cbn [fst] in Hfst. subst q0.
  fold q in Hspec. destruct Hspec as [Hsum _].
  replace r0 with r by (unfold r; lia). reflexivity.
Qed.

Lemma sqrt_bounds (m' : Z) :
  2 ^ 46 <= m' < 2 ^ 48 -> 2 ^ 23 <= Z.sqrt m' < 2 ^ 24.
Proof.
  intros H. split.
  - change (2 ^ 23) with (Z.sqrt (2 ^ 46)). apply Z.sqrt_le_mono. lia.
  - apply Z.le_lt_trans with (Z.sqrt (2 ^ 48 - 1)); [apply Z.sqrt_le_mono; lia|].
    vm_compute. reflexivity.
Qed.

(** The square root of a normal float is a normal float [n] with
    [n^2 <= d (1+u)^2] and [d (1-u)^2 <= n^2 (1+u)^2]; its exponent is at
    most 40, so that its square does not overflow. *)
Lemma sqrt_normal (d : float32) (m e : Z) :
  normal d m e ->
  exists mn en,
    normal (sqrt d) mn en
    /\ (e + 25) / 2 - 24 <= en <= (e + 25) / 2 - 23 /\ en <= 40
    /\ (value (sqrt d) * value (sqrt d) <= value d * ((1 + u) * (1 + u)))%Q
    /\ (value d * ((1 - u) * (1 - u))
        <= value (sqrt d) * value (sqrt d) * ((1 + u) * (1 + u)))%Q.
Proof.
  intros Hd. pose proof (value_normal d m e Hd) as Hvd.
  destruct Hd as (-> & Hm & He).
  unfold sqrt, SFsqrt. rewrite Z2Pos.id by lia.
  rewrite (sqrt_core m e Hm He). cbv zeta.
  set (e' := (e + 25) / 2 - 24) in *.
  assert (Hs : e - 2 * e' = 23 \/ e - 2 * e' = 24).
  { unfold e'. Z.div_mod_to_equations. lia. }
  set (s := e - 2 * e') in *.
  set (m' := m * 2 ^ s) in *.
  assert (Hm' : 2 ^ 46 <= m' < 2 ^ 48).
  { unfold m'. destruct Hs as [-> | ->]; lia. }
  set (q := Z.sqrt m') in *.
  pose proof (sqrt_bounds m' Hm') as Hq. fold q in Hq.
  assert (Hsq : q * q <= m' < (q + 1) * (q + 1)).
  { pose proof (Z.sqrt_spec m' ltac:(lia)) as Hspec. fold q in Hspec.
    unfold Z.succ in Hspec. lia. }
  set (l := if m' - q * q =? 0 then loc_Exact
            else loc_Inexact (if m' - q * q <=? q then Lt else Gt)).
  assert (He' : -86 <= e' <= 40).
  { unfold e'. Z.div_mod_to_equations. lia. }
  destruct (round_relative q e' l 24 (inject_Z q * bpow e' * 1) 1)
    as (mn & en & Hn & Hen & Hexact & Hlo & Hhi);
    [lia | lia | lia | left; lia | reflexivity | apply Qle_refl | |].
  { apply Qmult_le_compat_r; [|discriminate].
    apply Qmult_le_compat_r; [|apply Qlt_le_weak, bpow_pos].
    rewrite <- Zle_Qle. lia. }
  exists mn, en. split; [exact Hn|]. split; [lia|]. split.
  { (* no carry in the top binade *)
    destruct (Z.eq_dec e' 40) as [Htop|Hne]; [|lia].
    assert (Hr : round_nearest_even q l < 2 ^ 24).
    { destruct (Z.eq_dec q (2 ^ 24 - 1)) as [Hq24|Hq24].
      - assert (Hrem : m' - q * q <= q).
        { assert (s = 24 \/ s = 23) as [Hs24|Hs23] by lia.
          - assert (e = 104) by (unfold s in Hs24; lia).
            unfold m'. rewrite Hs24, Hq24. lia.
          - exfalso. unfold m' in Hsq. rewrite Hs23, Hq24 in Hsq. lia. }
        unfold l. destruct (m' - q * q =? 0); [simpl; lia|].
        destruct (Z.leb_spec (m' - q * q) q) as [_|Hbad]; [simpl; lia | lia].
      - destruct (round_nearest_even_cases q l) as [-> | ->]; lia. }
    destruct (Hexact eq_refl Hr) as [_ ->]. lia. }
  (* the value *)
  pose proof (value_normal _ mn en Hn) as Hvn.
  rewrite Hvn, Hvd.
  set (vn := (inject_Z mn * bpow en)%Q) in *.
  set (U := bpow e') in *.
  set (B := (inject_Z q * U)%Q) in *.
  assert (HU : (0 < U)%Q) by apply bpow_pos.
  assert (HB : (inject_Z (2 ^ 23) * U <= B)%Q).
  { unfold B. apply Qmult_le_compat_r; [|apply Qlt_le_weak; exact HU].
    rewrite <- Zle_Qle. lia. }
  change (inject_Z (2 ^ 23)) with (8388608 # 1)%Q in HB.
  assert (Hlo' : ((1 - u) * B <= vn)%Q).
  { apply Qle_trans with (vn * 1)%Q; [|apply Qle_lteq; right; ring].
    apply Qle_trans with ((1 - u) * (B * 1))%Q; [apply Qle_lteq; right; ring|].
    exact Hlo. }
  assert (Hhi' : (vn <= (1 + u) * B)%Q).
  { apply Qle_trans with (vn * 1)%Q; [apply Qle_lteq; right; ring|].
    apply Qle_trans with ((1 + u) * (B * 1))%Q; [exact Hhi|].
    apply Qle_lteq; right; ring. }
  clear Hlo Hhi.
  (* d is between B^2 and (B + U)^2 *)
  assert (Hd : (inject_Z m * bpow e == inject_Z m' * (U * U))%Q).
  { unfold U, m'. replace e with (s + (e' + e')) at 1 by (unfold s; lia).
    rewrite bpow_add, bpow_add, inject_Z_mult, (bpow_Z s) by lia. ring. }
  assert (Hd1 : (B * B <= inject_Z m' * (U * U))%Q).
  { unfold B.
    assert (E : (inject_Z q * U * (inject_Z q * U)
                 == inject_Z (q * q) * (U * U))%Q)
      by (rewrite inject_Z_mult; ring).
    rewrite E. apply Qmult_le_compat_r.
    - rewrite <- Zle_Qle. lia.
    - apply Qlt_le_weak, Qmult_lt_0_compat; exact HU. }
  assert (Hd2 : (inject_Z m' * (U * U) <= (B + U) * (B + U))%Q).
  { unfold B.
    assert (E : ((inject_Z q * U + U) * (inject_Z q * U + U)
                 == inject_Z ((q + 1) * (q + 1)) * (U * U))%Q).
    { rewrite inject_Z_mult, inject_Z_plus. change (inject_Z 1) with 1%Q. ring. }
    rewrite E. apply Qmult_le_compat_r.
    - rewrite <- Zle_Qle. lia.
    - apply Qlt_le_weak, Qmult_lt_0_compat; exact HU. }
  rewrite Hd. set (vd := (inject_Z m' * (U * U))%Q) in *.
  unfold u in *. change (2 ^ 23)%positive with 8388608%positive in *.
  split; nra.
Qed.

(** The square of a normal float with exponent between -86 and 40 is a
    normal float within [u] of the exact square. *)
Lemma square_normal (n : float32) (mn en : Z) :
  normal n mn en -> -86 <= en <= 40 ->
  exists mp ep,
    normal (mul n n) mp ep
    /\ 2 * en + 23 <= ep <= 2 * en + 25
    /\ ((1 - u) * (value n * value n) <= value (mul n n))%Q
    /\ (value (mul n n) <= (1 + u) * (value n * value n))%Q.
Proof.
  intros Hn Hen. pose proof (value_normal n mn en Hn) as Hvn.
  destruct Hn as (-> & Hm & _).
  unfold mul, SFmul. cbn [xorb].
  rewrite Pos2Z.inj_mul, Z2Pos.id by lia.
  set (X := mn * mn).
  assert (HX : 2 ^ 46 <= X <= (2 ^ 24 - 1) * (2 ^ 24 - 1)).
  { unfold X. split.
    - change (2 ^ 46) with (2 ^ 23 * 2 ^ 23). apply Z.mul_le_mono_nonneg; lia.
    - apply Z.mul_le_mono_nonneg; lia. }
  assert (HD : exists D, (D = 47 \/ D = 48) /\ 2 ^ (D - 1) <= X < 2 ^ D).
  { destruct (Z.lt_ge_cases X (2 ^ 47)) as [Hlt|Hge].
    - exists 47. split; [now left|]. change (47 - 1) with 46. lia.
    - exists 48. split; [now right|]. change (48 - 1) with 47. lia. }
  destruct HD as (D & HD & HXD).
  destruct (round_relative X (en + en) loc_Exact D
              (inject_Z X * bpow (en + en) * 1) 1)
    as (mp & ep & Hp & Hep & _ & Hlo & Hhi);
    [exact HXD | lia | lia | | reflexivity | apply Qle_refl | |].
  { destruct (Z.eq_dec (en + en + (D - 24)) 104) as [Htop|Hne]; [|left; lia].
    right. split; [exact Htop|].
    assert (D = 48) as -> by lia. change (48 - 24) with 24.
    assert (X / 2 ^ 24 < 2 ^ 24 - 1); [|lia].
    apply Z.div_lt_upper_bound; lia. }
  { apply Qmult_le_compat_r; [|discriminate].
    apply Qmult_le_compat_r; [|apply Qlt_le_weak, bpow_pos].
    rewrite <- Zle_Qle. lia. }
  exists mp, ep. split; [exact Hp|]. split; [lia|].
  pose proof (value_normal _ mp ep Hp) as Hvp.
  rewrite Hvp, Hvn.
  assert (E : (inject_Z X * bpow (en + en) * 1
               == inject_Z mn * bpow en * (inject_Z mn * bpow en))%Q).
  { unfold X. rewrite inject_Z_mult, bpow_add. ring. }
  rewrite E in Hlo, Hhi.
  split.
  - apply Qle_trans with (inject_Z mp * bpow ep * 1)%Q;
      [exact Hlo | apply Qle_lteq; right; ring].
  - apply Qle_trans with (inject_Z mp * bpow ep * 1)%Q;
      [apply Qle_lteq; right; ring | exact Hhi].
Qed.

Lemma div_core (mx ex my ey : Z) :
  2 ^ 23 <= mx < 2 ^ 24 -> 2 ^ 23 <= my < 2 ^ 24 ->
  -125 <= ex - ey ->
  SFdiv_core_binary prec emax mx ex my ey
  = ((mx * 2 ^ 24) / my, ex - ey - 24,
     new_location my ((mx * 2 ^ 24) mod my)).
Proof.
  intros Hx Hy He.
  assert (Hdx : Zdigits2 mx = 24) by (apply Zdigits2_unique; lia).
  assert (Hdy : Zdigits2 my = 24) by (apply Zdigits2_unique; lia).
  unfold SFdiv_core_binary. rewrite Hdx, Hdy. cbv zeta.
  assert (Hmin : Z.min (fexp prec emax (24 + ex - (24 + ey))) (ex - ey)
                 = ex - ey - 24).
  { unfold fexp, emin, prec, emax. lia. }
  rewrite Hmin.
  replace (ex - ey - (ex - ey - 24)) with 24 by lia.
  rewrite Z.shiftl_mul_pow2 by lia.
  unfold Z.div, Z.modulo.
  destruct (Z.div_eucl (mx * 2 ^ 24) my) as [q r]. reflexivity.
Qed.

(** The quotient of two normal floats of nearby exponents is a normal
    float [r] with [r * y] within [u * x] of [x]. *)
Lemma div_normal (x y : float32) (mx ex my ey : Z) :
  normal x mx ex -> normal y my ey ->
  -125 <= ex - ey <= 126 ->
  exists mr er,
    normal (div x y) mr er
    /\ ((1 - u) * value x <= value (div x y) * value y)%Q
    /\ (value (div x y) * value y <= (1 + u) * value x)%Q.
Proof.
  intros Hx Hy He.
  pose proof (value_normal x mx ex Hx) as Hvx.
  pose proof (value_normal y my ey Hy) as Hvy.
  pose proof (normal_value_pos y my ey Hy) as Hypos.
  destruct Hx as (-> & Hmx & _). destruct Hy as (-> & Hmy & _).
  unfold div, SFdiv. rewrite !Z2Pos.id by lia.
  rewrite (div_core mx ex my ey Hmx Hmy) by lia. cbn [xorb].
  set (Q0 := mx * 2 ^ 24 / my).
  set (l := new_location my ((mx * 2 ^ 24) mod my)).
  assert (HQ1 : Q0 * my <= mx * 2 ^ 24).
  { unfold Q0. rewrite Z.mul_comm. apply Z.mul_div_le. lia. }
  assert (HQ2 : mx * 2 ^ 24 < (Q0 + 1) * my).
  { unfold Q0. pose proof (Z.mul_succ_div_gt (mx * 2 ^ 24) my ltac:(lia)). lia. }
  assert (HQ : 2 ^ 23 <= Q0 < 2 ^ 25).
  { unfold Q0. split.
    - apply Z.div_le_lower_bound; lia.
    - apply Z.div_lt_upper_bound; lia. }
  assert (HD : exists D, (D = 24 \/ D = 25) /\ 2 ^ (D - 1) <= Q0 < 2 ^ D).
  { destruct (Z.lt_ge_cases Q0 (2 ^ 24)) as [Hlt|Hge].
    - exists 24. split; [now left|]. change (24 - 1) with 23. lia.
    - exists 25. split; [now right|]. change (25 - 1) with 24. lia. }
  destruct HD as (D & HD & HQD).
  assert (Escale : (inject_Z mx * bpow ex
                    == inject_Z (mx * 2 ^ 24) * bpow (ex - 24))%Q).
  { replace ex with (24 + (ex - 24)) at 1 by lia.
    rewrite bpow_add, (bpow_Z 24), inject_Z_mult by lia. ring. }
  assert (Eprod : forall k : Z,
             (inject_Z k * bpow (ex - ey - 24) * (inject_Z my * bpow ey)
              == inject_Z (k * my) * bpow (ex - 24))%Q).
  { intros k. replace (ex - 24) with (ex - ey - 24 + ey) by lia.
    rewrite bpow_add, inject_Z_mult. ring. }
  destruct (round_relative Q0 (ex - ey - 24) l D
              (inject_Z mx * bpow ex) (inject_Z my * bpow ey))
    as (mr & er & Hr & _ & _ & Hlo & Hhi);
    [exact HQD | lia | lia | left; lia | | | |].
  { rewrite <- Hvy. exact Hypos. }
  { rewrite Eprod, Escale. apply Qmult_le_compat_r;
      [|apply Qlt_le_weak, bpow_pos].
    rewrite <- Zle_Qle. exact HQ1. }
  { rewrite Eprod, Escale. apply Qmult_le_compat_r;
      [|apply Qlt_le_weak, bpow_pos].
    rewrite <- Zle_Qle. lia. }
  exists mr, er. split; [exact Hr|].
  pose proof (value_normal _ mr er Hr) as Hvr.
  rewrite Hvr, Hvx, Hvy. split; assumption.
Qed.

(** *** A vector against itself *)

(** What [cosine_similarity] computes for two identical vectors whose dot
    product with themselves is [d]: [d / (sqrt d * sqrt d)]. *)
Definition self_similarity (d : float32) : float32 :=
  div d (mul (sqrt d) (sqrt d)).

(** The tolerance: [2^-20], below [1e-6]. *)
Definition tolerance : Q := 1 # (2 ^ 20).

(** [r] is a finite float within the tolerance of 1. *)
Definition close_to_one (r : float32) : Prop :=
  (exists s m e, r = S754_finite s m e)
  /\ (1 - tolerance <= value r)%Q /\ (value r <= 1 + tolerance)%Q.

Lemma self_similarity_normal (d : float32) (m e : Z) :
  normal d m e -> close_to_one (self_similarity d).
Proof.
  intros Hd. unfold self_similarity.
  destruct (sqrt_normal d m e Hd) as (mn & en & Hn & Hen & Hen40 & Hn1 & Hn2).
  assert (Hen86 : -86 <= en).
  { destruct Hd as (_ & _ & He). Z.div_mod_to_equations. lia. }
  destruct (square_normal _ mn en Hn ltac:(lia)) as (mp & ep & Hp & Hep & Hp1 & Hp2).
  destruct (div_normal d _ m e mp ep Hd Hp) as (mr & er & Hr & Hr1 & Hr2).
  { destruct Hd as (_ & _ & He). Z.div_mod_to_equations. lia. }
  pose proof (normal_value_pos _ _ _ Hd) as Pd.
  pose proof (normal_value_pos _ _ _ Hn) as Pn.
  pose proof (normal_value_pos _ _ _ Hp) as Pp.
  pose proof (normal_value_pos _ _ _ Hr) as Pr.
  split.
  { destruct Hr as (Hr & _). rewrite Hr. eauto. }
  set (vd := value d) in *. set (vn := value (sqrt d)) in *.
  set (vp := value (mul (sqrt d) (sqrt d))) in *.
  set (vr := value (div d (mul (sqrt d) (sqrt d)))) in *.
  assert (Pa : (0 < vn * vn)%Q) by (apply Qmult_lt_0_compat; exact Pn).
  set (a := (vn * vn)%Q) in *.
  unfold tolerance, u in *.
  change (2 ^ 23)%positive with 8388608%positive in *.
  change (2 ^ 20)%positive with 1048576%positive in *.
  split.
  - (* vr (1+u) a >= vr vp >= (1-u) vd >= (1-u) a / (1+u)^2 *)
    assert (H1 : (vr * vp <= vr * ((1 + (1 # 8388608)) * a))%Q).
    { apply Qmult_le_l; [exact Pr | exact Hp2]. }
    assert (H2 : ((1 - (1 # 8388608)) * a
                  <= (1 - (1 # 8388608)) * (vd * ((1 + (1 # 8388608))
                                                  * (1 + (1 # 8388608)))))%Q).
    { apply Qmult_le_l; [reflexivity | exact Hn1]. }
    assert (H3 : ((1 - (1 # 8388608)) * a
                  <= vr * a * ((1 + (1 # 8388608)) * (1 + (1 # 8388608))
                               * (1 + (1 # 8388608))))%Q) by nra.
    assert (H4 : ((1 - (1 # 8388608))
                  <= vr * ((1 + (1 # 8388608)) * (1 + (1 # 8388608))
                           * (1 + (1 # 8388608))))%Q) by nra.
    lra.
  - assert (H1 : (vr * ((1 - (1 # 8388608)) * a) <= vr * vp)%Q).
    { apply Qmult_le_l; [exact Pr | exact Hp1]. }
    assert (H3 : (vr * a * ((1 - (1 # 8388608)) * (1 - (1 # 8388608))
                            * (1 - (1 # 8388608)))
                  <= (1 + (1 # 8388608)) * (1 + (1 # 8388608))
                     * (1 + (1 # 8388608)) * a)%Q) by nra.
    assert (H4 : (vr * ((1 - (1 # 8388608)) * (1 - (1 # 8388608))
                        * (1 - (1 # 8388608)))
                  <= (1 + (1 # 8388608)) * (1 + (1 # 8388608))
                     * (1 + (1 # 8388608)))%Q) by nra.
    lra.
Qed.

(** A positive normal number: a mantissa of 24 bits and an exponent from
    -149 to 104, that is a value from [2^-126] up to the largest finite
    single-precision number. *)
Definition is_normal (f : float32) : Prop := exists m e, normal f m e.

Lemma self_similarity_degenerate (d : float32) :
  match d with
  | S754_finite _ _ _ => True
  | _ => self_similarity d = S754_nan
  end.
Proof. destruct d as [[]|[]| |]; try exact I; reflexivity. Qed.

(** *** [cosine_similarity] on single-precision arrays
        ([utils/functions.py]) *)

(** [np.array(a, dtype=np.float32)]: every element, a Python float (a
    double-precision number), is rounded to single precision. *)
Definition of_double (x : spec_float) : float32 :=
  match x with
  | S754_finite s m e => binary_round prec emax s m e
  | _ => x
  end.

Definition array32 (a : list spec_float) : list float32 := map of_double a.

Section Numpy.
(** The sum of products that [np.dot] returns for two arrays of the same
    length.  The order in which the BLAS routine accumulates is not fixed,
    so the function is a parameter. *)
Variable dot : list float32 -> list float32 -> float32.
(** The message of the [ValueError] for arrays of different lengths. *)
Variable shapes_not_aligned : nat -> nat -> string.

Definition np_dot (a b : list float32) : res float32 :=
  if Nat.eqb (length a) (length b) then Ok (dot a b)
  else Raise (ValueError (shapes_not_aligned (length a) (length b))).

(** [np.linalg.norm] of a one-dimensional real array: [sqrt(x.dot(x))]. *)
Definition np_norm (a : list float32) : float32 := sqrt (dot a a).

Definition cosine_similarity (a b : option (list spec_float)) : res float32 :=
  Functions.cosine_similarity zero mul div np_dot np_norm
    (array32 <$> a) (array32 <$> b).

Lemma cosine_similarity_self (a : list spec_float) :
  a <> [] ->
  cosine_similarity (Some a) (Some a)
  = Ok (self_similarity (dot (array32 a) (array32 a))).
Proof.
  intros Ha. unfold cosine_similarity. cbn [fmap option_fmap option_map].
  rewrite (Functions.cosine_similarity_formula zero mul div np_dot np_norm
             (array32 a) (array32 a) (dot (array32 a) (array32 a))).
  - reflexivity.
  - destruct a; [congruence | discriminate].
  - destruct a; [congruence | discriminate].
  - unfold np_dot. now rewrite Nat.eqb_refl.
Qed.


End Numpy.

(** *** Concrete vectors *)

(** The sum of products accumulated in index order from [0.0].  For
    vectors of one element every order of accumulation gives this. *)
Fixpoint dot_from (acc : float32) (a b : list float32) : float32 :=
  match a, b with
  | x :: a', y :: b' => dot_from (add acc (mul x y)) a' b'
  | _, _ => acc
  end.

Definition dot_in_order (a b : list float32) : float32 := dot_from zero a b.

Definition shapes_message (n m : nat) : string := "shapes not aligned".

(** The double [2^-100], and the vector that holds it. *)
Definition tiny : spec_float := S754_finite false 4503599627370496 (-152).
Definition tiny_vector : list spec_float := [tiny].

(** The doubles 0.0, 1.0, 3.0, 4.0 and [2^100]. *)
Definition d0 : spec_float := S754_zero false.
Definition d1 : spec_float := S754_finite false 4503599627370496 (-52).
Definition d3 : spec_float := S754_finite false 6755399441055744 (-51).
Definition d4 : spec_float := S754_finite false 4503599627370496 (-50).
Definition huge : spec_float := S754_finite false 4503599627370496 48.

(** Single-precision 1.0. *)
Definition one : float32 := S754_finite false 8388608 (-23).


Example cosine_similarity_values :
  cosine_similarity dot_in_order shapes_message (Some [d3; d4]) (Some [d3; d4]) = Ok one
  /\ cosine_similarity dot_in_order shapes_message (Some [d1; d0]) (Some [d0; d1])
     = Ok zero
  /\ cosine_similarity dot_in_order shapes_message (Some [huge]) (Some [huge])
     = Ok S754_nan
  /\ cosine_similarity dot_in_order shapes_message (Some []) (Some [d1]) = Ok zero
  /\ cosine_similarity dot_in_order shapes_message (Some [d1]) None = Ok zero
  /\ cosine_similarity dot_in_order shapes_message (Some [d1]) (Some [d3; d4])
     = Raise (ValueError "shapes not aligned").
Proof. repeat split; vm_compute; reflexivity. Qed.

(** The squared norm of [[3.0; 4.0]] is the normal number 25. *)
Example squared_norm_is_normal :
  is_normal (dot_in_order (array32 [d3; d4]) (array32 [d3; d4])).
Proof.
  exists 13107200, (-19). split; [vm_compute; reflexivity|]. lia.
Qed.


End Float32.
